(** * Tuya Zigbee suite: datapoint codec, command dispatcher, time sync and
      availability tracking

    A shallow embedding of the protocol core of the repository:

    - [Codec]        lib/TuyaHelpers.js ([getDataValue],
                     [convertMultiByteNumberPayloadToSingleDecimalNumber]) and
                     the buffer construction of the write methods of
                     lib/TuyaSpecificClusterDevice.js;
    - [Dispatcher]   [_sendTuyaDatapoint] and [sendBulkCommands] of
                     lib/TuyaSpecificClusterDevice.js;
    - [TimeSync]     [sendTimeResponse] of lib/TuyaSpecificClusterDevice.js;
    - [Cancellation] [_onCapabilityOnOff] of the 4-gang driver and
                     [_debouncedOnCapabilityOnoff], [_executeOnCapabilityOnoff],
                     [_withRetry] / [_sleepWithAbort] of the 2-gang driver and
                     the Moes dimmer;
    - [Availability] lib/AvailabilityManager.js.

    A [Buffer] is a [list byte]; a JavaScript number that the code only uses
    as an integer is a [Z], with the 32-bit wrap-around of the bitwise
    operators written out.  The host framework (transmission, timers, store)
    is an explicit environment: an oracle for the outcome of every
    transmission and a list of the effects a call performs, in order. *)

From Stdlib Require Import ZArith Lia List String Bool.
From Stdlib.Strings Require Import Byte.
From stdpp Require Import base list strings.

Import ListNotations.
Local Open Scope Z_scope.

(* ===================================================================== *)
(** * JavaScript values and buffers                                       *)
(* ===================================================================== *)

Module Js.

(** A Buffer: a sequence of octets. *)
Definition Buffer := list byte.

(** A JavaScript string: its UTF-16 code units. *)
Definition jsstring := list Z.

(** The values the datapoint code produces and consumes. *)
Inductive value :=
| VUndefined
| VBool (b : bool)
| VNum (z : Z)
| VStr (s : jsstring)
| VBuf (b : Buffer).

(** [buf[i]] read as a number. *)
Definition byte_to_Z (b : byte) : Z := Z.of_N (Byte.to_N b).

(** Storing a number in a buffer cell keeps its low eight bits. *)
Definition byte_of_Z (z : Z) : byte :=
  match Byte.of_N (Z.to_N (z mod 256)) with
  | Some b => b
  | None => Byte.x00
  end.

(** ToInt32: the signed 32-bit reading of an integer. *)
Definition to_int32 (z : Z) : Z := (z + 2 ^ 31) mod 2 ^ 32 - 2 ^ 31.

(** [a << n] *)
Definition shl (a n : Z) : Z := to_int32 (Z.shiftl (to_int32 a) (n mod 32)).

(** [a | b] *)
Definition bor (a b : Z) : Z := Z.lor (to_int32 a) (to_int32 b).

(** [buf.writeUInt32BE(value, 0)] on a fresh 4-byte buffer, for a value
    already known to be in range. *)
Definition be32 (v : Z) : Buffer :=
  [ byte_of_Z (Z.land (Z.shiftr v 24) 255);
    byte_of_Z (Z.land (Z.shiftr v 16) 255);
    byte_of_Z (Z.land (Z.shiftr v 8) 255);
    byte_of_Z (Z.land v 255) ].

(** The result of a call that may throw; [E] is the type of the thrown
    values. *)
Inductive res (E A : Type) :=
| Ok (a : A)
| Throw (e : E).
Arguments Ok {E A} a.
Arguments Throw {E A} e.

End Js.

(* ===================================================================== *)
(** * The datapoint codec                                                 *)
(* ===================================================================== *)

Module Codec.
Import Js.

(** [TUYA_DATA_TYPES] *)
Definition TUYA_raw : Z := 0.
Definition TUYA_bool : Z := 1.
Definition TUYA_value : Z := 2.
Definition TUYA_string : Z := 3.
Definition TUYA_enum : Z := 4.
Definition TUYA_bitmap : Z := 5.

(** The [dpValue] argument of [getDataValue]; [data = None] is
    [dpValue.data === undefined]. *)
Record DpValue := mkDp { datatype : Z; data : option Buffer }.

(** The errors [getDataValue] throws. *)
Inductive decode_error :=
| MissingData               (* 'Invalid datapoint value: missing data' *)
| UnsupportedDatatype (dt : Z).

(** [chunks.reduce((acc, byte) => (acc << 8) | byte, 0)], with the early
    return for an empty buffer. *)
Definition convertMultiByteNumberPayloadToSingleDecimalNumber (chunks : Buffer) : Z :=
  match chunks with
  | [] => 0
  | _ => fold_left (fun acc b => bor (shl acc 8) (byte_to_Z b)) chunks 0
  end.

(** [String.fromCharCode(...data)] *)
Definition fromCharCode (data : Buffer) : jsstring := map byte_to_Z data.

(** [data[0]]: [undefined] past the end. *)
Definition first_byte (d : Buffer) : value :=
  match d with
  | [] => VUndefined
  | b :: _ => VNum (byte_to_Z b)
  end.

(** [data[0] === 1] *)
Definition first_byte_is_one (d : Buffer) : bool :=
  match d with
  | [] => false
  | b :: _ => byte_to_Z b =? 1
  end.

Definition getDataValue (dpValue : DpValue) : res decode_error value :=
  match data dpValue with
  | None => Throw MissingData
  | Some d =>
      let dt := datatype dpValue in
      if dt =? TUYA_raw then Ok (VBuf d)
      else if dt =? TUYA_bool then Ok (VBool (first_byte_is_one d))
      else if dt =? TUYA_value then
        Ok (VNum (convertMultiByteNumberPayloadToSingleDecimalNumber d))
      else if dt =? TUYA_string then Ok (VStr (fromCharCode d))
      else if dt =? TUYA_enum then Ok (first_byte d)
      else if dt =? TUYA_bitmap then
        Ok (VNum (convertMultiByteNumberPayloadToSingleDecimalNumber d))
      else Throw (UnsupportedDatatype dt)
  end.

(** [decode(datatype, data)] *)
Definition decode (dt : Z) (d : Buffer) : res decode_error value :=
  getDataValue (mkDp dt (Some d)).

(** ** The buffers the write methods build *)

(** The validation errors of the write methods. *)
Inductive encode_error :=
| ExpectedBoolean           (* writeBool: expected boolean *)
| InvalidUint32             (* writeData32: invalid uint32 *)
| InvalidEnum               (* writeEnum: invalid enum *)
| NotABuffer.               (* writeRaw: data must be a Buffer *)

(** [writeBool]: [Buffer.from([value ? 1 : 0])] *)
Definition writeBool_buffer (v : value) : res encode_error Buffer :=
  match v with
  | VBool b => Ok [byte_of_Z (if b then 1 else 0)]
  | _ => Throw ExpectedBoolean
  end.

(** [writeData32]: [Buffer.alloc(4); buf.writeUInt32BE(value, 0)] *)
Definition writeData32_buffer (v : value) : res encode_error Buffer :=
  match v with
  | VNum z =>
      if (z <? 0) || (z >? 4294967295) then Throw InvalidUint32
      else Ok (be32 z)
  | _ => Throw InvalidUint32
  end.

(** [Buffer.from(s, 'latin1')]: the low octet of every code unit. *)
Definition latin1 (s : jsstring) : Buffer := map byte_of_Z s.

(** [writeString]: [Buffer.from(String(value), 'latin1')], for a [value]
    that is a string, on which [String] is the identity. *)
Definition writeString_buffer (s : jsstring) : Buffer := latin1 s.

(** [writeEnum]: [Buffer.from([value])] *)
Definition writeEnum_buffer (v : value) : res encode_error Buffer :=
  match v with
  | VNum z =>
      if (z <? 0) || (z >? 255) then Throw InvalidEnum
      else Ok [byte_of_Z z]
  | _ => Throw InvalidEnum
  end.

(** [writeRaw]: the buffer itself. *)
Definition writeRaw_buffer (v : value) : res encode_error Buffer :=
  match v with
  | VBuf b => Ok b
  | _ => Throw NotABuffer
  end.

(** [encode(datatype, value)]: the buffer of the write method that sends
    [datatype]; no write method sends a bitmap, whose integers go through
    [writeData32] like those of [value].  [None]: no such datatype, or a
    non-string handed to [writeString]. *)
Definition encode (dt : Z) (v : value) : option (res encode_error Buffer) :=
  if dt =? TUYA_raw then Some (writeRaw_buffer v)
  else if dt =? TUYA_bool then Some (writeBool_buffer v)
  else if dt =? TUYA_value then Some (writeData32_buffer v)
  else if dt =? TUYA_string then
    match v with VStr s => Some (Ok (writeString_buffer s)) | _ => None end
  else if dt =? TUYA_enum then Some (writeEnum_buffer v)
  else if dt =? TUYA_bitmap then Some (writeData32_buffer v)
  else None.

(** Round-trip stability of [d] under [dt]:
    [decode(dt, encode(dt, decode(dt, d))) == decode(dt, d)]. *)
Definition roundtrip_stable (dt : Z) (d : Buffer) : Prop :=
  exists v buf,
    decode dt d = Ok v /\ encode dt v = Some (Ok buf) /\ decode dt buf = Ok v.

(** The unsigned big-endian number a byte sequence denotes. *)
Definition big_endian (d : Buffer) : Z :=
  fold_left (fun acc b => acc * 256 + byte_to_Z b) d 0.

End Codec.

(* ===================================================================== *)
(** * The command dispatcher                                              *)
(* ===================================================================== *)

Module Dispatcher.
Import Js.

(** The values the dispatcher throws. *)
Inductive error :=
| ENoCluster (ep : Z)             (* `[TuyaDevice] tuya cluster not on ep${ep}` *)
| ETransport (msg : string)       (* the rejection of [tuya.datapoint] *)
| EInvalid (e : Codec.encode_error) (* the validation of a write method *)
| EUnknownType (ty : string)      (* `unknown type: ${cmd.type}` *)
| ETypeError.                     (* reading [.message] of [undefined] *)

(** The argument of [tuya.datapoint]. *)
Record Frame := mkFrame {
  status : Z; transid : Z; dp : Z; datatype : Z; length : Z; data : Buffer
}.

(** Which [homey.setTimeout] is awaited. *)
Inductive wait_site :=
| RetryBackoff                    (* in the [catch] of [_sendTuyaDatapoint] *)
| BulkPacing.                     (* at the end of the body of the bulk loop *)

(** What a call does to the outside, in order. *)
Inductive event :=
| Datapoint (f : Frame)           (* [await ep.clusters.tuya.datapoint(f)] *)
| NotReady                        (* the attempt threw at the cluster lookup *)
| Timeout (site : wait_site) (ms : Z).

(** What the outside answers to one attempt: the cluster is not there,
    or the transmission is rejected, or it resolves. *)
Inductive answer :=
| NoCluster
| Rejects (msg : string)
| Resolves.

(** The fields of the device the dispatcher reads and writes;
    [attempts_made] counts the attempts so far and indexes the answers of
    the outside. *)
Record Device := mkDevice {
  tuyaEndpoint : Z;
  _transactionID : Z;
  getAvailable : bool;
  attempts_made : nat
}.

(** A call: the result, the device afterwards, the effects. *)
Definition run (A : Type) : Type := res error A * Device * list event.

(** [{type, dp, value}] *)
Record Cmd := mkCmd { cmd_type : string; cmd_dp : Z; cmd_value : value }.

(** The [error] field of an entry of the result list. *)
Inductive bulk_error :=
| DeviceUnavailable               (* 'device unavailable' *)
| AbortedConsecutiveFailures      (* 'aborted: consecutive failures' *)
| Thrown (e : error).             (* [err.message] *)

(** [{success, dp, result|error}]; [result] is always [undefined]. *)
Record BulkResult := mkResult {
  success : bool; r_dp : Z; r_error : option bulk_error
}.

Definition is_resolves (a : answer) : bool :=
  match a with Resolves => true | _ => false end.

Section Outside.

(** The answer of the outside to the [n]-th attempt. *)
Variable world : nat -> answer.

(** [String(value)] *)
Variable js_String : value -> jsstring.

(** The error an attempt ends with when it does not resolve. *)
Definition error_of (st : Device) (a : answer) : error :=
  match a with
  | NoCluster => ENoCluster (tuyaEndpoint st)
  | Rejects msg => ETransport msg
  | Resolves => ETypeError
  end.

(** The body of the [try] block: the cluster lookup, then the call with
    the next transaction id ([this._transactionID++ % 256]). *)
Definition attempt_once (dp datatype : Z) (data : Buffer) (st : Device)
  : run unit :=
  let f := mkFrame 0 (_transactionID st mod 256) dp datatype
                   (Z.of_nat (List.length data)) data in
  let called := mkDevice (tuyaEndpoint st) (_transactionID st + 1)
                         (getAvailable st) (S (attempts_made st)) in
  match world (attempts_made st) with
  | NoCluster =>
      (Throw (ENoCluster (tuyaEndpoint st)),
       mkDevice (tuyaEndpoint st) (_transactionID st)
                (getAvailable st) (S (attempts_made st)),
       [NotReady])
  | Rejects msg => (Throw (ETransport msg), called, [Datapoint f])
  | Resolves => (Ok tt, called, [Datapoint f])
  end.

(** The [for] loop of [_sendTuyaDatapoint], [left] iterations before
    [attempt] passes [maxRetries]. *)
Fixpoint retry_loop (left attempt maxRetries : nat) (baseDelay : Z)
    (dp datatype : Z) (data : Buffer) (lastError : option error)
    (st : Device) : run unit :=
  match left with
  | O =>
      (Throw (match lastError with Some e => e | None => ETypeError end),
       st, [])
  | S left' =>
      match attempt_once dp datatype data st with
      | (Ok _, st1, ev) => (Ok tt, st1, ev)
      | (Throw e, st1, ev) =>
          let wait :=
            if (attempt <? maxRetries)%nat
            then [Timeout RetryBackoff (baseDelay * 2 ^ Z.of_nat attempt)]
            else [] in
          let '(r, st2, ev2) :=
            retry_loop left' (S attempt) maxRetries baseDelay
                       dp datatype data (Some e) st1 in
          (r, st2, ev ++ wait ++ ev2)
      end
  end.

Definition _sendTuyaDatapoint (dp datatype : Z) (data : Buffer)
    (maxRetries : nat) (baseDelay : Z) (st : Device) : run unit :=
  retry_loop (S maxRetries) 0 maxRetries baseDelay dp datatype data None st.

(** A write method: validate, build the buffer, send. *)
Definition write_with (buf : res Codec.encode_error Buffer) (dp datatype : Z)
    (maxRetries : nat) (baseDelay : Z) (st : Device) : run unit :=
  match buf with
  | Throw e => (Throw (EInvalid e), st, [])
  | Ok b => _sendTuyaDatapoint dp datatype b maxRetries baseDelay st
  end.

Definition writeBool (dp : Z) (v : value) :=
  write_with (Codec.writeBool_buffer v) dp 1.
Definition writeData32 (dp : Z) (v : value) :=
  write_with (Codec.writeData32_buffer v) dp 2.
Definition writeString (dp : Z) (v : value) :=
  write_with (Ok (Codec.latin1 (js_String v))) dp 3.
Definition writeEnum (dp : Z) (v : value) :=
  write_with (Codec.writeEnum_buffer v) dp 4.
Definition writeRaw (dp : Z) (v : value) :=
  write_with (Codec.writeRaw_buffer v) dp 0.

(** The [switch (cmd.type)] of the bulk loop. *)
Definition run_cmd (cmd : Cmd) (st : Device) : run unit :=
  if String.eqb (cmd_type cmd) "bool" then
    writeBool (cmd_dp cmd) (cmd_value cmd) 2 200 st
  else if String.eqb (cmd_type cmd) "enum" then
    writeEnum (cmd_dp cmd) (cmd_value cmd) 2 200 st
  else if String.eqb (cmd_type cmd) "data32" then
    writeData32 (cmd_dp cmd) (cmd_value cmd) 2 200 st
  else if String.eqb (cmd_type cmd) "string" then
    writeString (cmd_dp cmd) (cmd_value cmd) 2 200 st
  else if String.eqb (cmd_type cmd) "raw" then
    writeRaw (cmd_dp cmd) (cmd_value cmd) 2 200 st
  else (Throw (EUnknownType (cmd_type cmd)), st, []).

Definition skipped (why : bulk_error) (cmd : Cmd) : BulkResult :=
  mkResult false (cmd_dp cmd) (Some why).

(** The [for] loop of [sendBulkCommands] over the commands still to
    come; it returns the entries pushed, the counter [fails], the device
    and the effects. *)
Fixpoint bulk_loop (delay : Z) (commands : list Cmd) (fails : nat)
    (st : Device) : list BulkResult * nat * Device * list event :=
  match commands with
  | [] => ([], fails, st, [])
  | cmd :: rest =>
      if (2 <=? fails)%nat then
        let '(rs, fails', st', ev) := bulk_loop delay rest fails st in
        (skipped AbortedConsecutiveFailures cmd :: rs, fails', st', ev)
      else
        let '(r, st1, ev1) := run_cmd cmd st in
        let entry :=
          match r with
          | Ok _ => mkResult true (cmd_dp cmd) None
          | Throw e => mkResult false (cmd_dp cmd) (Some (Thrown e))
          end in
        let fails1 :=
          match r with Ok _ => O | Throw _ => S fails end in
        let pause :=
          match rest with
          | [] => []
          | _ :: _ => [Timeout BulkPacing delay]
          end in
        let '(rs, fails', st', ev) := bulk_loop delay rest fails1 st1 in
        (entry :: rs, fails', st', ev1 ++ pause ++ ev)
  end.

Definition sendBulkCommands (commands : list Cmd) (delayBetween : Z)
    (st : Device) : list BulkResult * Device * list event :=
  match commands with
  | [] => ([], st, [])
  | _ :: _ =>
      if negb (getAvailable st) then
        (map (skipped DeviceUnavailable) commands, st, [])
      else
        let '(rs, _, st', ev) :=
          bulk_loop (Z.max 150 delayBetween) commands 0 st in
        (rs, st', ev)
  end.

End Outside.

(** ** Readings of a list of effects *)

(** The waits, in order. *)
Definition delays (site : wait_site) (ev : list event) : list Z :=
  flat_map (fun e =>
    match e, site with
    | Timeout RetryBackoff ms, RetryBackoff => [ms]
    | Timeout BulkPacing ms, BulkPacing => [ms]
    | _, _ => []
    end) ev.

(** The transmissions, in order. *)
Definition transmissions (ev : list event) : list Frame :=
  flat_map (fun e => match e with Datapoint f => [f] | _ => [] end) ev.

(** An effect without its frame. *)
Inductive shape :=
| STransmit
| SNotReady
| SWait (ms : Z).

Definition shape_of (e : event) : shape :=
  match e with
  | Datapoint _ => STransmit
  | NotReady => SNotReady
  | Timeout _ ms => SWait ms
  end.

(** The shape of a failing attempt. *)
Definition failed_shape (a : answer) : shape :=
  match a with NoCluster => SNotReady | _ => STransmit end.

(** Everything but the pacing waits of the bulk loop. *)
Definition unpaced (ev : list event) : list event :=
  List.filter (fun e =>
    match e with Timeout BulkPacing _ => false | _ => true end) ev.


(** The components of what [bulk_loop] returns. *)
Definition bl_results (x : list BulkResult * nat * Device * list event) :=
  fst (fst (fst x)).
Definition bl_fails (x : list BulkResult * nat * Device * list event) :=
  snd (fst (fst x)).
Definition bl_device (x : list BulkResult * nat * Device * list event) :=
  snd (fst x).
Definition bl_events (x : list BulkResult * nat * Device * list event) :=
  snd x.

(** The entry was pushed for a command that was not run. *)
Definition is_aborted (r : BulkResult) : bool :=
  match r_error r with
  | Some AbortedConsecutiveFailures => true
  | _ => false
  end.

Definition nonempty {A} (l : list A) : bool :=
  match l with [] => false | _ :: _ => true end.

(** The last entry pushed stands for a command that was run. *)
Definition last_attempted (rs : list BulkResult) : bool :=
  match last rs with
  | Some r => negb (is_aborted r)
  | None => false
  end.

(** An outside whose first two transmissions are rejected. *)
Definition fails_twice (n : nat) : answer :=
  match n with
  | O | S O => Rejects "no response"
  | _ => Resolves
  end.

End Dispatcher.
(* ===================================================================== *)
(** * Time synchronisation                                                *)
(* ===================================================================== *)

Module TimeSync.
Import Js.

(** A property of the request that may hold a Buffer: absent (or falsy),
    some other truthy value, or a Buffer. *)
Inductive field :=
| Missing
| Other
| Buf (b : Buffer).

(** The argument of the [timeRequest] listener. *)
Record TimeRequest := mkRequest { payload : field; data : field }.

(** What [sendTimeResponse] throws. *)
Inductive ts_error :=
| RangeError                      (* [writeUInt32BE] out of range *)
| EndpointNotAvailable
| ClusterNotAvailable
| SetTimeRejected (msg : string).

(** What the call reads from the outside: the clock ([now.getTime()]);
    the offset in seconds, at that time, of the time zone that
    [homey.clock.getTimezone()] names ([None]: the lookup of the zone, or
    [toLocaleString] with it, throws); [now.getTimezoneOffset()], the
    minutes the host's own zone is behind UTC; the endpoint and its
    cluster; and the answer of [cluster.setTime] ([None]: it resolves). *)
Record TimeEnv := mkTimeEnv {
  now_ms : Z;
  zone_offset : option Z;
  getTimezoneOffset : Z;
  has_endpoint : bool;
  has_cluster : bool;
  setTime_rejects : option string
}.

(** [now.toLocaleString('en-US', { timeZone: tz })]: the wall clock of the
    zone, as the seconds it shows; the string has no milliseconds. *)
Definition toLocaleString (env : TimeEnv) (zone : Z) : Z :=
  now_ms env / 1000 + zone.

(** [new Date(string)]: the wall clock shown, read as a time of the
    host's own zone (taken to be at the same offset then as at [now]), in
    milliseconds. *)
Definition new_Date (env : TimeEnv) (wall_seconds : Z) : Z :=
  (wall_seconds + 60 * getTimezoneOffset env) * 1000.

(** The [try] block that computes [offsetSeconds], and its [catch]. *)
Definition offsetSeconds (env : TimeEnv) : Z :=
  match zone_offset env with
  | Some zone =>
      let loc := new_Date env (toLocaleString env zone) in
      (loc - now_ms env) / 1000
  | None => getTimezoneOffset env * -60
  end.

(** [request?.payload || request?.data] *)
Definition reqData (request : option TimeRequest) : field :=
  match request with
  | None => Missing
  | Some r =>
      match payload r with
      | Missing => data r
      | f => f
      end
  end.

(** The flag [use10Bytes] after the inspection of the request. *)
Definition use10Bytes (request : option TimeRequest) : bool :=
  match reqData request with
  | Buf (b0 :: b1 :: _) =>
      let z0 := byte_to_Z b0 in
      let z1 := byte_to_Z b1 in
      if ((z0 =? 0) && (z1 =? 6)) || ((z0 =? 0) && (z1 =? 0))
      then false else true
  | _ => true
  end.

(** [payload.writeUInt32BE(value, offset)]: the four octets, or a
    [RangeError]. *)
Definition writeUInt32BE (v : Z) : res ts_error Buffer :=
  if (v <? 0) || (v >? 4294967295) then Throw RangeError else Ok (be32 v).

(** The payload [sendTimeResponse] builds. *)
Definition time_payload (utcSeconds localSeconds : Z)
    (request : option TimeRequest) : res ts_error Buffer :=
  match writeUInt32BE utcSeconds with
  | Throw e => Throw e
  | Ok utc =>
      match writeUInt32BE localSeconds with
      | Throw e => Throw e
      | Ok loc =>
          if use10Bytes request
          then Ok ([Byte.x00; Byte.x08] ++ utc ++ loc)
          else Ok (utc ++ loc)
      end
  end.

(** [sendTimeResponse(request)]: the result and the payload handed to
    [cluster.setTime], if any. *)
Definition sendTimeResponse (env : TimeEnv) (request : option TimeRequest)
  : res ts_error unit * option Buffer :=
  let utcSeconds := now_ms env / 1000 in
  let localSeconds := utcSeconds + offsetSeconds env in
  match time_payload utcSeconds localSeconds request with
  | Throw e => (Throw e, None)
  | Ok p =>
      if negb (has_endpoint env) then (Throw EndpointNotAvailable, None)
      else if negb (has_cluster env) then (Throw ClusterNotAvailable, None)
      else match setTime_rejects env with
           | Some msg => (Throw (SetTimeRejected msg), Some p)
           | None => (Ok tt, Some p)
           end
  end.

(** The request carries a buffer that starts with 00 06 or 00 00. *)
Definition short_form_prefix (request : option TimeRequest) : Prop :=
  exists b1 rest,
    reqData request = Buf (Byte.x00 :: b1 :: rest)
    /\ (b1 = Byte.x06 \/ b1 = Byte.x00).

(** The clock and zone of the examples: 2023-11-14T22:13:20Z, UTC+1, on a
    host that runs on UTC. *)
Definition example_env : TimeEnv :=
  mkTimeEnv 1700000000000 (Some 3600) 0 true true None.

(** The same zone and host 250 ms later. *)
Definition between_seconds : TimeEnv :=
  mkTimeEnv 1700000000250 (Some 3600) 0 true true None.

End TimeSync.
(* ===================================================================== *)
(** * Commands submitted while another one is in flight                   *)
(* ===================================================================== *)

Module Cancellation.
Import Js.

(** ** The 4-gang switch: [_onCapabilityOnOff] *)

(** The fields of a gang the handler reads and writes. *)
Record Gang := mkGang {
  onoff : option bool;              (* [getCapabilityValue('onoff')] *)
  _commandPending : bool;
  _myDp : Z
}.

(** How far a call of the handler gets before its first [await]. *)
Inductive entered :=
| SkippedSame                       (* anti-flicker: the value is already set *)
| SkippedPending                    (* 'command already pending, skipping' *)
| Started.                          (* [_commandPending = true], then [writeBool] *)

(** The handler up to the [await] of [writeBool]. *)
Definition onoff_enter (value : bool) (g : Gang) : entered * Gang :=
  match onoff g with
  | Some v =>
      if Bool.eqb v value then (SkippedSame, g)
      else if _commandPending g then (SkippedPending, g)
      else (Started, mkGang (onoff g) true (_myDp g))
  | None =>
      if _commandPending g then (SkippedPending, g)
      else (Started, mkGang (onoff g) true (_myDp g))
  end.

(** The [finally] block, once [writeBool] has settled. *)
Definition onoff_settle (g : Gang) : Gang :=
  mkGang (onoff g) false (_myDp g).

(** [RETRY_CONFIG.COMMANDS] *)
Definition COMMANDS_retries : nat := 5.
Definition COMMANDS_delay : Z := 300.

(** A call of the handler that no other call interleaves with. *)
Definition _onCapabilityOnOff (world : nat -> Dispatcher.answer)
    (value : bool) (g : Gang) (dev : Dispatcher.Device)
  : res Dispatcher.error unit * Gang * Dispatcher.Device
    * list Dispatcher.event :=
  match onoff_enter value g with
  | (Started, g1) =>
      let '(r, dev1, ev) :=
        Dispatcher.writeBool world (_myDp g1) (VBool value)
          COMMANDS_retries COMMANDS_delay dev in
      (r, onoff_settle g1, dev1, ev)
  | (_, g1) => (Ok tt, g1, dev, [])
  end.


(** ** The 2-gang switch and the dimmer: [_withRetry] under an abort signal *)

(** [{ retries, delayMs }] *)
Record Policy := mkPolicy { retries : nat; delayMs : Z }.

(** The names an object literal inherits from [Object.prototype]. *)
Definition inherited_member (s : string) : bool :=
  existsb (String.eqb s)
    [ "constructor"; "toString"; "toLocaleString"; "valueOf";
      "hasOwnProperty"; "isPrototypeOf"; "propertyIsEnumerable";
      "__proto__"; "__defineGetter__"; "__defineSetter__";
      "__lookupGetter__"; "__lookupSetter__" ]%string.

(** The policy table, indexed by
    [String(settings.retry_stage || 'balanced')], with its default
    [|| { retries: 2, delayMs: 350 }].  [None]: the name finds a member
    the table inherits, which is truthy and no policy; it has no
    [retries], so the loop of [_withRetry] never runs. *)
Definition policy_of (retry_stage : option string) : option Policy :=
  match retry_stage with
  | None => Some (mkPolicy 2 350)
  | Some stage =>
      if String.eqb stage "" then Some (mkPolicy 2 350)
      else if String.eqb stage "off" then Some (mkPolicy 0 0)
      else if String.eqb stage "balanced" then Some (mkPolicy 2 350)
      else if String.eqb stage "max" then Some (mkPolicy 5 600)
      else if inherited_member stage then None
      else Some (mkPolicy 2 350)
  end.

(** What happens outside while the command runs: the answer to the [i]-th
    transmission ([None]: it resolves, [Some msg]: it rejects), and whether
    the signal is aborted while that transmission, or the wait after it, is
    awaited. *)
Record Outside := mkOutside {
  tx : nat -> option string;
  abort_in_tx : nat -> bool;
  abort_in_sleep : nat -> bool
}.

Inductive cevent :=
| Transmit                          (* [onOff.setOn()] or [onOff.setOff()] *)
| Sleep (ms : Z)                    (* [_sleepWithAbort] ran to its timeout *)
| SleepCut (ms : Z).                (* the abort handler cleared the timeout *)

(** What [_withRetry] returns or throws. *)
Inductive retry_result :=
| RetTrue
| RetAborted
| RetThrow (msg : string).

(** The [for] loop of [_withRetry] with [fn] as [_executeOnCapabilityOnoff]
    builds it; [aborted] is [signal.aborted] on entry. *)
Fixpoint withRetry_loop (w : Outside) (p : Policy) (left i : nat)
    (aborted : bool) (lastErr : string) : retry_result * bool * list cevent :=
  match left with
  | O => (RetThrow lastErr, aborted, [])
  | S left' =>
      if aborted then (RetAborted, aborted, [])
      else
        let aborted1 := abort_in_tx w i in
        match tx w i with
        | None => (RetTrue, aborted1, [Transmit])
        | Some msg =>
            if aborted1 || String.eqb msg "aborted" then
              (RetAborted, aborted1, [Transmit])
            else if (i <? retries p)%nat && (0 <? delayMs p) then
              if abort_in_sleep w i then
                (RetAborted, true, [Transmit; SleepCut (delayMs p)])
              else
                let '(r, a, ev) := withRetry_loop w p left' (S i) false msg in
                (r, a, Transmit :: Sleep (delayMs p) :: ev)
            else
              let '(r, a, ev) := withRetry_loop w p left' (S i) false msg in
              (r, a, Transmit :: ev)
        end
  end.

Definition _withRetry (w : Outside) (p : Policy)
  : retry_result * bool * list cevent :=
  withRetry_loop w p (S (retries p)) 0 false "".

(** How the promise of [_executeOnCapabilityOnoff] settles. *)
Inductive settled :=
| Completed                         (* the command was delivered *)
| ResolvedAborted                   (* 'Command aborted': no error, no delivery *)
| Rejected (msg : string).

Definition _executeOnCapabilityOnoff (w : Outside) (p : Policy)
  : settled * list cevent :=
  match _withRetry w p with
  | (RetTrue, _, ev) => (Completed, ev)
  | (RetAborted, _, ev) => (ResolvedAborted, ev)
  | (RetThrow msg, aborted, ev) =>
      if aborted || String.eqb msg "aborted" then (ResolvedAborted, ev)
      else (Rejected msg, ev)
  end.

(** Before attempt [i] every transmission was rejected and the signal was
    not aborted. *)
Definition undisturbed (w : Outside) (i : nat) : Prop :=
  forall j, (j < i)%nat ->
    (exists msg, tx w j = Some msg /\ msg <> "aborted"%string)
    /\ abort_in_tx w j = false
    /\ abort_in_sleep w j = false.

(** What the command has done when it reaches attempt [i]. *)
Definition attempts_before (p : Policy) (i : nat) : list cevent :=
  flat_map (fun _ => [Transmit; Sleep (delayMs p)]) (seq 0 i).

(** An outside that rejects every transmission and aborts the signal in
    the wait after the second one. *)
Definition aborted_in_second_wait : Outside :=
  mkOutside (fun _ => Some "timeout"%string) (fun _ => false)
            (fun j => Nat.eqb j 1).

(** ** The 2-gang switch and the dimmer: the command lock *)

(** [{ value, opts, time }] *)
Record Pending := mkPending { p_value : bool; p_time : Z }.

(** The fields of the device the two methods share.  A controller is
    named by its rank among the controllers created; [aborted_signals]
    lists those whose [abort()] was called. *)
Record Shared := mkShared {
  _commandLock : bool;
  _commandAbort : option nat;
  _pendingCommand : option Pending;
  _lastCommandTime : option Z;
  aborted_signals : list nat;
  controllers : nat
}.

(** [ac.signal.aborted] *)
Definition signal_aborted (ac : nat) (s : Shared) : bool :=
  existsb (Nat.eqb ac) (aborted_signals s).

(** [if (this._commandAbort) this._commandAbort.abort()] *)
Definition abort_current (s : Shared) : list nat :=
  match _commandAbort s with
  | Some ac => ac :: aborted_signals s
  | None => aborted_signals s
  end.

(** How a call of [_debouncedOnCapabilityOnoff] leaves its first part. *)
Inductive submitted_as :=
| Queued                            (* 'Command busy, queuing': [await this._sleep(100)] *)
| Debounced                         (* 'Command debounced': it returns *)
| Proceeds.                         (* it calls [_executeOnCapabilityOnoff] *)

(** [_debouncedOnCapabilityOnoff(value, opts)] with [now = Date.now()],
    up to its [await] or to its call of [_executeOnCapabilityOnoff]. *)
Definition debounced_enter (value : bool) (now : Z) (s : Shared)
  : submitted_as * Shared :=
  if _commandLock s then
    (Queued,
     mkShared (_commandLock s) None (Some (mkPending value now))
              (_lastCommandTime s) (abort_current s) (controllers s))
  else if now - (match _lastCommandTime s with Some t => t | None => 0 end)
          <? 300
  then (Debounced, s)
  else (Proceeds, s).

(** After the [await] of 100 ms:
    [this._pendingCommand && this._pendingCommand.time === now]. *)
Definition debounced_resume (now : Z) (s : Shared) : bool :=
  match _pendingCommand s with
  | Some p => p_time p =? now
  | None => false
  end.

(** [_executeOnCapabilityOnoff] up to its [await] of [_withRetry], with
    [date = Date.now()]; it returns the controller [ac]. *)
Definition execute_enter (date : Z) (s : Shared) : nat * Shared :=
  (controllers s,
   mkShared true (Some (controllers s)) None (Some date)
            (abort_current s) (S (controllers s))).

(** The [finally] block of the call that created [ac], with
    [date = Date.now()]; it returns the command it sets the timer of
    50 ms for. *)
Definition execute_finally (ac : nat) (date : Z) (s : Shared)
  : Shared * option Pending :=
  let current :=
    match _commandAbort s with
    | Some c => if Nat.eqb c ac then None else Some c
    | None => None
    end in
  (mkShared false current None (_lastCommandTime s) (aborted_signals s)
            (controllers s),
   match _pendingCommand s with
   | Some pending =>
       if date - p_time pending <? 5000 then Some pending else None
   | None => None
   end).

(** A call of [_executeOnCapabilityOnoff] that was entered. *)
Record Begun := mkBegun { b_value : bool; b_time : Z; b_controller : nat }.

(** The device, the calls of [_executeOnCapabilityOnoff] entered after
    the first command and the calls that ended as debounced. *)
Record Run := mkRun {
  shared : Shared;
  began : list Begun;
  debounced : list (bool * Z)
}.

(** The end of the queued call, [at_] being the time its sleep is over:
    it executes its command when it is still the pending one.  The two
    readings of the clock in one synchronous run are taken equal. *)
Definition resume (value : bool) (now at_ : Z) (r : Run) : Run :=
  if debounced_resume now (shared r) then
    let '(ac, s) := execute_enter at_ (shared r) in
    mkRun s (began r ++ [mkBegun value at_ ac]) (debounced r)
  else r.

(** The timer of 50 ms runs at [at_]: a new call of
    [_debouncedOnCapabilityOnoff] for the command taken from the queue.
    [None]: that call queues itself behind a third command. *)
Definition fire (timer : option Pending) (at_ : Z) (r : Run) : option Run :=
  match timer with
  | None => Some r
  | Some pending =>
      match debounced_enter (p_value pending) at_ (shared r) with
      | (Queued, _) => None
      | (Debounced, s) =>
          Some (mkRun s (began r) (debounced r ++ [(p_value pending, at_)]))
      | (Proceeds, s) =>
          let '(ac, s') := execute_enter at_ s in
          Some (mkRun s' (began r ++ [mkBegun (p_value pending) at_ ac])
                      (debounced r))
      end
  end.

(** What the first command awaits when the second one is submitted. *)
Inductive position :=
| InTransmission (i : nat)          (* the [i]-th [setOn()] or [setOff()] *)
| InWait (i : nat).                 (* the [_sleepWithAbort] after it *)

(** The outside of a command whose signal is [aborted], or not, by what
    happens while it is at [pos]. *)
Definition outside_at (answers : nat -> option string) (pos : position)
    (aborted : bool) : Outside :=
  mkOutside answers
    (fun i => match pos with
              | InTransmission k => Nat.eqb i k && aborted
              | InWait _ => false
              end)
    (fun i => match pos with
              | InWait k => Nat.eqb i k && aborted
              | InTransmission _ => false
              end).

(** Two commands: A is submitted at [begun] and B at [submitted], when A
    is at [where_]; [settles] is the time at which the transmission A has
    in flight then is answered; the timers of 100 and 50 ms run
    [late_sleep] and [late_timer] after their time. *)
Record Pair := mkPair {
  policy : Policy;
  answers : nat -> option string;
  valueA : bool;
  valueB : bool;
  begun : Z;
  where_ : position;
  submitted : Z;
  settles : Z;
  late_sleep : Z;
  late_timer : Z
}.

Record Outcome := mkOutcome {
  a_controller : nat;
  after_submission : Shared;        (* when B's call has reached its [await] *)
  a_result : settled;
  a_events : list cevent;
  a_ends : Z;                       (* when A's [finally] block runs *)
  run : Run                         (* when the timers have run *)
}.

(** The two calls, in the order of the event loop.  A wait that is cut
    hands over to A's continuation as soon as B's call awaits; a
    transmission in flight does so at [settles].  [None]: A is not
    started, B is not queued, or the two next callbacks have the same
    time.  What B does once it is entered is not followed. *)
Definition supersede (c : Pair) (s0 : Shared) : option Outcome :=
  match debounced_enter (valueA c) (begun c) s0 with
  | (Proceeds, _) =>
      let '(acA, s1) := execute_enter (begun c) s0 in
      match debounced_enter (valueB c) (submitted c) s1 with
      | (Queued, s2) =>
          let w :=
            outside_at (answers c) (where_ c) (signal_aborted acA s2) in
          let '(resA, evA) := _executeOnCapabilityOnoff w (policy c) in
          let ends :=
            match where_ c with
            | InWait _ => submitted c
            | InTransmission _ => settles c
            end in
          let resume_at := submitted c + 100 + late_sleep c in
          let fire_at := ends + 50 + late_timer c in
          let finished :=
            if ends <? resume_at then
              let '(s3, timer) := execute_finally acA ends s2 in
              let r3 := mkRun s3 [] [] in
              if resume_at <=? fire_at then
                fire timer fire_at
                     (resume (valueB c) (submitted c) resume_at r3)
              else
                option_map (resume (valueB c) (submitted c) resume_at)
                           (fire timer fire_at r3)
            else if resume_at <? ends then
              let r3 := resume (valueB c) (submitted c) resume_at
                               (mkRun s2 [] []) in
              let '(s4, timer) := execute_finally acA ends (shared r3) in
              fire timer fire_at (mkRun s4 (began r3) (debounced r3))
            else None in
          option_map (mkOutcome acA s2 resA evA ends) finished
      | _ => None
      end
  | _ => None
  end.

(** A device on which no command is in flight or queued. *)
Definition idle : Shared := mkShared false None None None [] 0.

(** The device when B's call has reached its [await], A having been
    started on [s0]. *)
Definition queued_behind (c : Pair) (s0 : Shared) : Shared :=
  mkShared true None (Some (mkPending (valueB c) (submitted c)))
           (Some (begun c)) (controllers s0 :: abort_current s0)
           (S (controllers s0)).

(** The device when A has run its [finally] block before the sleep of B
    is over. *)
Definition after_finally (c : Pair) (s0 : Shared) : Shared :=
  mkShared false None None (Some (begun c))
           (controllers s0 :: abort_current s0) (S (controllers s0)).

(** No command is in flight or queued, and the controllers aborted or
    held are among those created. *)
Definition quiet (s : Shared) : Prop :=
  _commandLock s = false
  /\ _pendingCommand s = None
  /\ forall ac, In ac (abort_current s) -> (ac < controllers s)%nat.

(** A is started on a quiet device no sooner than 300 ms after the
    command before it, and no timer runs before its time. *)
Definition starts (c : Pair) (s0 : Shared) : Prop :=
  quiet s0
  /\ 300 <= begun c - (match _lastCommandTime s0 with
                       | Some t => t
                       | None => 0
                       end)
  /\ 0 <= late_sleep c
  /\ 0 <= late_timer c.

(** The transmissions before the [n]-th are rejected, by an error other
    than 'aborted'. *)
Definition rejected_before (answers : nat -> option string) (n : nat)
  : Prop :=
  forall j, (j < n)%nat ->
    exists msg, answers j = Some msg /\ msg <> "aborted"%string.


(** B is submitted 100 ms after A, in A's first wait. *)
Definition pressed_too_soon : Pair :=
  mkPair (mkPolicy 2 350) (fun _ => Some "timeout"%string) true false
         1700000000000 (InWait 0) 1700000000100 0 0 0.


End Cancellation.
(* ===================================================================== *)
(** * The availability manager                                            *)
(* ===================================================================== *)

Module Availability.
Import Js.

(** [device.getData()] *)
Record DeviceData := mkData {
  ieeeAddress : option string;
  token : option string
}.

(** A device of the driver, as the manager sees it: its data ([None]:
    [getData()] throws or returns nothing), its availability, the stored
    [last_seen_ts] ([None]: nothing stored, or the store cannot be read)
    and the setting that gates the monitoring ([None]: not set). *)
Record Dev := mkDev {
  getData : option DeviceData;
  getAvailable : bool;
  last_seen_ts : option Z;
  health_monitoring_enabled : option bool
}.

(** [driver.getDevices()]; a device is known by its place in the list. *)
Abbreviation Host := (list Dev).

(** The manager: the place of its device and [options.timeout]. *)
Record Manager := mkManager { device : nat; timeout : Z }.

(** The constructor refuses a timeout that is not positive. *)
Definition AvailabilityManagerBase (dev : nat) (timeout_ms : Z)
  : res string Manager :=
  if timeout_ms <=? 0 then Throw "[Availability] timeout must be positive"%string
  else Ok (mkManager dev timeout_ms).

(** What the manager does to the outside. *)
Inductive aevent :=
| LogIdle (idleMin : Z)             (* 'Idle: ..min / ..min' *)
| LogTimeout (idleMin : Z)          (* 'Timeout - no activity for ..min' *)
| LogRestoring                      (* 'Restoring (source)' *)
| LogUnavailable (sibling : nat) (idleMin : Z)
| SetUnavailable (sibling : nat) (idleMin : Z)
| LogAvailable (sibling : nat)
| SetAvailable (sibling : nat).

(** A string in a condition: true unless absent or empty. *)
Definition truthy_string (s : option string) : bool :=
  match s with
  | Some s => negb (String.eqb s "")
  | None => false
  end.

(** A number in a condition: true unless absent or zero. *)
Definition truthy_number (n : option Z) : bool :=
  match n with
  | Some z => negb (z =? 0)
  | None => false
  end.

(** [a === b] for two properties that hold a string or nothing. *)
Definition strict_eq (a b : option string) : bool :=
  match a, b with
  | Some x, Some y => String.eqb x y
  | None, None => true
  | _, _ => false
  end.

(** [settings[settingKey] !== false] *)
Definition _isEnabled (m : Manager) (h : Host) : bool :=
  match h !! device m with
  | Some me =>
      match health_monitoring_enabled me with
      | Some false => false
      | _ => true
      end
  | None => true
  end.

(** [allDevices.filter(d => ...)], as the places of the devices kept. *)
Fixpoint filter_from (p : Dev -> bool) (h : list Dev) (i : nat) : list nat :=
  match h with
  | [] => []
  | d :: rest =>
      if p d then i :: filter_from p rest (S i) else filter_from p rest (S i)
  end.

(** [d.getData().key === mine], false when [getData] throws. *)
Definition same_key (key : DeviceData -> option string) (mine : option string)
    (d : Dev) : bool :=
  match getData d with
  | Some dd => strict_eq (key dd) mine
  | None => false
  end.

Definition _getSiblings (m : Manager) (h : Host) : list nat :=
  match h !! device m with
  | None => [device m]
  | Some me =>
      match getData me with
      | None => [device m]
      | Some myData =>
          let myIeee := ieeeAddress myData in
          let myToken := token myData in
          let byIeee :=
            if truthy_string myIeee
            then filter_from (same_key ieeeAddress myIeee) h 0 else [] in
          match byIeee with
          | _ :: _ => byIeee
          | [] =>
              let byToken :=
                if truthy_string myToken
                then filter_from (same_key token myToken) h 0 else [] in
              match byToken with
              | _ :: _ => byToken
              | [] => [device m]
              end
          end
      end
  end.

Definition set_available (v : bool) (d : Dev) : Dev :=
  mkDev (getData d) v (last_seen_ts d) (health_monitoring_enabled d).

Definition set_last_seen (ts : Z) (d : Dev) : Dev :=
  mkDev (getData d) (getAvailable d) (Some ts) (health_monitoring_enabled d).

(** The loop of [_markAllAvailable] over the siblings still to visit. *)
Fixpoint markAvailable_loop (siblings : list nat) (h : Host)
  : Host * list aevent :=
  match siblings with
  | [] => (h, [])
  | s :: rest =>
      match h !! s with
      | Some d =>
          if negb (getAvailable d) then
            let '(h', ev) :=
              markAvailable_loop rest (alter (set_available true) s h) in
            (h', LogAvailable s :: SetAvailable s :: ev)
          else markAvailable_loop rest h
      | None => markAvailable_loop rest h
      end
  end.

(** The loop of [_markAllUnavailable]. *)
Fixpoint markUnavailable_loop (idleMin : Z) (siblings : list nat) (h : Host)
  : Host * list aevent :=
  match siblings with
  | [] => (h, [])
  | s :: rest =>
      match h !! s with
      | Some d =>
          if getAvailable d then
            let '(h', ev) :=
              markUnavailable_loop idleMin rest
                (alter (set_available false) s h) in
            (h', LogUnavailable s idleMin :: SetUnavailable s idleMin :: ev)
          else markUnavailable_loop idleMin rest h
      | None => markUnavailable_loop idleMin rest h
      end
  end.

Definition _markAllAvailable (m : Manager) (h : Host) : Host * list aevent :=
  markAvailable_loop (_getSiblings m h) h.

(** The reason is `No activity for ${idleMin}min`. *)
Definition _markAllUnavailable (m : Manager) (idleMin : Z) (h : Host)
  : Host * list aevent :=
  markUnavailable_loop idleMin (_getSiblings m h) h.

(** [_markAlive(source)] at [Date.now() = now]. *)
Definition _markAlive (m : Manager) (now : Z) (h : Host) : Host * list aevent :=
  let h1 := alter (set_last_seen now) (device m) h in
  match h1 !! device m with
  | Some me =>
      if negb (getAvailable me) then
        let '(h2, ev) := _markAllAvailable m h1 in
        (h2, LogRestoring :: ev)
      else (h1, [])
  | None => (h1, [])
  end.

(** [Math.round(idle / 60000)] *)
Definition idle_minutes (idle : Z) : Z := (idle + 30000) / 60000.

(** One tick of the watchdog at [Date.now() = now]. *)
Definition watchdog_tick (m : Manager) (now : Z) (h : Host)
  : Host * list aevent :=
  if negb (_isEnabled m h) then (h, [])
  else
    match h !! device m with
    | None => (h, [])
    | Some me =>
        let lastSeen := last_seen_ts me in
        if negb (truthy_number lastSeen) then
          (alter (set_last_seen now) (device m) h, [])
        else
          let idle := now - default 0 lastSeen in
          let idleMin := idle_minutes idle in
          let ev_idle :=
            if (Z.rem idleMin 5 =? 0) && (0 <? idleMin)
            then [LogIdle idleMin] else [] in
          if getAvailable me && (timeout m <? idle) then
            let '(h', ev) := _markAllUnavailable m idleMin h in
            (h', ev_idle ++ LogTimeout idleMin :: ev)
          else (h, ev_idle)
    end.

(** ** What the statements below speak of *)

(** The availability of the device at place [i]. *)
Definition available_at (h : Host) (i : nat) : option bool :=
  getAvailable <$> h !! i.

(** The device at place [i] after a cascade that sets the availability of
    exactly the devices of [siblings] to [v]. *)
Definition cascaded (v : bool) (siblings : list nat) (h : Host) (i : nat)
  : option Dev :=
  (if decide (i ∈ siblings) then set_available v else id) <$> h !! i.

(** The condition under which a tick is to mark the node unavailable:
    monitoring is enabled, a last-seen timestamp is there, it is older
    than the timeout, and the node is available. *)
Definition times_out (m : Manager) (now : Z) (h : Host) : Prop :=
  _isEnabled m h = true
  /\ exists me ts,
       h !! device m = Some me
       /\ last_seen_ts me = Some ts
       /\ ts <> 0
       /\ timeout m < now - ts
       /\ getAvailable me = true.

(** An effect that tells of a transition to unavailable. *)
Definition tells_unavailable (e : aevent) : bool :=
  match e with
  | LogTimeout _ | LogUnavailable _ _ | SetUnavailable _ _ => true
  | _ => false
  end.

(** The device at place [i] has the same address, or token, as the device
    of the manager. *)
Definition shares (key : DeviceData -> option string) (m : Manager) (h : Host)
    (i : nat) : Prop :=
  exists me myData d dd a,
    h !! device m = Some me /\ getData me = Some myData
    /\ h !! i = Some d /\ getData d = Some dd
    /\ key myData = Some a /\ key dd = Some a /\ a <> ""%string.

(** What reaches the tracker: a tick of the watchdog or an activity mark,
    with the time at which it happens. *)
Inductive action :=
| Tick (t : Z)
| Activity (t : Z).

Definition action_time (a : action) : Z :=
  match a with Tick t | Activity t => t end.

Definition step (m : Manager) (a : action) (h : Host) : Host * list aevent :=
  match a with
  | Tick t => watchdog_tick m t h
  | Activity t => _markAlive m t h
  end.

Fixpoint run_actions (m : Manager) (acts : list action) (h : Host)
  : Host * list aevent :=
  match acts with
  | [] => (h, [])
  | a :: rest =>
      let '(h1, ev1) := step m a h in
      let '(h2, ev2) := run_actions m rest h1 in
      (h2, ev1 ++ ev2)
  end.

(** The device of the manager has a timestamp stored, not older than [t]. *)
Definition seen_since (m : Manager) (t : Z) (h : Host) : Prop :=
  exists me ts,
    h !! device m = Some me /\ last_seen_ts me = Some ts /\ t <= ts.

(** Three gangs of one switch: one address, no token. *)
Definition gang (avail : bool) : Dev :=
  mkDev (Some (mkData (Some "a4:c1:38:00:00:00:00:01"%string) None))
        avail None None.
Definition three_gangs : Host := [gang true; gang true; gang true].

(** A plug of the same driver, with another address. *)
Definition other_plug : Dev :=
  mkDev (Some (mkData (Some "a4:c1:38:00:00:00:00:02"%string) None))
        true None None.

(** A gang that has been unavailable since its last activity at 1000. *)
Definition silent_gang : Dev :=
  mkDev (Some (mkData (Some "a4:c1:38:00:00:00:00:01"%string) None))
        false (Some 1000) None.

(** The switch with its three gangs and the plug, watched from the first
    gang with a timeout of ten minutes. *)
Definition switch_and_plug : Host := three_gangs ++ [other_plug].
Definition ten_minutes : Manager := mkManager 0 600000.

End Availability.
(* ===================================================================== *)
(** * The decoders the drivers carry themselves                           *)
(* ===================================================================== *)

Module Decoders.
Import Js Codec.

(** ** The 4-gang switch: [_bufToUint32] and [_parseDataValue] *)

(** [value = (value << 8) + buf[i]] over the buffer, from 0: the shift is
    the 32-bit one, the sum is the sum of numbers. *)
Definition _bufToUint32 (buf : Buffer) : Z :=
  fold_left (fun value b => shl value 8 + byte_to_Z b) buf 0.

(** [_parseDataValue(dpValue)] on a frame of the cluster: [dt] is
    [dpValue.datatype] and [d] the buffer [dpValue.data]. *)
Definition _parseDataValue (dt : Z) (d : Buffer) : res decode_error value :=
  if dt =? 0 then Ok (VBuf d)
  else if dt =? 1 then Ok (VBool (first_byte_is_one d))
  else if dt =? 2 then Ok (VNum (_bufToUint32 d))
  else if dt =? 3 then Ok (VStr (fromCharCode d))
  else if dt =? 4 then Ok (first_byte d)
  else if dt =? 5 then Ok (VNum (_bufToUint32 d))
  else Throw (UnsupportedDatatype dt).

(** ** The siren and the clock sensor: their inline [getDataValue] *)

(** [data.reduce((acc, b) => (acc << 8) | b, 0)] *)
Definition reduce_shift_or (d : Buffer) : Z :=
  fold_left (fun acc b => bor (shl acc 8) (byte_to_Z b)) d 0.

(** The inline [getDataValue(dpValue)], on a frame of the cluster. *)
Definition inline_getDataValue (dt : Z) (d : Buffer) : res decode_error value :=
  if dt =? 0 then Ok (VBuf d)
  else if dt =? 1 then Ok (VBool (first_byte_is_one d))
  else if dt =? 2 then Ok (VNum (reduce_shift_or d))
  else if dt =? 3 then Ok (VStr (fromCharCode d))
  else if dt =? 4 then Ok (first_byte d)
  else if dt =? 5 then Ok (VNum (reduce_shift_or d))
  else Throw (UnsupportedDatatype dt).

(** The four octets of the 32-bit two's complement of [v], first the
    highest: what a device sends for a value that may be negative. *)
Definition twos_complement32 (v : Z) : Buffer := be32 (v mod 2 ^ 32).

End Decoders.
(* ===================================================================== *)
(** * Around the dispatcher: readiness, bulk commands, the siren          *)
(* ===================================================================== *)

Module DispatcherMore.
Import Js Dispatcher.

(** ** What a bulk command puts on the air *)

(** The datatype and the buffer the write method chosen by [cmd.type]
    sends, or the error it throws before sending. *)
Definition encode_cmd (js_String : value -> jsstring) (cmd : Cmd)
  : res error (Z * Buffer) :=
  let lift (dt : Z) (b : res Codec.encode_error Buffer) :=
    match b with
    | Ok buf => Ok (dt, buf)
    | Throw e => Throw (EInvalid e)
    end in
  if String.eqb (cmd_type cmd) "bool" then
    lift 1 (Codec.writeBool_buffer (cmd_value cmd))
  else if String.eqb (cmd_type cmd) "enum" then
    lift 4 (Codec.writeEnum_buffer (cmd_value cmd))
  else if String.eqb (cmd_type cmd) "data32" then
    lift 2 (Codec.writeData32_buffer (cmd_value cmd))
  else if String.eqb (cmd_type cmd) "string" then
    Ok (3, Codec.latin1 (js_String (cmd_value cmd)))
  else if String.eqb (cmd_type cmd) "raw" then
    lift 0 (Codec.writeRaw_buffer (cmd_value cmd))
  else Throw (EUnknownType (cmd_type cmd)).

(** The frame of the [j]-th transmission after transaction id [tid]. *)
Definition frame_at (tid : Z) (dp datatype : Z) (data : Buffer) (j : nat)
  : Frame :=
  mkFrame 0 ((tid + Z.of_nat j) mod 256) dp datatype
          (Z.of_nat (List.length data)) data.

(** The transaction ids of [n] transmissions after the counter [tid]. *)
Definition ids_from (tid : Z) (n : nat) : list Z :=
  map (fun j => (tid + Z.of_nat j) mod 256) (seq 0 n).

(** The device after [n] attempts that each made a transmission. *)
Definition after_transmissions (st : Device) (n : nat) : Device :=
  mkDevice (tuyaEndpoint st) (_transactionID st + Z.of_nat n)
           (getAvailable st) (attempts_made st + n).

(** The frames of a batch each of whose commands is delivered at its
    first attempt, from the counter [tid]. *)
Fixpoint first_try_frames (js_String : value -> jsstring) (tid : Z)
    (cmds : list Cmd) : list Frame :=
  match cmds with
  | [] => []
  | c :: rest =>
      match encode_cmd js_String c with
      | Ok (dt, buf) => [frame_at tid (cmd_dp c) dt buf 0]
      | Throw _ => []
      end ++ first_try_frames js_String (tid + 1) rest
  end.

Definition encodes (js_String : value -> jsstring) (c : Cmd) : bool :=
  match encode_cmd js_String c with Ok _ => true | Throw _ => false end.

(** The time spent in a list of waits. *)
Definition total (waits : list Z) : Z := fold_right Z.add 0 waits.

(** ** [waitForDeviceReady] *)

(** What the loop sees: whether the cluster is there at its [k]-th test,
    and [Date.now() - start] at its [k]-th look at the clock. *)
Record ReadyEnv := mkReadyEnv {
  isDeviceReady : nat -> bool;
  elapsed : nat -> Z
}.

Inductive ready_result :=
| Ready
| NotReadyAfter (maxMs : Z).        (* `[TuyaDevice] Not ready after ${maxMs}ms` *)

(** The [while] loop, at its [k]-th pass with the delay [delayMs]; the
    timeouts awaited are returned in order.  [None]: more than [fuel]
    passes. *)
Fixpoint wait_loop (env : ReadyEnv) (maxMs : Z) (fuel k : nat) (delayMs : Z)
  : option (ready_result * list Z) :=
  match fuel with
  | O => None
  | S fuel' =>
      if isDeviceReady env k then Some (Ready, [])
      else if maxMs <? elapsed env k then Some (NotReadyAfter maxMs, [])
      else
        match wait_loop env maxMs fuel' (S k) (Z.min (delayMs * 2) 1000) with
        | Some (r, waits) => Some (r, delayMs :: waits)
        | None => None
        end
  end.

Definition waitForDeviceReady (env : ReadyEnv) (maxMs : Z) (fuel : nat)
  : option (ready_result * list Z) :=
  wait_loop env maxMs fuel 0 250.

(** The loop leaves at its [k]-th pass: the cluster is there, or the
    time is up. *)
Definition stops (env : ReadyEnv) (maxMs : Z) (k : nat) : bool :=
  isDeviceReady env k || (maxMs <? elapsed env k).

(** The [j]-th delay of the loop: 250, 500, 1000, 1000, ... *)
Definition ready_delay (j : nat) : Z := Z.min (250 * 2 ^ Z.of_nat j) 1000.

(** ** The siren: [_playSiren] *)

(** The datapoints of the siren. *)
Definition DP_VOLUME : Z := 5.
Definition DP_DURATION : Z := 7.
Definition DP_ALARM : Z := 13.
Definition DP_MELODY : Z := 21.

(** [RETRY_CONFIG.CRITICAL] *)
Definition CRITICAL_retries : nat := 5.
Definition CRITICAL_delay : Z := 300.

Definition siren_settings (melody volume duration : value) : list Cmd :=
  [ mkCmd "enum" DP_MELODY melody;
    mkCmd "enum" DP_VOLUME volume;
    mkCmd "data32" DP_DURATION duration ].

(** The bulk send of the three settings, then the write of the alarm. *)
Definition _playSiren (world : nat -> answer) (js_String : value -> jsstring)
    (melody volume duration : value) (st : Device) : run unit :=
  let '(_, st1, ev1) :=
    sendBulkCommands world js_String
      (siren_settings melody volume duration) 200 st in
  let '(r, st2, ev2) :=
    writeBool world DP_ALARM (VBool true) CRITICAL_retries CRITICAL_delay st1 in
  (r, st2, ev1 ++ ev2).

(** A batch whose first two commands are malformed. *)
Definition malformed_batch : list Cmd :=
  [ mkCmd "bool" 1 (VNum 1);
    mkCmd "percent" 2 (VNum 50);
    mkCmd "bool" 3 (VBool true) ].

(** An outside that answers every transmission. *)
Definition always_resolves (n : nat) : answer := Resolves.

(** A readiness that comes at the third test, on a clock that advances by
    the delays. *)
Definition ready_at_third : ReadyEnv :=
  mkReadyEnv (fun k => (2 <=? k)%nat) (fun k => 250 * Z.of_nat k).

End DispatcherMore.
(* ===================================================================== *)
(** * Readings of what a retried command does                             *)
(* ===================================================================== *)

Module CancellationMore.
Import Js Cancellation.

Definition is_transmit (e : cevent) : bool :=
  match e with Transmit => true | _ => false end.

(** A wait, run to its end or cut short. *)
Definition is_sleep (e : cevent) : bool :=
  match e with Transmit => false | _ => true end.

Definition transmits (ev : list cevent) : nat :=
  List.length (List.filter is_transmit ev).

Definition sleeps (ev : list cevent) : nat :=
  List.length (List.filter is_sleep ev).

(** An outside that rejects the first transmission with the message
    'aborted' though nothing aborts the signal. *)
Definition says_aborted : Outside :=
  mkOutside (fun _ => Some "aborted"%string) (fun _ => false)
            (fun _ => false).

(** An outside that rejects [n] transmissions and resolves the next. *)
Definition rejects_first (n : nat) : Outside :=
  mkOutside (fun j => if (j <? n)%nat then Some "timeout"%string else None)
            (fun _ => false) (fun _ => false).

End CancellationMore.
(* ===================================================================== *)
(** * The 4-gang switch: reports and the power-on setting                 *)
(* ===================================================================== *)

Module Gangs.
Import Js Codec Decoders.

(** [DP] *)
Definition DP_GANG1 : Z := 1.
Definition DP_GANG2 : Z := 2.
Definition DP_GANG3 : Z := 3.
Definition DP_GANG4 : Z := 4.
Definition DP_POWER_ON : Z := 14.

(** What [map[subDeviceId] || DP.GANG1] evaluates to: a datapoint, or,
    when the id names a property every object inherits, that property. *)
Inductive my_dp :=
| Number (dp : Z)
| Inherited (name : string).

(** The names an object literal inherits from [Object.prototype]. *)
Definition inherited (s : string) : bool :=
  existsb (String.eqb s)
    [ "constructor"; "toString"; "toLocaleString"; "valueOf";
      "hasOwnProperty"; "isPrototypeOf"; "propertyIsEnumerable";
      "__proto__"; "__defineGetter__"; "__defineSetter__";
      "__lookupGetter__"; "__lookupSetter__" ]%string.

(** [_getMyDp(subDeviceId)] *)
Definition _getMyDp (subDeviceId : option string) : my_dp :=
  match subDeviceId with
  | None => Number DP_GANG1
  | Some s =>
      if String.eqb s "secondGang" then Number DP_GANG2
      else if String.eqb s "thirdGang" then Number DP_GANG3
      else if String.eqb s "fourthGang" then Number DP_GANG4
      else if inherited s then Inherited s
      else Number DP_GANG1
  end.

(** A device of the driver: [getData().ieeeAddress] ([None]: [getData]
    throws; [Some None]: no address), [getData().subDeviceId] as read
    when the device was set up, and the value of its capability [onoff]
    ([None]: none yet). *)
Record GangDev := mkGangDev {
  ieeeAddress : option (option string);
  subDeviceId : option string;
  onoff : option bool
}.

(** [this._isMain = !subDeviceId] *)
Definition _isMain (g : GangDev) : bool :=
  match subDeviceId g with
  | Some s => String.eqb s ""
  | None => true
  end.

(** [_isMyDp(dp)] *)
Definition _isMyDp (g : GangDev) (dp : Z) : bool :=
  if _isMain g then (dp =? DP_GANG1) || (dp =? DP_POWER_ON)
  else match _getMyDp (subDeviceId g) with
       | Number n => dp =? n
       | Inherited _ => false
       end.

(** The frame a listener of the cluster is handed. *)
Record Report := mkReport { dp : Z; datatype : Z; data : Buffer }.

(** The filter of [_getNodeDevices]: [d.getData().ieeeAddress === myIeee],
    false when [getData] throws. *)
Definition same_node (myIeee : option string) (d : GangDev) : bool :=
  match ieeeAddress d, myIeee with
  | Some (Some a), Some b => String.eqb a b
  | Some None, None => true
  | _, _ => false
  end.

(** [list.find(p)], as the index of what it finds, counted from [i]. *)
Fixpoint find_from (p : GangDev -> bool) (l : list GangDev) (i : nat)
  : option nat :=
  match l with
  | [] => None
  | d :: rest => if p d then Some i else find_from p rest (S i)
  end.

(** What a report leads to. *)
Inductive outcome :=
| HandlerThrows                     (* [this.getData()] threw *)
| Dropped                           (* no gang of the node takes the dp *)
| ParseFailed (i : nat) (e : decode_error)
| Ignored (i : nat)
| Unchanged (i : nat)               (* anti-flicker *)
| SetOnOff (i : nat) (v : value)    (* [setCapabilityValue('onoff', v)] *)
| PowerOn (i : nat) (v : value).    (* [_handlePowerOn(v)] *)

(** [currentValue === value] *)
Definition same_value (current : option bool) (v : value) : bool :=
  match current, v with
  | Some b, VBool b' => Bool.eqb b b'
  | _, _ => false
  end.

(** [_handleOnOff(dp, value)] on the gang of index [i] *)
Definition _handleOnOff (g : GangDev) (i : nat) (v : value) : outcome :=
  if same_value (onoff g) v then Unchanged i else SetOnOff i v.

(** [_processDatapoint(data)] on the gang of index [i] *)
Definition _processDatapoint (g : GangDev) (i : nat) (r : Report) : outcome :=
  match _parseDataValue (datatype r) (data r) with
  | Throw e => ParseFailed i e
  | Ok v =>
      if negb (_isMyDp g (dp r)) then Ignored i
      else if (dp r =? DP_GANG1) || (dp r =? DP_GANG2)
              || (dp r =? DP_GANG3) || (dp r =? DP_GANG4)
      then _handleOnOff g i v
      else if dp r =? DP_POWER_ON then PowerOn i v
      else Ignored i
  end.

(** [handleTuya(data)], installed by the main gang [me], over the devices
    of the driver. *)
Definition handleTuya (devs : list GangDev) (me : GangDev) (r : Report)
  : outcome :=
  match ieeeAddress me with
  | None => HandlerThrows
  | Some myIeee =>
      match find_from (fun g => same_node myIeee g && _isMyDp g (dp r))
                      devs 0 with
      | None => Dropped
      | Some i =>
          match devs !! i with
          | Some g => _processDatapoint g i r
          | None => Dropped
          end
      end
  end.

(** The gang an outcome concerns. *)
Definition target (o : outcome) : option nat :=
  match o with
  | HandlerThrows | Dropped => None
  | ParseFailed i _ | Ignored i | Unchanged i | SetOnOff i _ | PowerOn i _ =>
      Some i
  end.

(** The devices once [setCapabilityValue] has stored a boolean. *)
Definition stored (devs : list GangDev) (o : outcome) : list GangDev :=
  match o with
  | SetOnOff i (VBool b) =>
      alter (fun g => mkGangDev (ieeeAddress g) (subDeviceId g) (Some b))
            i devs
  | _ => devs
  end.

(** ** The power-on behaviour *)

(** [POWER_ON_MODE[value]] for a number. *)
Definition POWER_ON_MODE (value : Z) : option string :=
  if value =? 0 then Some "off"%string
  else if value =? 1 then Some "on"%string
  else if value =? 2 then Some "memory"%string
  else None.

(** [POWER_ON_LABELS[mode]] for the modes of the table above. *)
Definition POWER_ON_LABELS (mode : string) : option string :=
  if String.eqb mode "off" then Some "Always Off"%string
  else if String.eqb mode "on" then Some "Always On"%string
  else if String.eqb mode "memory" then Some "Remember Last State"%string
  else None.

(** What [_handlePowerOn] does. *)
Inductive power_on_result :=
| NotMain
| InvalidPowerOn                    (* 'Invalid power-on value' *)
| SyncSetting (mode : string) (label : option string)
| LabelOnly (label : option string).

(** [_handlePowerOn(value)] for a number, as an enum report gives it;
    [currentSetting] is [getSetting('power_on_behavior')]. *)
Definition _handlePowerOn (g : GangDev) (currentSetting : option string)
    (value : Z) : power_on_result :=
  if negb (_isMain g) then NotMain
  else match POWER_ON_MODE value with
       | None => InvalidPowerOn
       | Some mode =>
           match currentSetting with
           | Some c =>
               if String.eqb c mode then LabelOnly (POWER_ON_LABELS mode)
               else SyncSetting mode (POWER_ON_LABELS mode)
           | None => SyncSetting mode (POWER_ON_LABELS mode)
           end
       end.

(** [Object.entries(POWER_ON_MODE).find(([, v]) => v === newMode)?.[0]],
    as a number. *)
Definition enum_of_mode (newMode : string) : option Z :=
  if String.eqb newMode "off" then Some 0
  else if String.eqb newMode "on" then Some 1
  else if String.eqb newMode "memory" then Some 2
  else None.

(** [RETRY_CONFIG.SETTINGS] *)
Definition SETTINGS_retries : nat := 3.
Definition SETTINGS_delay : Z := 400.

Inductive setting_error :=
| InvalidPowerOnBehavior (mode : string)
| WriteFailed (e : Dispatcher.error).

(** [_handlePowerOnBehaviorSetting(newMode)] *)
Definition _handlePowerOnBehaviorSetting (world : nat -> Dispatcher.answer)
    (newMode : string) (st : Dispatcher.Device)
  : res setting_error unit * Dispatcher.Device * list Dispatcher.event :=
  match enum_of_mode newMode with
  | None => (Throw (InvalidPowerOnBehavior newMode), st, [])
  | Some enumValue =>
      match Dispatcher.writeEnum world DP_POWER_ON (VNum enumValue)
                                 SETTINGS_retries SETTINGS_delay st with
      | (Ok _, st', ev) => (Ok tt, st', ev)
      | (Throw e, st', ev) => (Throw (WriteFailed e), st', ev)
      end
  end.

(** The four gangs of one switch and the main gang of another. *)
Definition four_gangs : list GangDev :=
  [ mkGangDev (Some (Some "a1"%string)) None (Some false);
    mkGangDev (Some (Some "b2"%string)) None (Some false);
    mkGangDev (Some (Some "a1"%string)) (Some "secondGang"%string) (Some false);
    mkGangDev (Some (Some "a1"%string)) (Some "thirdGang"%string) (Some true);
    mkGangDev (Some (Some "a1"%string)) (Some "fourthGang"%string) None ].

End Gangs.
(* ===================================================================== *)
(** * Around the availability manager: cascades and the life cycle        *)
(* ===================================================================== *)

Module AvailabilityMore.
Import Js Availability.

(** What a cascade to [v] logs and sets for the sibling at place [s]. *)
Definition cascade_events (v : bool) (idleMin : Z) (h : Host) (s : nat)
  : list aevent :=
  match h !! s with
  | Some d =>
      if Bool.eqb (getAvailable d) v then []
      else if v then [LogAvailable s; SetAvailable s]
      else [LogUnavailable s idleMin; SetUnavailable s idleMin]
  | None => []
  end.

Definition is_tick (a : action) : bool :=
  match a with Tick _ => true | Activity _ => false end.

(** A main device with an address and a token, and a sub-device that
    carries the token only. *)
Definition mixed_pair : Host :=
  [ mkDev (Some (mkData (Some "a4:c1:38:00:00:00:00:01"%string)
                        (Some "tok-1"%string))) true None None;
    mkDev (Some (mkData None (Some "tok-1"%string))) true None None ].

(** Three gangs whose monitoring is switched off on the first. *)
Definition unmonitored : Host :=
  [ mkDev (Some (mkData (Some "a4:c1:38:00:00:00:00:01"%string) None))
          true (Some 1000) (Some false);
    gang true; gang true ].

(** ** The life cycle: [install] and [uninstall] *)

(** The two managers. *)
Inductive strategy :=
| Cluster0                          (* hooks [node.handleFrame] *)
| Cluster6.                         (* injects [_markAliveFromAvailability] *)

(** The fields of the manager, and what it has left on the node and on
    the device: the number of wrappers around [node.handleFrame], and
    whether the device has [_markAliveFromAvailability]. *)
Record Life := mkLife {
  _installed : bool;
  _watchdogInterval : bool;
  hooks : nat;
  helper : bool
}.

Definition fresh : Life := mkLife false false 0 false.

Inductive levent :=
| ErrAlreadyInstalled               (* 'Already installed' *)
| LogDisabled                       (* 'Disabled by setting' *)
| LogHookInstalled                  (* 'handleFrame hook installed' *)
| ErrWatchdogRunning                (* 'Watchdog already running' *)
| LogWatchdogStarted
| LogEnabled                        (* 'Passive monitoring enabled' / 'Monitoring enabled' *)
| ErrInstallFailed                  (* 'Installation failed' *)
| LogWatchdogStopped
| LogUninstalled.

(** [_startWatchdog()] *)
Definition _startWatchdog (s : Life) : Life * list levent :=
  if _watchdogInterval s then (s, [ErrWatchdogRunning])
  else (mkLife (_installed s) true (hooks s) (helper s), [LogWatchdogStarted]).

(** [_stopWatchdog()] *)
Definition _stopWatchdog (s : Life) : Life * list levent :=
  if _watchdogInterval s
  then (mkLife (_installed s) false (hooks s) (helper s), [LogWatchdogStopped])
  else (s, []).

(** [install()]; [enabled] is what [_isEnabled()] returns, [node] whether
    [homey.zigbee.getNode] gives a node. *)
Definition install (k : strategy) (enabled node : bool) (s : Life)
  : res unit unit * Life * list levent :=
  if _installed s then (Ok tt, s, [ErrAlreadyInstalled])
  else if negb enabled then (Ok tt, s, [LogDisabled])
  else
    match k with
    | Cluster0 =>
        if negb node then (Throw tt, s, [ErrInstallFailed])
        else
          let s1 := mkLife (_installed s) (_watchdogInterval s)
                           (S (hooks s)) (helper s) in
          let '(s2, ev) := _startWatchdog s1 in
          (Ok tt,
           mkLife true (_watchdogInterval s2) (hooks s2) (helper s2),
           LogHookInstalled :: ev ++ [LogEnabled])
    | Cluster6 =>
        let s1 := mkLife (_installed s) (_watchdogInterval s)
                         (hooks s) true in
        let '(s2, ev) := _startWatchdog s1 in
        (Ok tt,
         mkLife true (_watchdogInterval s2) (hooks s2) (helper s2),
         ev ++ [LogEnabled])
    end.

(** [_cleanup()] *)
Definition _cleanup (k : strategy) (s : Life) : Life :=
  match k with
  | Cluster0 => s
  | Cluster6 => mkLife (_installed s) (_watchdogInterval s) (hooks s) false
  end.

(** [uninstall()] *)
Definition uninstall (k : strategy) (s : Life) : Life * list levent :=
  if negb (_installed s) then (s, [])
  else
    let '(s1, ev) := _stopWatchdog s in
    let s2 := _cleanup k s1 in
    (mkLife false (_watchdogInterval s2) (hooks s2) (helper s2),
     ev ++ [LogUninstalled]).

(** What happens to a manager and the devices it watches: a call of
    [install] ([node]: [getNode] gives a node) or of [uninstall], a
    change of the setting by the user, a frame that arrives at the node,
    a report the device handles itself, a period of the watchdog's
    interval. *)
Inductive op :=
| Install (node : bool)
| Uninstall
| Setting (enabled : bool)
| Frame (now : Z)
| Report (now : Z)
| Period (now : Z).

(** What is observed: of the manager, or of the devices. *)
Inductive observed :=
| OfManager (e : levent)
| OfDevices (e : aevent).

Definition set_setting (v : bool) (d : Dev) : Dev :=
  mkDev (getData d) (getAvailable d) (last_seen_ts d) (Some v).

(** [_markAlive] called [n] times in a row at the time [now]. *)
Fixpoint markAlive_times (m : Manager) (now : Z) (n : nat) (h : Host)
  : Host * list aevent :=
  match n with
  | O => (h, [])
  | S n' =>
      let '(h1, ev1) := _markAlive m now h in
      let '(h2, ev2) := markAlive_times m now n' h1 in
      (h2, ev1 ++ ev2)
  end.

(** One operation: every wrapper around [handleFrame] marks the device
    alive before it calls the handler it wraps; a report marks it alive
    through the helper when the device has it; the interval runs the tick
    while it is set. *)
Definition life_step (k : strategy) (m : Manager) (o : op)
    (st : Life * Host) : Life * Host * list observed :=
  let '(s, h) := st in
  match o with
  | Install node =>
      let '(_, s', ev) := install k (_isEnabled m h) node s in
      (s', h, map OfManager ev)
  | Uninstall =>
      let '(s', ev) := uninstall k s in (s', h, map OfManager ev)
  | Setting v => (s, alter (set_setting v) (device m) h, [])
  | Frame now =>
      let '(h', ev) := markAlive_times m now (hooks s) h in
      (s, h', map OfDevices ev)
  | Report now =>
      if helper s
      then let '(h', ev) := _markAlive m now h in (s, h', map OfDevices ev)
      else (s, h, [])
  | Period now =>
      if _watchdogInterval s
      then let '(h', ev) := watchdog_tick m now h in (s, h', map OfDevices ev)
      else (s, h, [])
  end.

Fixpoint life_run (k : strategy) (m : Manager) (ops : list op)
    (st : Life * Host) : Life * Host * list observed :=
  match ops with
  | [] => (st, [])
  | o :: rest =>
      let '(st1, ev1) := life_step k m o st in
      let '(st2, ev2) := life_run k m rest st1 in
      (st2, ev1 ++ ev2)
  end.

(** The states of the manager that [install] and [uninstall] keep to. *)
Definition consistent (k : strategy) (s : Life) : bool :=
  Bool.eqb (_installed s) (_watchdogInterval s)
  && match k with
     | Cluster0 => negb (helper s)
                   && (negb (_installed s) || (1 <=? hooks s)%nat)
     | Cluster6 => Bool.eqb (helper s) (_installed s) && (hooks s =? 0)%nat
     end.

(** An observation that a device was made unavailable. *)
Definition made_unavailable (e : observed) : bool :=
  match e with
  | OfDevices e => tells_unavailable e
  | OfManager _ => false
  end.

Definition is_install (o : op) : bool :=
  match o with Install _ => true | _ => false end.

End AvailabilityMore.
(* ===================================================================== *)
(** * The temperature and humidity clock                                  *)
(* ===================================================================== *)

Module Clock.
Import Js Codec Decoders.

(** ** [_requestDatapoints]: the throttled query *)

Definition QUERY_THROTTLE : Z := 60 * 1000.

(** What [dataQuery] does: the cluster is not there, or the query is
    rejected, or it resolves. *)
Inductive query_answer :=
| QNoCluster
| QRejects (msg : string)
| QResolves.

Inductive qevent :=
| DataQuery                         (* [tuya.dataQuery({})] *)
| LogRequested                      (* '[Query] Datapoints requested' *)
| LogQueryFailed.                   (* '[Query] Failed: ...' *)

(** [_requestDatapoints()] at [Date.now() = now], with [_lastQueryTime]
    before and after. *)
Definition _requestDatapoints (answer : query_answer) (now : Z)
    (_lastQueryTime : Z) : Z * list qevent :=
  if now - _lastQueryTime <? QUERY_THROTTLE then (_lastQueryTime, [])
  else
    (now,
     match answer with
     | QNoCluster => [LogQueryFailed]
     | QRejects _ => [DataQuery; LogQueryFailed]
     | QResolves => [DataQuery; LogRequested]
     end).

(** Calls one after the other, each with its time and the answer it would
    get; what each call did is returned with its time. *)
Fixpoint requests (calls : list (Z * query_answer)) (_lastQueryTime : Z)
  : Z * list (Z * list qevent) :=
  match calls with
  | [] => (_lastQueryTime, [])
  | (now, answer) :: rest =>
      let '(last1, ev) := _requestDatapoints answer now _lastQueryTime in
      let '(last2, trace) := requests rest last1 in
      (last2, (now, ev) :: trace)
  end.

(** The times of the calls that got past the throttle. *)
Definition passed (trace : list (Z * list qevent)) : list Z :=
  flat_map (fun c => match snd c with [] => [] | _ :: _ => [fst c] end) trace.

(** Each time is at least the throttle after the one before, from [prev]. *)
Fixpoint spaced (prev : Z) (times : list Z) : Prop :=
  match times with
  | [] => True
  | t :: rest => QUERY_THROTTLE <= t - prev /\ spaced t rest
  end.

(** ** [_processDatapoint] *)

(** [DP] *)
Definition DP_temperature : Z := 1.
Definition DP_humidity : Z := 2.
Definition DP_battery : Z := 3.
Definition DP_tempUnit : Z := 9.

(** The frame of the cluster; [dp] is a number. *)
Record Report := mkReport { dp : Z; datatype : Z; data : Buffer }.

(** What a report leads to. *)
Inductive outcome :=
| Dropped                           (* [!frame?.dp] *)
| ParseError (e : decode_error)
| Temperature (raw : value)         (* [_handleTemperature(raw)]: raw / 10 *)
| Humidity (raw : value)            (* [_handleHumidity(raw)] *)
| Battery (enumValue : value)       (* [_handleBattery(enumValue)] *)
| UnitLogged (v : value)
| UnknownDp (dp : Z) (v : value).

Definition _processDatapoint (frame : Report) : outcome :=
  if dp frame =? 0 then Dropped
  else
    match inline_getDataValue (datatype frame) (data frame) with
    | Throw e => ParseError e
    | Ok v =>
        if dp frame =? DP_temperature then Temperature v
        else if dp frame =? DP_humidity then Humidity v
        else if dp frame =? DP_battery then Battery v
        else if dp frame =? DP_tempUnit then UnitLogged v
        else UnknownDp (dp frame) v
    end.

(** [BATTERY_PCT[enumValue]] for a number. *)
Definition BATTERY_PCT (enumValue : Z) : option Z :=
  if enumValue =? 0 then Some 33
  else if enumValue =? 1 then Some 66
  else if enumValue =? 2 then Some 100
  else None.

Inductive battery_result :=
| UnknownEnum                       (* '[Battery] Unknown enum value' *)
| SetBattery (measure_battery : Z) (alarm_battery : bool).

(** [_handleBattery(enumValue)] for a number, as an enum report gives. *)
Definition _handleBattery (enumValue : Z) : battery_result :=
  match BATTERY_PCT enumValue with
  | None => UnknownEnum
  | Some pct => SetBattery pct (pct <? 50)
  end.

(** Heartbeats every twenty seconds, the second dropped by the throttle,
    the query of the fourth rejected. *)
Definition heartbeats : list (Z * query_answer) :=
  [ (1700000000000, QResolves); (1700000020000, QResolves);
    (1700000040000, QResolves); (1700000060000, QRejects "timeout"%string);
    (1700000080000, QResolves); (1700000120000, QResolves) ].

End Clock.
(* ===================================================================== *)
(** * Arithmetic of buffers and of the 32-bit operators                  *)
(* ===================================================================== *)

Module JsFacts.
Import Js.

Lemma byte_to_Z_range (b : byte) : 0 <= byte_to_Z b < 256.
Proof.
  unfold byte_to_Z. pose proof (Byte.to_N_bounded b). lia.
Qed.

Lemma byte_to_of_Z (z : Z) : byte_to_Z (byte_of_Z z) = z mod 256.
Proof.
  unfold byte_to_Z, byte_of_Z.
  assert (Hr : 0 <= z mod 256 < 256) by (apply Z.mod_pos_bound; lia).
  destruct (Byte.of_N (Z.to_N (z mod 256))) as [b|] eqn:E.
  - apply Byte.to_of_N in E. rewrite E. lia.
  - pose proof (Byte.to_of_N_option_map (Z.to_N (z mod 256))) as H.
    rewrite E in H. simpl in H.
    destruct (N.leb_spec (Z.to_N (z mod 256)) 255); [discriminate | lia].
Qed.

Lemma byte_of_to_Z (b : byte) : byte_of_Z (byte_to_Z b) = b.
Proof.
  unfold byte_of_Z. pose proof (byte_to_Z_range b) as Hr.
  rewrite Z.mod_small by lia. unfold byte_to_Z.
  rewrite N2Z.id, Byte.of_to_N. reflexivity.
Qed.

Lemma to_int32_range (z : Z) : - 2 ^ 31 <= to_int32 z < 2 ^ 31.
Proof.
  unfold to_int32.
  assert (0 <= (z + 2 ^ 31) mod 2 ^ 32 < 2 ^ 32) by (apply Z.mod_pos_bound; lia).
  lia.
Qed.

Lemma to_int32_small (z : Z) : - 2 ^ 31 <= z < 2 ^ 31 -> to_int32 z = z.
Proof.
  intros H. unfold to_int32. rewrite Z.mod_small by lia. lia.
Qed.

Lemma to_int32_cong (a b k : Z) : a = b + k * 2 ^ 32 -> to_int32 a = to_int32 b.
Proof.
  intros ->. unfold to_int32.
  replace (b + k * 2 ^ 32 + 2 ^ 31) with (b + 2 ^ 31 + k * 2 ^ 32) by lia.
  rewrite Z.mod_add by lia. reflexivity.
Qed.

Lemma to_int32_decomp (z : Z) : exists k, to_int32 z = z + k * 2 ^ 32.
Proof.
  unfold to_int32. exists (- ((z + 2 ^ 31) / 2 ^ 32)).
  pose proof (Z.div_mod (z + 2 ^ 31) (2 ^ 32)). lia.
Qed.

(** No carries: a multiple of 256 and an octet do not overlap. *)
Lemma lor_octet (k b : Z) : 0 <= b < 256 -> Z.lor (k * 256) b = k * 256 + b.
Proof.
  intros Hb.
  assert (Hland : Z.land (k * 256) b = 0).
  { apply Z.bits_inj'. intros n Hn.
    rewrite Z.land_spec, Z.bits_0.
    destruct (Z.ltb_spec n 8).
    - change 256 with (2 ^ 8). rewrite Z.mul_pow2_bits_low by lia. reflexivity.
    - destruct (Z.eqb_spec b 0) as [->|Hnz].
      + rewrite Z.bits_0. apply andb_false_r.
      + rewrite (Z.bits_above_log2 b n); [apply andb_false_r | lia |].
        assert (Z.log2 b < 8) by (apply Z.log2_lt_pow2; lia). lia. }
  rewrite <- Z.lxor_lor by exact Hland.
  symmetry. apply Z.add_nocarry_lxor. exact Hland.
Qed.

End JsFacts.

(* ===================================================================== *)
(** * Properties of the codec                                             *)
(* ===================================================================== *)

Module CodecFacts.
Import Js JsFacts Codec.

(** One step of the accumulation, on the arithmetic side. *)
Lemma acc_step (a : Z) (b : byte) :
  bor (shl (to_int32 a) 8) (byte_to_Z b) = to_int32 (a * 256 + byte_to_Z b).
Proof.
  pose proof (byte_to_Z_range b) as Hb.
  unfold bor, shl.
  change (8 mod 32) with 8. rewrite Z.shiftl_mul_pow2 by lia.
  change (2 ^ 8) with 256.
  rewrite (to_int32_small (to_int32 a)) by apply to_int32_range.
  rewrite (to_int32_small (to_int32 _)) by apply to_int32_range.
  rewrite (to_int32_small (byte_to_Z b)) by lia.
  destruct (to_int32_decomp a) as [k Hk].
  destruct (to_int32_decomp (to_int32 a * 256)) as [j Hj].
  pose proof (to_int32_range (to_int32 a * 256)) as Hr.
  (* the shifted accumulator is a multiple of 256 *)
  assert (Hm : to_int32 (to_int32 a * 256) = (to_int32 a + j * 2 ^ 24) * 256).
  { rewrite Hj. change (2 ^ 32) with (2 ^ 24 * 256). ring. }
  rewrite Hm, lor_octet by lia.
  rewrite <- Hm.
  assert (Hs : - 2 ^ 31 <= to_int32 (to_int32 a * 256) + byte_to_Z b < 2 ^ 31).
  { rewrite Hm in *. lia. }
  rewrite <- (to_int32_small _ Hs).
  apply (to_int32_cong _ _ (j + k * 256)).
  rewrite Hj, Hk. change (2 ^ 32) with 4294967296. ring.
Qed.

Lemma acc_fold (d : Buffer) (a : Z) :
  fold_left (fun acc b => bor (shl acc 8) (byte_to_Z b)) d (to_int32 a)
  = to_int32 (fold_left (fun acc b => acc * 256 + byte_to_Z b) d a).
Proof.
  revert a. induction d as [|b d IH]; intros a; simpl.
  - reflexivity.
  - rewrite acc_step. apply IH.
Qed.

(** The accumulation is the signed 32-bit reading of the big-endian
    number. *)
Lemma convert_big_endian (d : Buffer) :
  convertMultiByteNumberPayloadToSingleDecimalNumber d = to_int32 (big_endian d).
Proof.
  unfold convertMultiByteNumberPayloadToSingleDecimalNumber, big_endian.
  destruct d as [|b d]; [reflexivity|].
  change 0 with (to_int32 0) at 1. apply acc_fold.
Qed.

Lemma convert_fold (d : Buffer) :
  convertMultiByteNumberPayloadToSingleDecimalNumber d
  = fold_left (fun acc b => bor (shl acc 8) (byte_to_Z b)) d 0.
Proof. destruct d; reflexivity. Qed.

(** The four octets [writeUInt32BE] stores denote the value written. *)
Lemma big_endian_be32 (v : Z) : 0 <= v < 2 ^ 32 -> big_endian (be32 v) = v.
Proof.
  intros Hv. unfold big_endian, be32. simpl.
  rewrite !byte_to_of_Z.
  change 255 with (Z.ones 8). rewrite !Z.land_ones by lia.
  rewrite !Z.shiftr_div_pow2 by lia.
  rewrite !Z.mod_mod by lia.
  change (2 ^ 8) with 256. change (2 ^ 16) with (256 * 256).
  change (2 ^ 24) with (256 * 256 * 256).
  rewrite <- !Z.div_div by lia.
  pose proof (Z.div_mod v 256).
  pose proof (Z.div_mod (v / 256) 256).
  pose proof (Z.div_mod (v / 256 / 256) 256).
  assert (0 <= v / 256 / 256 / 256 < 256).
  { split.
    - repeat apply Z.div_pos; lia.
    - repeat (apply Z.div_lt_upper_bound; [lia|]). lia. }
  rewrite (Z.mod_small (v / 256 / 256 / 256)) by lia.
  lia.
Qed.

Lemma decode_value (d : Buffer) :
  decode TUYA_value d
  = Ok (VNum (convertMultiByteNumberPayloadToSingleDecimalNumber d)).
Proof. reflexivity. Qed.

Lemma decode_bitmap (d : Buffer) :
  decode TUYA_bitmap d
  = Ok (VNum (convertMultiByteNumberPayloadToSingleDecimalNumber d)).
Proof. reflexivity. Qed.

Lemma decode_be32 (dt v : Z) :
  dt = TUYA_value \/ dt = TUYA_bitmap ->
  0 <= v < 2 ^ 31 ->
  decode dt (be32 v) = Ok (VNum v).
Proof.
  intros Hdt Hv.
  assert (E : convertMultiByteNumberPayloadToSingleDecimalNumber (be32 v) = v).
  { rewrite convert_big_endian, big_endian_be32 by lia.
    apply to_int32_small. lia. }
  destruct Hdt as [-> | ->].
  - rewrite decode_value, E. reflexivity.
  - rewrite decode_bitmap, E. reflexivity.
Qed.

Lemma latin1_fromCharCode (d : Buffer) : latin1 (fromCharCode d) = d.
Proof.
  unfold latin1, fromCharCode. rewrite map_map.
  induction d as [|b d IH]; simpl; [reflexivity|].
  rewrite byte_of_to_Z, IH. reflexivity.
Qed.

(** C3. Decoding is a function of the datatype and the bytes: a bool is
    true exactly when the first byte is 1; a value and a bitmap are the
    accumulation [acc = (acc << 8) | byte] over all the bytes in order
    (the signed 32-bit reading of the big-endian number); an enum is the
    first byte; and the four sample decodings of the spec hold. *)
Theorem decode_spec (d : Buffer) :
  (exists b, decode TUYA_bool d = Ok (VBool b)
             /\ (b = true <-> exists rest, d = Byte.x01 :: rest))
  /\ decode TUYA_value d
     = Ok (VNum (fold_left (fun acc b => bor (shl acc 8) (byte_to_Z b)) d 0))
  /\ decode TUYA_bitmap d
     = Ok (VNum (fold_left (fun acc b => bor (shl acc 8) (byte_to_Z b)) d 0))
  /\ fold_left (fun acc b => bor (shl acc 8) (byte_to_Z b)) d 0
     = to_int32 (big_endian d)
  /\ decode TUYA_enum d
     = Ok (match d with [] => VUndefined | b :: _ => VNum (byte_to_Z b) end)
  /\ decode 2 [Byte.x01; Byte.x2c] = Ok (VNum 300)
  /\ decode 1 [Byte.x01] = Ok (VBool true)
  /\ decode 1 [Byte.x00] = Ok (VBool false)
  /\ decode 4 [Byte.x05] = Ok (VNum 5).
Proof.
  split; [|split; [|split; [|split; [|split]]]].
  - exists (first_byte_is_one d). split; [reflexivity|].
    destruct d as [|b d]; simpl.
    + split; [discriminate | intros [rest H]; discriminate].
    + split.
      * intros H. exists d. f_equal.
        rewrite <- (byte_of_to_Z b).
        apply Z.eqb_eq in H. rewrite H. reflexivity.
      * intros [rest H]. injection H as -> _. reflexivity.
  - rewrite decode_value, convert_fold. reflexivity.
  - rewrite decode_bitmap, convert_fold. reflexivity.
  - rewrite <- convert_fold. apply convert_big_endian.
  - destruct d; reflexivity.
  - repeat split; vm_compute; reflexivity.
Qed.

(** C4, as stated, fails: the four bytes 80 00 00 00 decode as a value to
    -2147483648, which [writeData32] refuses as not a uint32. *)
Lemma roundtrip_value_high_bit_fails :
  decode TUYA_value [Byte.x80; Byte.x00; Byte.x00; Byte.x00]
    = Ok (VNum (-2147483648))
  /\ encode TUYA_value (VNum (-2147483648)) = Some (Throw InvalidUint32)
  /\ ~ roundtrip_stable TUYA_value [Byte.x80; Byte.x00; Byte.x00; Byte.x00].
Proof.
  split; [vm_compute; reflexivity|].
  split; [vm_compute; reflexivity|].
  intros (v & buf & Hd & He & _).
  vm_compute in Hd. injection Hd as <-.
  vm_compute in He. discriminate.
Qed.

(** C4, amended. The round trip is stable for every bool, string and raw
    buffer, for every non-empty enum buffer, and for a value or a bitmap
    buffer exactly when it decodes to a non-negative number. *)
Theorem roundtrip_stable_spec (d : Buffer) :
  roundtrip_stable TUYA_bool d
  /\ roundtrip_stable TUYA_string d
  /\ roundtrip_stable TUYA_raw d
  /\ (d <> [] -> roundtrip_stable TUYA_enum d)
  /\ (roundtrip_stable TUYA_value d
      <-> 0 <= convertMultiByteNumberPayloadToSingleDecimalNumber d)
  /\ (roundtrip_stable TUYA_bitmap d
      <-> 0 <= convertMultiByteNumberPayloadToSingleDecimalNumber d).
Proof.
  assert (Hnum : forall dt, dt = TUYA_value \/ dt = TUYA_bitmap ->
    (roundtrip_stable dt d
     <-> 0 <= convertMultiByteNumberPayloadToSingleDecimalNumber d)).
  { intros dt Hdt.
    set (n := convertMultiByteNumberPayloadToSingleDecimalNumber d).
    assert (Hn : - 2 ^ 31 <= n < 2 ^ 31).
    { unfold n. rewrite convert_big_endian. apply to_int32_range. }
    assert (Hdec : decode dt d = Ok (VNum n)).
    { destruct Hdt as [-> | ->]; reflexivity. }
    assert (Henc : encode dt (VNum n) = Some (writeData32_buffer (VNum n))).
    { destruct Hdt as [-> | ->]; reflexivity. }
    split.
    - intros (v & buf & Hd & He & _).
      rewrite Hdec in Hd. injection Hd as <-.
      rewrite Henc in He. cbn in He.
      destruct (Z.ltb_spec n 0); [discriminate | lia].
    - intros Hpos. exists (VNum n), (be32 n).
      split; [exact Hdec|]. split.
      + rewrite Henc. cbn.
        destruct (Z.ltb_spec n 0); [lia|].
        destruct (Z.gtb_spec n 4294967295); [lia|]. reflexivity.
      + apply decode_be32; [exact Hdt | lia]. }
  split; [|split; [|split; [|split; [|split]]]].
  - exists (VBool (first_byte_is_one d)),
      [byte_of_Z (if first_byte_is_one d then 1 else 0)].
    split; [reflexivity|]. split; [reflexivity|].
    destruct (first_byte_is_one d); reflexivity.
  - exists (VStr (fromCharCode d)), d.
    split; [reflexivity|]. split; [|reflexivity].
    cbn. unfold writeString_buffer. rewrite latin1_fromCharCode. reflexivity.
  - exists (VBuf d), d. repeat split.
  - intros Hne. destruct d as [|b d]; [congruence|].
    pose proof (byte_to_Z_range b) as Hb.
    exists (VNum (byte_to_Z b)), [b].
    split; [reflexivity|]. split; [|reflexivity].
    cbn. destruct (Z.ltb_spec (byte_to_Z b) 0); [lia|].
    destruct (Z.gtb_spec (byte_to_Z b) 255); [lia|].
    cbn. rewrite byte_of_to_Z. reflexivity.
  - apply Hnum. left. reflexivity.
  - apply Hnum. right. reflexivity.
Qed.

Lemma roundtrip_stable_spec_witness :
  roundtrip_stable TUYA_enum [Byte.x05]
  /\ roundtrip_stable TUYA_value [Byte.x01; Byte.x2c].
Proof.
  split.
  - apply (roundtrip_stable_spec [Byte.x05]). discriminate.
  - apply (roundtrip_stable_spec [Byte.x01; Byte.x2c]). vm_compute. discriminate.
Defined.

End CodecFacts.

(* ===================================================================== *)
(** * Properties of the command dispatcher                                *)
(* ===================================================================== *)

Module DispatcherFacts.
Import Js Dispatcher.

Lemma flat_map_seq_S {A} (f : nat -> list A) (k : nat) :
  flat_map f (seq 0 (S k)) = f O ++ flat_map (fun j => f (S j)) (seq 0 k).
Proof.
  cbn [seq flat_map]. f_equal.
  rewrite <- seq_shift, flat_map_concat_map, map_map, <- flat_map_concat_map.
  reflexivity.
Qed.

Lemma map_seq_S {A} (f : nat -> A) (k : nat) :
  map f (seq 0 (S k)) = f O :: map (fun j => f (S j)) (seq 0 k).
Proof.
  cbn [seq map]. f_equal. rewrite <- seq_shift, map_map. reflexivity.
Qed.

Lemma delays_app (site : wait_site) (e1 e2 : list event) :
  delays site (e1 ++ e2) = delays site e1 ++ delays site e2.
Proof. unfold delays. apply flat_map_app. Qed.

Lemma transmissions_app (e1 e2 : list event) :
  transmissions (e1 ++ e2) = transmissions e1 ++ transmissions e2.
Proof. unfold transmissions. apply flat_map_app. Qed.

Section RetryFacts.

Variable world : nat -> answer.

(** What one attempt does, by the answer it gets. *)
Lemma attempt_once_resolves dp dt data st :
  is_resolves (world (attempts_made st)) = true ->
  exists f st1,
    attempt_once world dp dt data st = (Ok tt, st1, [Datapoint f])
    /\ attempts_made st1 = S (attempts_made st).
Proof.
  intros H. unfold attempt_once.
  destruct (world (attempts_made st)); try discriminate.
  eexists _, _. split; reflexivity.
Qed.

Lemma attempt_once_fails dp dt data st :
  is_resolves (world (attempts_made st)) = false ->
  exists e st1,
    attempt_once world dp dt data st
      = (Throw (error_of st (world (attempts_made st))), st1, [e])
    /\ shape_of e = failed_shape (world (attempts_made st))
    /\ delays RetryBackoff [e] = []
    /\ attempts_made st1 = S (attempts_made st)
    /\ tuyaEndpoint st1 = tuyaEndpoint st.
Proof.
  intros H. unfold attempt_once.
  destruct (world (attempts_made st)); try discriminate;
    eexists _, _; repeat split; reflexivity.
Qed.

(** A write whose first resolving attempt is the [k]-th one more. *)
Lemma retry_loop_first_success maxRetries baseDelay dp dt data :
  forall k left attempt lastError st,
    (k < left)%nat ->
    (attempt + k <= maxRetries)%nat ->
    (forall j, (j < k)%nat ->
               is_resolves (world (attempts_made st + j)) = false) ->
    is_resolves (world (attempts_made st + k)) = true ->
    exists st' ev,
      retry_loop world left attempt maxRetries baseDelay dp dt data
                 lastError st = (Ok tt, st', ev)
      /\ map shape_of ev
         = flat_map (fun j =>
             [failed_shape (world (attempts_made st + j));
              SWait (baseDelay * 2 ^ Z.of_nat (attempt + j))]) (seq 0 k)
           ++ [STransmit]
      /\ delays RetryBackoff ev
         = map (fun j => baseDelay * 2 ^ Z.of_nat (attempt + j)) (seq 0 k).
Proof.
  induction k as [|k IH]; intros left attempt lastError st Hk Ha Hfail Hok.
  - destruct left as [|left]; [lia|].
    rewrite Nat.add_0_r in Hok.
    destruct (attempt_once_resolves dp dt data st Hok) as (f & st1 & E & _).
    exists st1, [Datapoint f]. cbn [retry_loop]. rewrite E.
    repeat split.
  - destruct left as [|left]; [lia|].
    assert (H0 : is_resolves (world (attempts_made st)) = false).
    { rewrite <- (Nat.add_0_r (attempts_made st)). apply Hfail. lia. }
    destruct (attempt_once_fails dp dt data st H0)
      as (e & st1 & E & Hsh & Hde & Hn & _).
    destruct (IH left (S attempt) (Some (error_of st (world (attempts_made st)))) st1)
      as (st' & ev & Er & Hshape & Hdel).
    + lia.
    + lia.
    + intros j Hj. rewrite Hn.
      replace (S (attempts_made st) + j)%nat
        with (attempts_made st + S j)%nat by lia.
      apply Hfail. lia.
    + rewrite Hn.
      replace (S (attempts_made st) + k)%nat
        with (attempts_made st + S k)%nat by lia.
      exact Hok.
    + exists st'. eexists. cbn [retry_loop]. rewrite E, Er.
      destruct (Nat.ltb_spec attempt maxRetries) as [_|Hge]; [|lia].
      split; [reflexivity|]. split.
      * rewrite flat_map_seq_S.
        cbn [app map shape_of]. rewrite Hshape, Hsh, Hn.
        rewrite !Nat.add_0_r. do 3 f_equal.
        apply flat_map_ext. intros j.
        replace (S (attempts_made st) + j)%nat
          with (attempts_made st + S j)%nat by lia.
        replace (S attempt + j)%nat with (attempt + S j)%nat by lia.
        reflexivity.
      * rewrite map_seq_S, !delays_app, Hde, Hdel.
        cbn [delays flat_map app]. rewrite !Nat.add_0_r. f_equal.
        apply map_ext. intros j.
        replace (S attempt + j)%nat with (attempt + S j)%nat by lia.
        reflexivity.
Qed.

(** A write none of whose attempts resolves. *)
Lemma retry_loop_exhausted maxRetries baseDelay dp dt data :
  forall n attempt lastError st,
    (attempt + n = maxRetries)%nat ->
    (forall j, (j <= n)%nat ->
               is_resolves (world (attempts_made st + j)) = false) ->
    exists st' ev,
      retry_loop world (S n) attempt maxRetries baseDelay dp dt data
                 lastError st
        = (Throw (error_of st (world (attempts_made st + n))), st', ev)
      /\ map shape_of ev
         = flat_map (fun j =>
             [failed_shape (world (attempts_made st + j));
              SWait (baseDelay * 2 ^ Z.of_nat (attempt + j))]) (seq 0 n)
           ++ [failed_shape (world (attempts_made st + n))]
      /\ delays RetryBackoff ev
         = map (fun j => baseDelay * 2 ^ Z.of_nat (attempt + j)) (seq 0 n).
Proof.
  induction n as [|n IH]; intros attempt lastError st Ha Hfail.
  - assert (H0 : is_resolves (world (attempts_made st)) = false).
    { rewrite <- (Nat.add_0_r (attempts_made st)). apply Hfail. lia. }
    destruct (attempt_once_fails dp dt data st H0)
      as (e & st1 & E & Hsh & Hde & Hn & _).
    exists st1, [e]. cbn [retry_loop]. rewrite E.
    destruct (Nat.ltb_spec attempt maxRetries) as [Hlt|_]; [lia|].
    rewrite !Nat.add_0_r. cbn [app seq flat_map map].
    rewrite Hsh. repeat split. exact Hde.
  - assert (H0 : is_resolves (world (attempts_made st)) = false).
    { rewrite <- (Nat.add_0_r (attempts_made st)). apply Hfail. lia. }
    destruct (attempt_once_fails dp dt data st H0)
      as (e & st1 & E & Hsh & Hde & Hn & Hep).
    destruct (IH (S attempt) (Some (error_of st (world (attempts_made st)))) st1)
      as (st' & ev & Er & Hshape & Hdel).
    + lia.
    + intros j Hj. rewrite Hn.
      replace (S (attempts_made st) + j)%nat
        with (attempts_made st + S j)%nat by lia.
      apply Hfail. lia.
    + exists st'. eexists.
      change (retry_loop world (S (S n)) attempt maxRetries baseDelay dp dt
                         data lastError st)
        with (match attempt_once world dp dt data st with
              | (Ok _, st1, ev) => (Ok tt, st1, ev)
              | (Throw e, st1, ev) =>
                  let wait :=
                    if (attempt <? maxRetries)%nat
                    then [Timeout RetryBackoff (baseDelay * 2 ^ Z.of_nat attempt)]
                    else [] in
                  let '(r, st2, ev2) :=
                    retry_loop world (S n) (S attempt) maxRetries baseDelay
                               dp dt data (Some e) st1 in
                  (r, st2, ev ++ wait ++ ev2)
              end).
      rewrite E. cbv zeta. rewrite Er.
      destruct (Nat.ltb_spec attempt maxRetries) as [_|Hge]; [|lia].
      split.
      { f_equal. f_equal. unfold error_of. rewrite Hep, Hn.
        replace (S (attempts_made st) + n)%nat
          with (attempts_made st + S n)%nat by lia.
        reflexivity. }
      split.
      * rewrite flat_map_seq_S.
        cbn [app map shape_of]. rewrite Hshape, Hsh, Hn.
        rewrite !Nat.add_0_r. do 2 f_equal.
        replace (S (attempts_made st) + n)%nat
          with (attempts_made st + S n)%nat by lia.
        f_equal.
        apply flat_map_ext. intros j.
        replace (S (attempts_made st) + j)%nat
          with (attempts_made st + S j)%nat by lia.
        replace (S attempt + j)%nat with (attempt + S j)%nat by lia.
        reflexivity.
      * rewrite map_seq_S, !delays_app, Hde, Hdel.
        cbn [delays flat_map app]. rewrite !Nat.add_0_r. f_equal.
        apply map_ext. intros j.
        replace (S attempt + j)%nat with (attempt + S j)%nat by lia.
        reflexivity.
Qed.

(** No more transmissions than iterations. *)
Lemma retry_loop_transmissions maxRetries baseDelay dp dt data :
  forall left attempt lastError st,
    (List.length
       (transmissions
          (snd (retry_loop world left attempt maxRetries baseDelay dp dt
                           data lastError st))) <= left)%nat.
Proof.
  induction left as [|left IH]; intros attempt lastError st.
  - cbn. lia.
  - cbn [retry_loop]. unfold attempt_once.
    destruct (world (attempts_made st)).
    + specialize (IH (S attempt) (Some (ENoCluster (tuyaEndpoint st)))
                     (mkDevice (tuyaEndpoint st) (_transactionID st)
                        (getAvailable st) (S (attempts_made st)))).
      destruct (retry_loop world left _ _ _ _ _ _ _ _) as [[r st2] ev2].
      cbn [snd] in *. rewrite !transmissions_app.
      destruct (attempt <? maxRetries)%nat; cbn; rewrite ?length_app; cbn; lia.
    + match goal with
      | |- context [retry_loop world left ?a ?m ?b ?p ?t ?d ?l ?s] =>
          specialize (IH a l s);
          destruct (retry_loop world left a m b p t d l s) as [[r st2] ev2]
      end.
      cbn [snd] in *. rewrite !transmissions_app.
      destruct (attempt <? maxRetries)%nat; cbn; rewrite ?length_app; cbn; lia.
    + cbn. lia.
Qed.

End RetryFacts.

Section BulkFacts.

Variable world : nat -> answer.
Variable js_String : value -> jsstring.

Lemma unpaced_app (e1 e2 : list event) :
  unpaced (e1 ++ e2) = unpaced e1 ++ unpaced e2.
Proof. unfold unpaced. apply List.filter_app. Qed.

(** A write never waits at the pacing site. *)
Lemma retry_loop_unpaced maxRetries baseDelay dp dt data :
  forall left attempt lastError st,
    let ev := snd (retry_loop world left attempt maxRetries baseDelay dp dt
                              data lastError st) in
    unpaced ev = ev /\ delays BulkPacing ev = [].
Proof.
  induction left as [|left IH]; intros attempt lastError st; [split; reflexivity|].
  cbn [retry_loop]. unfold attempt_once.
  destruct (world (attempts_made st)); [| |split; reflexivity];
    match goal with
    | |- context [retry_loop world left ?a ?m ?b ?p ?t ?d ?l ?s] =>
        specialize (IH a l s);
        destruct (retry_loop world left a m b p t d l s) as [[r st2] ev2]
    end;
    cbn [snd] in *; destruct IH as [IH1 IH2];
    rewrite !unpaced_app, !delays_app, IH1, IH2;
    destruct (attempt <? maxRetries)%nat; split; reflexivity.
Qed.

Lemma run_cmd_unpaced cmd st :
  let ev := snd (run_cmd world js_String cmd st) in
  unpaced ev = ev /\ delays BulkPacing ev = [].
Proof.
  unfold run_cmd, writeBool, writeEnum, writeData32, writeString, writeRaw,
    write_with, _sendTuyaDatapoint.
  repeat match goal with
         | |- context [if ?b then _ else _] => destruct b
         | |- context [match ?x with Ok _ => _ | Throw _ => _ end] => destruct x
         end;
    try (split; reflexivity); apply retry_loop_unpaced.
Qed.

(** Once two commands in a row have failed, the loop only pushes entries. *)
Lemma bulk_loop_skip delay cmds fails st :
  (2 <= fails)%nat ->
  bulk_loop world js_String delay cmds fails st
  = (map (skipped AbortedConsecutiveFailures) cmds, fails, st, []).
Proof.
  intros Hf. induction cmds as [|c rest IH]; [reflexivity|].
  cbn [bulk_loop map].
  destruct (Nat.leb_spec 2 fails) as [_|]; [|lia].
  rewrite IH. reflexivity.
Qed.

(** One entry per command, in the order of the commands. *)
Lemma bulk_loop_dp delay cmds :
  forall fails st,
    map r_dp (bl_results (bulk_loop world js_String delay cmds fails st))
    = map cmd_dp cmds.
Proof.
  induction cmds as [|c rest IH]; intros fails st; [reflexivity|].
  cbn [bulk_loop].
  destruct (2 <=? fails)%nat.
  - specialize (IH fails st).
    destruct (bulk_loop world js_String delay rest fails st) as [[[rs f'] st'] ev].
    cbn in *. rewrite IH. reflexivity.
  - destruct (run_cmd world js_String c st) as [[r st1] ev1].
    match goal with
    | |- context [bulk_loop world js_String delay rest ?f ?s] =>
        specialize (IH f s);
        destruct (bulk_loop world js_String delay rest f s) as [[[rs f'] st'] ev]
    end.
    cbn in *. rewrite IH. destruct r; reflexivity.
Qed.

(** Every pacing wait lasts [delay]. *)
Lemma bulk_loop_pacing delay cmds :
  forall fails st,
    Forall (fun ms => ms = delay)
      (delays BulkPacing
         (bl_events (bulk_loop world js_String delay cmds fails st))).
Proof.
  induction cmds as [|c rest IH]; intros fails st; [constructor|].
  cbn [bulk_loop].
  destruct (2 <=? fails)%nat.
  - specialize (IH fails st).
    destruct (bulk_loop world js_String delay rest fails st) as [[[rs f'] st'] ev].
    exact IH.
  - pose proof (run_cmd_unpaced c st) as [_ Hc].
    destruct (run_cmd world js_String c st) as [[r st1] ev1].
    match goal with
    | |- context [bulk_loop world js_String delay rest ?f ?s] =>
        specialize (IH f s);
        destruct (bulk_loop world js_String delay rest f s) as [[[rs f'] st'] ev]
    end.
    cbn [bl_events snd] in *. rewrite !delays_app, Hc. cbn [app].
    destruct rest; cbn; [exact IH | constructor; [reflexivity | exact IH]].
Qed.

Lemma last_attempted_skipped cmd rs :
  last_attempted (skipped AbortedConsecutiveFailures cmd :: rs)
  = last_attempted rs.
Proof. destruct rs; reflexivity. Qed.

Lemma last_attempted_cons2 r r' rs :
  last_attempted (r :: r' :: rs) = last_attempted (r' :: rs).
Proof. reflexivity. Qed.

(** The head of what the loop pushes, by the counter it starts from. *)
Lemma bulk_loop_head delay c rest fails st :
  exists r rs,
    bl_results (bulk_loop world js_String delay (c :: rest) fails st) = r :: rs
    /\ is_aborted r = (2 <=? fails)%nat.
Proof.
  cbn [bulk_loop].
  destruct (2 <=? fails)%nat.
  - destruct (bulk_loop world js_String delay rest fails st) as [[[rs f'] st'] ev].
    eexists _, _. split; reflexivity.
  - destruct (run_cmd world js_String c st) as [[r st1] ev1].
    match goal with
    | |- context [bulk_loop world js_String delay rest ?f ?s] =>
        destruct (bulk_loop world js_String delay rest f s) as [[[rs f'] st'] ev]
    end.
    eexists _, _. split; [reflexivity|]. destruct r; reflexivity.
Qed.

(** The loop over a list cut in two: the loop over the first part, one
    pacing wait when the first part ended with a command that was run and
    more commands follow, then the loop over the second part. *)
Lemma bulk_loop_app delay l1 l2 :
  forall fails st,
    bulk_loop world js_String delay (l1 ++ l2) fails st
    = let x1 := bulk_loop world js_String delay l1 fails st in
      let x2 := bulk_loop world js_String delay l2 (bl_fails x1) (bl_device x1) in
      (bl_results x1 ++ bl_results x2, bl_fails x2, bl_device x2,
       bl_events x1
       ++ (if last_attempted (bl_results x1) && nonempty l2
           then [Timeout BulkPacing delay] else [])
       ++ bl_events x2).
Proof.
  induction l1 as [|c l1 IH]; intros fails st.
  - cbn. destruct (bulk_loop world js_String delay l2 fails st) as [[[rs f'] st'] ev].
    reflexivity.
  - cbn [app bulk_loop].
    destruct (2 <=? fails)%nat eqn:Ef.
    + rewrite IH. clear IH.
      destruct (bulk_loop world js_String delay l1 fails st) as [[[rs1 f1] st1] ev1].
      cbn [bl_results bl_fails bl_device bl_events fst snd].
      destruct (bulk_loop world js_String delay l2 f1 st1) as [[[rs2 f2] st2] ev2].
      cbn [bl_results bl_fails bl_device bl_events fst snd app].
      rewrite last_attempted_skipped. reflexivity.
    + destruct (run_cmd world js_String c st) as [[r st1] ev1].
      rewrite IH. clear IH.
      set (fails1 := match r with Ok _ => O | Throw _ => S fails end).
      set (entry := match r with
                    | Ok _ => mkResult true (cmd_dp c) None
                    | Throw e => mkResult false (cmd_dp c) (Some (Thrown e))
                    end).
      assert (Hentry : is_aborted entry = false) by (destruct r; reflexivity).
      destruct l1 as [|c1 l1].
      * cbn [app bulk_loop bl_results bl_fails bl_device bl_events fst snd].
        destruct (bulk_loop world js_String delay l2 fails1 st1)
          as [[[rs2 f2] st2] ev2].
        cbn [bl_results bl_fails bl_device bl_events fst snd app].
        unfold last_attempted. cbn [last]. rewrite Hentry. cbn [negb andb].
        rewrite app_nil_r. destruct l2; reflexivity.
      * destruct (bulk_loop_head delay c1 l1 fails1 st1) as (r1 & rs1 & Hrs & _).
        destruct (bulk_loop world js_String delay (c1 :: l1) fails1 st1)
          as [[[rs1' f1] st1'] ev1'].
        cbn [bl_results bl_fails bl_device bl_events fst snd] in *. subst rs1'.
        destruct (bulk_loop world js_String delay l2 f1 st1')
          as [[[rs2 f2] st2] ev2].
        cbn [bl_results bl_fails bl_device bl_events fst snd app].
        rewrite last_attempted_cons2.
        rewrite <- !app_assoc. reflexivity.
Qed.

Lemma skipped_lookup why (l : list Cmd) :
  forall k e,
    map (skipped why) l !! k = Some e ->
    success e = false /\ r_error e = Some why.
Proof.
  induction l as [|c l IH]; intros k e Hk.
  - cbn in Hk. rewrite lookup_nil in Hk. discriminate.
  - destruct k as [|k]; cbn in Hk.
    + injection Hk as <-. split; reflexivity.
    + apply (IH k e Hk).
Qed.

(** An entry is one of a command that was not run exactly when two
    failures in a row precede it, counting the [fails] failures before the
    loop. *)
Lemma bulk_loop_aborted delay cmds :
  forall fails st k e,
    let rs := bl_results (bulk_loop world js_String delay cmds fails st) in
    rs !! k = Some e ->
    (is_aborted e = true <->
     (2 <= fails)%nat
     \/ (fails = 1%nat /\ (0 < k)%nat
         /\ exists e0, rs !! 0%nat = Some e0 /\ success e0 = false)
     \/ (exists j ej ej',
            (S j < k)%nat /\ rs !! j = Some ej /\ rs !! S j = Some ej'
            /\ success ej = false /\ success ej' = false)).
Proof.
  induction cmds as [|c rest IH]; intros fails st k e rs Hk.
  - subst rs. cbn in Hk. discriminate.
  - subst rs. cbn [bulk_loop] in *.
    destruct (Nat.leb_spec 2 fails) as [Hf|Hf].
    + rewrite bulk_loop_skip in Hk by exact Hf.
      cbn [bl_results fst] in Hk.
      change (map (skipped AbortedConsecutiveFailures) (c :: rest) !! k = Some e) in Hk.
      apply skipped_lookup in Hk as [_ Hk].
      unfold is_aborted. rewrite Hk. split; [intros _; left; exact Hf | reflexivity].
    + destruct (run_cmd world js_String c st) as [[r st1] ev1].
      set (fails1 := match r with Ok _ => O | Throw _ => S fails end) in *.
      set (entry := match r with
                    | Ok _ => mkResult true (cmd_dp c) None
                    | Throw e => mkResult false (cmd_dp c) (Some (Thrown e))
                    end) in *.
      assert (Hentry : is_aborted entry = false) by (destruct r; reflexivity).
      specialize (IH fails1 st1).
      destruct (bulk_loop world js_String delay rest fails1 st1)
        as [[[rs f'] st'] ev].
      cbn [bl_results fst] in *.
      destruct k as [|k].
      * cbn in Hk. injection Hk as <-. rewrite Hentry.
        split; [discriminate|].
        intros [H | [(_ & H & _) | (j & ej & ej' & H & _)]]; lia.
      * cbn in Hk. specialize (IH k e Hk). rewrite IH. clear IH.
        destruct r as [[]|err]; subst fails1 entry.
        -- (* the command succeeded: the counter is back at 0 *)
           split.
           ++ intros [H | [(H & _) | (j & ej & ej' & Hj & H1 & H2 & H3 & H4)]];
                [lia | lia |].
              right. right. exists (S j), ej, ej'. cbn. repeat split; try assumption; lia.
           ++ intros [H | [(_ & _ & e0 & H0 & Hs) | (j & ej & ej' & Hj & H1 & H2 & H3 & H4)]].
              ** lia.
              ** cbn in H0. injection H0 as <-. discriminate.
              ** destruct j as [|j].
                 { cbn in H1. injection H1 as <-. discriminate. }
                 right. right. exists j, ej, ej'. cbn in H1, H2.
                 repeat split; try assumption; lia.
        -- (* the command failed *)
           split.
           ++ intros [H | [(H & Hk0 & e0 & H0 & Hs) | (j & ej & ej' & Hj & H1 & H2 & H3 & H4)]].
              ** right. left. split; [lia|]. split; [lia|].
                 eexists. split; reflexivity.
              ** right. right. exists 0%nat. eexists _, e0. cbn.
                 repeat split; try assumption; lia.
              ** right. right. exists (S j), ej, ej'. cbn.
                 repeat split; try assumption; lia.
           ++ intros [H | [(H & _) | (j & ej & ej' & Hj & H1 & H2 & H3 & H4)]].
              ** lia.
              ** left. lia.
              ** destruct j as [|j].
                 { cbn in H2. destruct fails as [|fails]; [|left; lia].
                   right. left. split; [reflexivity|]. split; [lia|].
                   exists ej'. split; assumption. }
                 right. right. exists j, ej, ej'. cbn in H1, H2.
                 repeat split; try assumption; lia.
Qed.

(** A loop that ends with the counter below 2 ran its last command. *)
Lemma bulk_loop_last_attempted delay pre c fails st :
  let x := bulk_loop world js_String delay (pre ++ [c]) fails st in
  (bl_fails x < 2)%nat -> last_attempted (bl_results x) = true.
Proof.
  cbv zeta. rewrite bulk_loop_app.
  set (x1 := bulk_loop world js_String delay pre fails st).
  cbn [bulk_loop].
  destruct (Nat.leb_spec 2 (bl_fails x1)) as [Hf|Hf].
  - cbn. lia.
  - destruct (run_cmd world js_String c (bl_device x1)) as [[r st1] ev1].
    cbn [bl_results bl_fails bl_device bl_events fst snd].
    intros _. unfold last_attempted. rewrite last_snoc.
    destruct r; reflexivity.
Qed.

Lemma sendBulkCommands_available cmds delayBetween st :
  cmds <> [] ->
  getAvailable st = true ->
  sendBulkCommands world js_String cmds delayBetween st
  = let x := bulk_loop world js_String (Z.max 150 delayBetween) cmds 0 st in
    (bl_results x, bl_device x, bl_events x).
Proof.
  intros Hne Hav. unfold sendBulkCommands.
  destruct cmds as [|c cmds]; [congruence|].
  rewrite Hav. cbn [negb].
  destruct (bulk_loop world js_String (Z.max 150 delayBetween) (c :: cmds) 0 st)
    as [[[rs f] st'] ev].
  reflexivity.
Qed.

End BulkFacts.

(** C1. A write with [maxRetries] and [baseDelay] transmits at most
    [maxRetries + 1] times; it succeeds at the first attempt that does not
    throw, having waited [baseDelay * 2^j] after every failed attempt [j]
    before it and nothing before attempt 0; when all [maxRetries + 1]
    attempts throw it throws the error of the last one, after the same
    waits.  With 2 retries and a base delay of 300: two failures and then a
    success wait 300 and 600 and succeed; three failures throw. *)
Theorem send_retry_spec (world : nat -> answer) :
  (forall dp dt data maxRetries baseDelay st,
      let a := attempts_made st in
      (List.length
         (transmissions
            (snd (_sendTuyaDatapoint world dp dt data maxRetries baseDelay st)))
       <= S maxRetries)%nat
      /\ (forall k,
            (k <= maxRetries)%nat ->
            (forall j, (j < k)%nat -> is_resolves (world (a + j)%nat) = false) ->
            is_resolves (world (a + k)%nat) = true ->
            exists st' ev,
              _sendTuyaDatapoint world dp dt data maxRetries baseDelay st
                = (Ok tt, st', ev)
              /\ map shape_of ev
                 = flat_map (fun j =>
                     [failed_shape (world (a + j)%nat);
                      SWait (baseDelay * 2 ^ Z.of_nat j)]) (seq 0 k)
                   ++ [STransmit]
              /\ delays RetryBackoff ev
                 = map (fun j => baseDelay * 2 ^ Z.of_nat j) (seq 0 k))
      /\ ((forall j, (j <= maxRetries)%nat ->
                     is_resolves (world (a + j)%nat) = false) ->
          exists st' ev,
            _sendTuyaDatapoint world dp dt data maxRetries baseDelay st
              = (Throw (error_of st (world (a + maxRetries)%nat)), st', ev)
            /\ map shape_of ev
               = flat_map (fun j =>
                   [failed_shape (world (a + j)%nat);
                    SWait (baseDelay * 2 ^ Z.of_nat j)]) (seq 0 maxRetries)
                 ++ [failed_shape (world (a + maxRetries)%nat)]
            /\ delays RetryBackoff ev
               = map (fun j => baseDelay * 2 ^ Z.of_nat j) (seq 0 maxRetries)))
  /\ (forall dp dt data st,
        let a := attempts_made st in
        is_resolves (world a) = false ->
        is_resolves (world (a + 1)%nat) = false ->
        is_resolves (world (a + 2)%nat) = true ->
        exists st' ev,
          _sendTuyaDatapoint world dp dt data 2 300 st = (Ok tt, st', ev)
          /\ delays RetryBackoff ev = [300; 600])
  /\ (forall dp dt data st,
        let a := attempts_made st in
        is_resolves (world a) = false ->
        is_resolves (world (a + 1)%nat) = false ->
        is_resolves (world (a + 2)%nat) = false ->
        exists st' ev,
          _sendTuyaDatapoint world dp dt data 2 300 st
            = (Throw (error_of st (world (a + 2)%nat)), st', ev)
          /\ delays RetryBackoff ev = [300; 600]
          /\ (List.length (transmissions ev) <= 3)%nat).
Proof.
  assert (General : forall dp dt data maxRetries baseDelay st,
    let a := attempts_made st in
    (forall k,
        (k <= maxRetries)%nat ->
        (forall j, (j < k)%nat -> is_resolves (world (a + j)%nat) = false) ->
        is_resolves (world (a + k)%nat) = true ->
        exists st' ev,
          _sendTuyaDatapoint world dp dt data maxRetries baseDelay st
            = (Ok tt, st', ev)
          /\ map shape_of ev
             = flat_map (fun j =>
                 [failed_shape (world (a + j)%nat);
                  SWait (baseDelay * 2 ^ Z.of_nat j)]) (seq 0 k)
               ++ [STransmit]
          /\ delays RetryBackoff ev
             = map (fun j => baseDelay * 2 ^ Z.of_nat j) (seq 0 k))
    /\ ((forall j, (j <= maxRetries)%nat ->
                   is_resolves (world (a + j)%nat) = false) ->
        exists st' ev,
          _sendTuyaDatapoint world dp dt data maxRetries baseDelay st
            = (Throw (error_of st (world (a + maxRetries)%nat)), st', ev)
          /\ map shape_of ev
             = flat_map (fun j =>
                 [failed_shape (world (a + j)%nat);
                  SWait (baseDelay * 2 ^ Z.of_nat j)]) (seq 0 maxRetries)
               ++ [failed_shape (world (a + maxRetries)%nat)]
          /\ delays RetryBackoff ev
             = map (fun j => baseDelay * 2 ^ Z.of_nat j) (seq 0 maxRetries))).
  { intros dp dt data maxRetries baseDelay st a. split.
    - intros k Hk Hfail Hok.
      apply (retry_loop_first_success world maxRetries baseDelay dp dt data
               k (S maxRetries) 0 None st); [lia | lia | exact Hfail | exact Hok].
    - intros Hfail.
      apply (retry_loop_exhausted world maxRetries baseDelay dp dt data
               maxRetries 0 None st); [lia | exact Hfail]. }
  split; [|split].
  - intros dp dt data maxRetries baseDelay st a.
    split; [apply retry_loop_transmissions | apply General].
  - intros dp dt data st a H0 H1 H2.
    destruct (General dp dt data 2%nat 300 st) as [Hs _].
    destruct (Hs 2%nat) as (st' & ev & E & _ & Hd); [lia | | exact H2 |].
    + intros j Hj. destruct j as [|[|j]]; [|exact H1|lia].
      fold a. rewrite Nat.add_0_r. exact H0.
    + exists st', ev. split; [exact E | exact Hd].
  - intros dp dt data st a H0 H1 H2.
    destruct (General dp dt data 2%nat 300 st) as [_ Hx].
    destruct Hx as (st' & ev & E & _ & Hd).
    + intros j Hj. destruct j as [|[|[|j]]]; [|exact H1|exact H2|lia].
      fold a. rewrite Nat.add_0_r. exact H0.
    + exists st', ev. split; [exact E|]. split; [exact Hd|].
      pose proof (retry_loop_transmissions world 2 300 dp dt data 3 0 None st) as Hb.
      unfold _sendTuyaDatapoint in E. rewrite E in Hb. exact Hb.
Qed.

Lemma send_retry_spec_witness :
  exists st' ev,
    _sendTuyaDatapoint fails_twice 1 1 [Byte.x01] 2 300 (mkDevice 1 0 true 0)
      = (Ok tt, st', ev)
    /\ delays RetryBackoff ev = [300; 600].
Proof.
  destruct (send_retry_spec fails_twice) as (_ & H & _).
  apply (H 1 1 [Byte.x01] (mkDevice 1 0 true 0)); reflexivity.
Defined.

(** The structure of a bulk send of a non-empty list to an available
    device: the pacing waits between commands that are run, the entries
    pushed without running their command, and the [dp] of every entry. *)
Lemma bulk_batch_structure (world : nat -> answer) (js_String : value -> jsstring)
    (cmds : list Cmd) (delayBetween : Z) (st : Device) :
  cmds <> [] ->
  getAvailable st = true ->
  let out := sendBulkCommands world js_String cmds delayBetween st in
  let rs := fst (fst out) in
  let ev := snd out in
  let delay := Z.max 150 delayBetween in
  map r_dp rs = map cmd_dp cmds
  /\ Forall (fun ms => ms = delay /\ 150 <= ms) (delays BulkPacing ev)
  /\ (forall pre c c' post e,
        cmds = pre ++ c :: c' :: post ->
        rs !! S (List.length pre) = Some e ->
        is_aborted e = false ->
        let before :=
          sendBulkCommands world js_String (pre ++ [c]) delayBetween st in
        exists fails,
          ev = snd before
               ++ Timeout BulkPacing delay
               :: bl_events (bulk_loop world js_String delay (c' :: post)
                                       fails (snd (fst before))))
  /\ (forall k e,
        rs !! k = Some e ->
        (is_aborted e = true <->
         exists j ej ej',
           (S j < k)%nat /\ rs !! j = Some ej /\ rs !! S j = Some ej'
           /\ success ej = false /\ success ej' = false))
  /\ (forall k e,
        rs !! k = Some e ->
        is_aborted e = true ->
        success e = false
        /\ unpaced ev
           = unpaced (snd (sendBulkCommands world js_String (take k cmds)
                                            delayBetween st))).
Proof.
  intros Hne Hav out rs ev delay.
  assert (Hout : out = let x := bulk_loop world js_String delay cmds 0 st in
                       (bl_results x, bl_device x, bl_events x)).
  { apply sendBulkCommands_available; assumption. }
  cbv zeta in Hout.
  assert (Hrs : rs = bl_results (bulk_loop world js_String delay cmds 0 st)).
  { unfold rs. rewrite Hout. reflexivity. }
  assert (Hev : ev = bl_events (bulk_loop world js_String delay cmds 0 st)).
  { unfold ev. rewrite Hout. reflexivity. }
  clearbody rs ev. clear Hout out.
  split; [|split; [|split; [|split]]].
  - rewrite Hrs. apply bulk_loop_dp.
  - rewrite Hev.
    eapply List.Forall_impl; [|apply bulk_loop_pacing].
    intros ms ->. split; [reflexivity | unfold delay; lia].
  - intros pre c c' post e Hcmds Hk Hnot before.
    assert (Hb : before
                 = let x := bulk_loop world js_String delay (pre ++ [c]) 0 st in
                   (bl_results x, bl_device x, bl_events x)).
    { apply sendBulkCommands_available; [|assumption].
      destruct pre; discriminate. }
    cbv zeta in Hb. rewrite Hb. clear Hb before. cbn [fst snd].
    set (x1 := bulk_loop world js_String delay (pre ++ [c]) 0 st) in *.
    exists (bl_fails x1).
    assert (Hsplit : cmds = (pre ++ [c]) ++ c' :: post).
    { rewrite Hcmds, <- app_assoc. reflexivity. }
    rewrite Hsplit, bulk_loop_app in Hrs, Hev. fold x1 in Hrs, Hev.
    cbn [bl_results bl_events fst snd] in Hrs, Hev.
    assert (Hlen : List.length (bl_results x1) = S (List.length pre)).
    { pose proof (f_equal (@List.length _)
                          (bulk_loop_dp world js_String delay (pre ++ [c]) 0 st)) as H.
      fold x1 in H. rewrite !length_map, length_app in H. cbn in H. lia. }
    destruct (bulk_loop_head world js_String delay c' post (bl_fails x1) (bl_device x1))
      as (r & rs2 & Hhead & Hr).
    rewrite Hrs, Hhead in Hk.
    rewrite lookup_app_r in Hk by lia.
    replace (S (List.length pre) - List.length (bl_results x1))%nat
      with 0%nat in Hk by lia.
    cbn in Hk. injection Hk as ->.
    rewrite Hnot in Hr. symmetry in Hr. apply Nat.leb_gt in Hr.
    pose proof (bulk_loop_last_attempted world js_String delay pre c 0 st Hr) as Hla.
    fold x1 in Hla. rewrite Hla in Hev. exact Hev.
  - intros k e Hk. rewrite Hrs in *.
    rewrite (bulk_loop_aborted world js_String delay cmds 0 st k e Hk).
    split.
    + intros [H | [(H & _) | H]]; [lia | lia | exact H].
    + intros H. right. right. exact H.
  - intros k e Hk Hab.
    split.
    { unfold is_aborted in Hab. rewrite Hrs in Hk.
      destruct e as [[] d [[]|]]; cbn in *; try discriminate; try reflexivity.
      exfalso.
      (* an entry of a command that was run without error has no error text *)
      revert Hk. generalize 0%nat at 1. generalize st. clear. revert k.
      induction cmds as [|c rest IH]; intros k st0 f Hk.
      - cbn in Hk. rewrite lookup_nil in Hk. discriminate.
      - cbn [bulk_loop] in Hk.
        destruct (Nat.leb_spec 2 f) as [Hf|Hf].
        + rewrite bulk_loop_skip in Hk by exact Hf. cbn [bl_results fst] in Hk.
          change (map (skipped AbortedConsecutiveFailures) (c :: rest) !! k
                  = Some (mkResult true d (Some AbortedConsecutiveFailures))) in Hk.
          apply skipped_lookup in Hk as [Hk _]. discriminate.
        + destruct (run_cmd world js_String c st0) as [[r st1] ev1].
          match type of Hk with
          | context [bulk_loop world js_String delay rest ?f1 ?s1] =>
              specialize (IH (match k with O => O | S k' => k' end) s1 f1);
              destruct (bulk_loop world js_String delay rest f1 s1)
                as [[[rs' f'] st'] ev']
          end.
          cbn [bl_results fst] in *.
          destruct k as [|k]; cbn in Hk.
          * destruct r; discriminate.
          * apply IH. exact Hk. }
    assert (Hk' : (k < List.length cmds)%nat).
    { apply lookup_lt_Some in Hk. rewrite Hrs in Hk.
      pose proof (f_equal (@List.length _)
                          (bulk_loop_dp world js_String delay cmds 0 st)) as H.
      rewrite !length_map in H. lia. }
    assert (Hsplit : cmds = take k cmds ++ drop k cmds)
      by (symmetry; apply take_drop).
    destruct (drop k cmds) as [|c' post] eqn:Edrop.
    { apply (f_equal (@List.length _)) in Edrop.
      rewrite length_drop in Edrop. cbn in Edrop. lia. }
    set (x1 := bulk_loop world js_String delay (take k cmds) 0 st).
    assert (Hlen : List.length (bl_results x1) = k).
    { pose proof (f_equal (@List.length _)
                          (bulk_loop_dp world js_String delay (take k cmds) 0 st)) as H.
      fold x1 in H. rewrite !length_map, length_take in H. lia. }
    rewrite Hsplit, bulk_loop_app in Hrs, Hev. fold x1 in Hrs, Hev.
    cbn [bl_results bl_events fst snd] in Hrs, Hev.
    destruct (bulk_loop_head world js_String delay c' post (bl_fails x1) (bl_device x1))
      as (r & rs2 & Hhead & Hr).
    rewrite Hrs, Hhead in Hk.
    rewrite lookup_app_r in Hk by lia.
    replace (k - List.length (bl_results x1))%nat with 0%nat in Hk by lia.
    cbn in Hk. injection Hk as ->.
    rewrite Hab in Hr. symmetry in Hr. apply Nat.leb_le in Hr.
    rewrite (bulk_loop_skip world js_String delay (c' :: post) _ _ Hr) in Hev.
    cbn [bl_events snd] in Hev.
    destruct (take k cmds) as [|c0 pre0] eqn:Etake.
    { (* no entry of a batch starting at counter 0 is cut at its head *)
      exfalso. subst x1. cbn in Hr. lia. }
    assert (Hb : sendBulkCommands world js_String (c0 :: pre0) delayBetween st
                 = (bl_results x1, bl_device x1, bl_events x1)).
    { apply (sendBulkCommands_available world js_String (c0 :: pre0));
        [discriminate | assumption]. }
    rewrite Hb. cbn [snd].
    rewrite Hev, !unpaced_app, app_nil_r.
    destruct (last_attempted (bl_results x1) && nonempty (c' :: post));
      cbn; rewrite app_nil_r; reflexivity.
Qed.

(** C9. A bulk send to an unavailable device is given up before the loop:
    nothing is transmitted, no timer is awaited, the device is as before,
    and every command gets an entry marked failed with the unavailability
    error. *)
Theorem bulk_unavailable (world : nat -> answer) (js_String : value -> jsstring)
    (cmds : list Cmd) (delayBetween : Z) (st : Device) :
  getAvailable st = false ->
  let out := sendBulkCommands world js_String cmds delayBetween st in
  snd out = []
  /\ snd (fst out) = st
  /\ fst (fst out)
     = map (fun c => mkResult false (cmd_dp c) (Some DeviceUnavailable)) cmds
  /\ List.length (fst (fst out)) = List.length cmds
  /\ Forall (fun r => success r = false /\ r_error r = Some DeviceUnavailable)
            (fst (fst out)).
Proof.
  intros Hav out.
  assert (Hout : out = (map (skipped DeviceUnavailable) cmds, st, [])).
  { unfold out, sendBulkCommands. rewrite Hav.
    destruct cmds; reflexivity. }
  rewrite Hout. cbn [fst snd].
  split; [reflexivity|]. split; [reflexivity|]. split; [reflexivity|].
  split; [apply length_map|].
  apply List.Forall_forall. intros r Hr.
  apply List.in_map_iff in Hr as (c & <- & _). split; reflexivity.
Qed.

Lemma bulk_unavailable_witness :
  sendBulkCommands fails_twice (fun _ => [])
    [mkCmd "bool" 1 (VBool true); mkCmd "enum" 14 (VNum 2)]
    100 (mkDevice 1 7 false 0)
  = ([mkResult false 1 (Some DeviceUnavailable);
      mkResult false 14 (Some DeviceUnavailable)],
     mkDevice 1 7 false 0, []).
Proof.
  pose proof (bulk_unavailable fails_twice (fun _ => [])
                [mkCmd "bool" 1 (VBool true); mkCmd "enum" 14 (VNum 2)]
                100 (mkDevice 1 7 false 0) eq_refl) as (H1 & H2 & H3 & _).
  destruct (sendBulkCommands _ _ _ _ _) as [[rs st'] ev].
  cbn [fst snd] in *. subst. reflexivity.
Defined.

End DispatcherFacts.
(* ===================================================================== *)
(** * Properties of the time synchronisation                              *)
(* ===================================================================== *)

Module TimeSyncFacts.
Import Js JsFacts TimeSync.

Lemma byte_to_Z_inj (a b : byte) : byte_to_Z a = byte_to_Z b -> a = b.
Proof.
  intros H. rewrite <- (byte_of_to_Z a), <- (byte_of_to_Z b), H. reflexivity.
Qed.

(** The flag is cleared exactly for the two short-form prefixes. *)
Lemma use10Bytes_false_iff (request : option TimeRequest) :
  use10Bytes request = false <-> short_form_prefix request.
Proof.
  unfold use10Bytes, short_form_prefix.
  destruct (reqData request) as [| |[|b0 [|b1 rest]]];
    try (split; [discriminate | intros (b & r & H & _); discriminate]).
  split.
  - intros H.
    destruct (Z.eqb_spec (byte_to_Z b0) 0) as [E0|]; [|discriminate].
    change 0 with (byte_to_Z Byte.x00) in E0. apply byte_to_Z_inj in E0. subst b0.
    exists b1, rest. split; [reflexivity|]. cbn [andb] in H.
    destruct (Z.eqb_spec (byte_to_Z b1) 6) as [E1|].
    + left. apply byte_to_Z_inj. exact E1.
    + destruct (Z.eqb_spec (byte_to_Z b1) 0) as [E1|]; [|discriminate].
      right. apply byte_to_Z_inj. exact E1.
  - intros (b & r & H & Hb). injection H as -> -> ->.
    destruct Hb as [-> | ->]; reflexivity.
Qed.

(** C7, as stated, fails: a time response without a request carries the
    10-byte payload that starts with 00 08, not the 8-byte one. *)
Lemma absent_request_gets_10_bytes :
  exists p,
    sendTimeResponse example_env None = (Ok tt, Some p)
    /\ List.length p = 10%nat
    /\ take 2 p = [Byte.x00; Byte.x08]
    /\ p <> be32 1700000000 ++ be32 1700003600.
Proof.
  eexists. split; [vm_compute; reflexivity|].
  split; [reflexivity|]. split; [reflexivity|]. discriminate.
Qed.

(** C7, amended. With both timestamps in the unsigned 32-bit range, the
    payload is the 8 bytes [UTC (4, big-endian)][local (4, big-endian)]
    exactly when the request carries a buffer of at least two bytes that
    starts with 00 06 or 00 00; in every other case, an absent request
    included, it is the 10 bytes 00 08 followed by the same two
    timestamps; local is UTC plus the offset computed for the response. *)
Theorem time_response_spec (env : TimeEnv) (request : option TimeRequest) :
  let utc := now_ms env / 1000 in
  let loc := utc + offsetSeconds env in
  0 <= utc < 2 ^ 32 ->
  0 <= loc < 2 ^ 32 ->
  has_endpoint env = true ->
  has_cluster env = true ->
  exists p,
    snd (sendTimeResponse env request) = Some p
    /\ (short_form_prefix request ->
        p = be32 utc ++ be32 loc /\ List.length p = 8%nat)
    /\ (~ short_form_prefix request ->
        p = [Byte.x00; Byte.x08] ++ be32 utc ++ be32 loc
        /\ List.length p = 10%nat)
    /\ (request = None -> List.length p = 10%nat)
    /\ Codec.big_endian (be32 utc) = utc
    /\ Codec.big_endian (be32 loc) = loc.
Proof.
  intros utc loc Hutc Hloc Hep Hcl.
  assert (Wu : writeUInt32BE utc = Ok (be32 utc)).
  { unfold writeUInt32BE.
    destruct (Z.ltb_spec utc 0); [lia|].
    destruct (Z.gtb_spec utc 4294967295); [lia|]. reflexivity. }
  assert (Wl : writeUInt32BE loc = Ok (be32 loc)).
  { unfold writeUInt32BE.
    destruct (Z.ltb_spec loc 0); [lia|].
    destruct (Z.gtb_spec loc 4294967295); [lia|]. reflexivity. }
  pose proof (use10Bytes_false_iff request) as Hflag.
  unfold sendTimeResponse, time_payload.
  fold utc. fold loc. rewrite Wu, Wl, Hep, Hcl. cbn [negb].
  destruct (use10Bytes request) eqn:E.
  - exists ([Byte.x00; Byte.x08] ++ be32 utc ++ be32 loc).
    split; [destruct (setTime_rejects env); reflexivity|].
    split; [intros H; apply Hflag in H; discriminate|].
    split; [intros _; split; reflexivity|].
    split; [reflexivity|].
    split; apply CodecFacts.big_endian_be32; assumption.
  - exists (be32 utc ++ be32 loc).
    split; [destruct (setTime_rejects env); reflexivity|].
    split; [intros _; split; reflexivity|].
    split; [intros H; exfalso; apply H, Hflag; reflexivity|].
    split; [intros ->; discriminate|].
    split; apply CodecFacts.big_endian_be32; assumption.
Qed.

Lemma time_response_spec_witness :
  exists p,
    snd (sendTimeResponse example_env
           (Some (mkRequest (Buf [Byte.x00; Byte.x06]) Missing))) = Some p
    /\ List.length p = 8%nat.
Proof.
  destruct (time_response_spec example_env
              (Some (mkRequest (Buf [Byte.x00; Byte.x06]) Missing)))
    as (p & Hp & Hshort & _).
  - vm_compute. split; [discriminate | reflexivity].
  - vm_compute. split; [discriminate | reflexivity].
  - reflexivity.
  - reflexivity.
  - exists p. split; [exact Hp|].
    apply Hshort. exists Byte.x06, []. split; [reflexivity | left; reflexivity].
Defined.

End TimeSyncFacts.
(* ===================================================================== *)
(** * Properties of commands submitted during a command                   *)
(* ===================================================================== *)

Module CancellationFacts.
Import Js Cancellation.


(** [n] attempts that are rejected while nothing aborts the signal: each
    transmits, waits the whole delay and hands over to the next. *)
Lemma withRetry_loop_undisturbed (w : Outside) (p : Policy) :
  forall n left i lastErr,
    (n <= left)%nat ->
    (i + n <= retries p)%nat ->
    ((0 < n)%nat -> 0 < delayMs p) ->
    (forall j, (j < n)%nat ->
        (exists msg, tx w (i + j) = Some msg /\ msg <> "aborted"%string)
        /\ abort_in_tx w (i + j) = false
        /\ abort_in_sleep w (i + j) = false) ->
    exists lastErr',
      withRetry_loop w p left i false lastErr
      = let '(r, a, ev) :=
          withRetry_loop w p (left - n) (i + n) false lastErr' in
        (r, a, flat_map (fun _ => [Transmit; Sleep (delayMs p)]) (seq 0 n) ++ ev).
Proof.
  induction n as [|n IH]; intros left i lastErr Hleft Hi Hd Hclean.
  - exists lastErr. rewrite Nat.sub_0_r, Nat.add_0_r.
    destruct (withRetry_loop w p left i false lastErr) as [[r a] ev].
    reflexivity.
  - destruct left as [|left]; [lia|].
    destruct (Hclean 0%nat ltac:(lia)) as ((msg & Htx & Hmsg) & Hat & Has).
    rewrite Nat.add_0_r in Htx, Hat, Has.
    destruct (IH left (S i) msg) as (lastErr' & E).
    + lia.
    + lia.
    + intros _. apply Hd. lia.
    + intros j Hj. replace (S i + j)%nat with (i + S j)%nat by lia.
      apply Hclean. lia.
    + exists lastErr'. cbn [withRetry_loop].
      rewrite Htx, Hat, Has. cbn [orb].
      apply String.eqb_neq in Hmsg. rewrite Hmsg.
      destruct (Nat.ltb_spec i (retries p)) as [_|]; [|lia].
      destruct (Z.ltb_spec 0 (delayMs p)) as [_|]; [|lia].
      cbn [andb]. rewrite E.
      replace (S left - S n)%nat with (left - n)%nat by lia.
      replace (i + S n)%nat with (S i + n)%nat by lia.
      destruct (withRetry_loop w p (left - n) (S i + n) false lastErr')
        as [[r a] ev].
      rewrite DispatcherFacts.flat_map_seq_S. reflexivity.
Qed.

Lemma withRetry_reaches (w : Outside) (p : Policy) (i : nat) :
  undisturbed w i ->
  (i <= retries p)%nat ->
  ((0 < i)%nat -> 0 < delayMs p) ->
  exists lastErr',
    _withRetry w p
    = let '(r, a, ev) :=
        withRetry_loop w p (S (retries p - i)) i false lastErr' in
      (r, a, attempts_before p i ++ ev).
Proof.
  intros Hu Hi Hd.
  destruct (withRetry_loop_undisturbed w p i (S (retries p)) 0 "")
    as (lastErr' & E); [lia | lia | exact Hd | exact Hu |].
  exists lastErr'. unfold _withRetry. rewrite E.
  replace (S (retries p) - i)%nat with (S (retries p - i)) by lia.
  reflexivity.
Qed.


(** A command whose signal is aborted while it waits after its [i]-th
    transmission. *)
Lemma aborted_in_wait (w : Outside) (p : Policy) (i : nat) (msg : string) :
  undisturbed w i ->
  (i < retries p)%nat ->
  0 < delayMs p ->
  tx w i = Some msg ->
  msg <> "aborted"%string ->
  abort_in_tx w i = false ->
  abort_in_sleep w i = true ->
  _executeOnCapabilityOnoff w p
  = (ResolvedAborted,
     attempts_before p i ++ [Transmit; SleepCut (delayMs p)]).
Proof.
  intros Hu Hi Hd Htx Hmsg Hat Has.
  destruct (withRetry_reaches w p i Hu) as (l & E); [lia | intros _; exact Hd |].
  unfold _executeOnCapabilityOnoff. rewrite E. cbn [withRetry_loop].
  rewrite Htx, Hat, Has. cbn [orb].
  apply String.eqb_neq in Hmsg. rewrite Hmsg.
  destruct (Nat.ltb_spec i (retries p)) as [_|]; [|lia].
  destruct (Z.ltb_spec 0 (delayMs p)) as [_|]; [|lia].
  reflexivity.
Qed.


(** A controller created later is not among those aborted. *)
Lemma fresh_not_aborted (l : list nat) (n m : nat) :
  (forall ac, In ac l -> (ac < n)%nat) ->
  (n <= m)%nat ->
  existsb (Nat.eqb m) l = false.
Proof.
  intros Hl Hm. apply not_true_iff_false. intros H.
  apply existsb_exists in H as (ac & Hin & Heq).
  apply Nat.eqb_eq in Heq. subst ac. specialize (Hl m Hin). lia.
Qed.

(** The outside of a command at [InWait i] or [InTransmission i] leaves
    it alone before. *)
Lemma outside_at_undisturbed (answers : nat -> option string)
    (pos : position) (aborted : bool) (i : nat) :
  rejected_before answers i ->
  pos = InWait i \/ pos = InTransmission i ->
  undisturbed (outside_at answers pos aborted) i.
Proof.
  intros Hr Hpos j Hj. split; [apply Hr; exact Hj|].
  destruct Hpos as [-> | ->]; cbn;
    (destruct (Nat.eqb_spec j i) as [->|_]; [lia|]); split; reflexivity.
Qed.

Section TwoCommands.

Variable c : Pair.
Variable s0 : Shared.
Hypothesis Hstarts : starts c s0.

(** The first command is started, with a controller that is not aborted. *)
Lemma first_command_enters :
  debounced_enter (valueA c) (begun c) s0 = (Proceeds, s0)
  /\ fst (execute_enter (begun c) s0) = controllers s0
  /\ signal_aborted (controllers s0) (snd (execute_enter (begun c) s0))
     = false.
Proof.
  destruct Hstarts as ((Hlock & Hpend & Hknown) & Hlast & _).
  split; [|split; [reflexivity|]].
  - unfold debounced_enter. rewrite Hlock.
    destruct (Z.ltb_spec
                (begun c - match _lastCommandTime s0 with
                           | Some t => t
                           | None => 0
                           end) 300); [lia | reflexivity].
  - unfold signal_aborted, execute_enter. cbn [snd aborted_signals].
    apply (fresh_not_aborted _ (controllers s0)); [exact Hknown | lia].
Qed.

(** The second command, submitted while the first is in flight, aborts
    the signal of the first and takes the place in the queue. *)
Lemma second_command_queued :
  debounced_enter (valueB c) (submitted c)
                  (snd (execute_enter (begun c) s0))
  = (Queued,
     mkShared true None (Some (mkPending (valueB c) (submitted c)))
              (Some (begun c)) (controllers s0 :: abort_current s0)
              (S (controllers s0))).
Proof. reflexivity. Qed.

Lemma resume_after_finally (v : bool) (now at_ : Z) (r : Run) :
  _pendingCommand (shared r) = None -> resume v now at_ r = r.
Proof.
  intros H. unfold resume, debounced_resume. rewrite H. reflexivity.
Qed.

(** The timer of 50 ms running no sooner than 300 ms after the first
    command began: the second command is entered, with a new
    controller. *)
Lemma fire_late (at_ : Z) :
  300 <= at_ - begun c ->
  fire (Some (mkPending (valueB c) (submitted c))) at_
       (mkRun (after_finally c s0) [] [])
  = Some (mkRun (mkShared true (Some (S (controllers s0))) None (Some at_)
                          (controllers s0 :: abort_current s0)
                          (S (S (controllers s0))))
                [mkBegun (valueB c) at_ (S (controllers s0))] []).
Proof.
  intros H. unfold fire, debounced_enter, after_finally.
  cbn [shared _commandLock _lastCommandTime p_value].
  destruct (Z.ltb_spec (at_ - begun c) 300); [lia|]. reflexivity.
Qed.

(** The timer of 50 ms running sooner: the second command ends as
    debounced. *)
Lemma fire_soon (at_ : Z) :
  at_ - begun c < 300 ->
  fire (Some (mkPending (valueB c) (submitted c))) at_
       (mkRun (after_finally c s0) [] [])
  = Some (mkRun (after_finally c s0) [] [(valueB c, at_)]).
Proof.
  intros H. unfold fire, debounced_enter, after_finally.
  cbn [shared _commandLock _lastCommandTime p_value].
  destruct (Z.ltb_spec (at_ - begun c) 300); [|lia]. reflexivity.
Qed.

(** The run when the first command ends, at [ends], before the sleep of
    the second is over. *)
Lemma first_ends_first (ends : Z) :
  ends - submitted c < 5000 ->
  let s2 := queued_behind c s0 in
  let resume_at := submitted c + 100 + late_sleep c in
  let fire_at := ends + 50 + late_timer c in
  (let '(s3, timer) := execute_finally (controllers s0) ends s2 in
   let r3 := mkRun s3 [] [] in
   if resume_at <=? fire_at then
     fire timer fire_at (resume (valueB c) (submitted c) resume_at r3)
   else
     option_map (resume (valueB c) (submitted c) resume_at)
                (fire timer fire_at r3))
  = fire (Some (mkPending (valueB c) (submitted c))) fire_at
         (mkRun (after_finally c s0) [] []).
Proof.
  intros H5 s2 resume_at fire_at.
  unfold execute_finally, s2, queued_behind.
  cbn [_commandAbort _pendingCommand p_time _lastCommandTime
       aborted_signals controllers].
  destruct (Z.ltb_spec (ends - submitted c) 5000); [|lia].
  fold (after_finally c s0).
  destruct (resume_at <=? fire_at).
  - rewrite resume_after_finally by reflexivity. reflexivity.
  - destruct (Z.ltb_spec (fire_at - begun c) 300) as [Hs|Hl].
    + rewrite (fire_soon fire_at Hs). cbn [option_map].
      rewrite resume_after_finally by reflexivity. reflexivity.
    + rewrite (fire_late fire_at Hl). cbn [option_map].
      rewrite resume_after_finally by reflexivity. reflexivity.
Qed.

End TwoCommands.

(** The first command runs under a signal the second has aborted. *)
Lemma supersede_aborts (c : Pair) (s0 : Shared) :
  starts c s0 ->
  supersede c s0
  = let w := outside_at (answers c) (where_ c) true in
    let '(resA, evA) := _executeOnCapabilityOnoff w (policy c) in
    let ends :=
      match where_ c with
      | InWait _ => submitted c
      | InTransmission _ => settles c
      end in
    let resume_at := submitted c + 100 + late_sleep c in
    let fire_at := ends + 50 + late_timer c in
    let finished :=
      if ends <? resume_at then
        let '(s3, timer) :=
          execute_finally (controllers s0) ends (queued_behind c s0) in
        let r3 := mkRun s3 [] [] in
        if resume_at <=? fire_at then
          fire timer fire_at (resume (valueB c) (submitted c) resume_at r3)
        else
          option_map (resume (valueB c) (submitted c) resume_at)
                     (fire timer fire_at r3)
      else if resume_at <? ends then
        let r3 := resume (valueB c) (submitted c) resume_at
                         (mkRun (queued_behind c s0) [] []) in
        let '(s4, timer) :=
          execute_finally (controllers s0) ends (shared r3) in
        fire timer fire_at (mkRun s4 (began r3) (debounced r3))
      else None in
    option_map (mkOutcome (controllers s0) (queued_behind c s0) resA evA ends)
               finished.
Proof.
  intros Hs. unfold supersede.
  destruct (first_command_enters c s0 Hs) as (-> & _ & _).
  change (execute_enter (begun c) s0)
    with (controllers s0, snd (execute_enter (begun c) s0)).
  cbv iota beta.
  rewrite (second_command_queued c s0).
  fold (queued_behind c s0).
  replace (signal_aborted (controllers s0) (queued_behind c s0)) with true;
    [reflexivity|].
  unfold signal_aborted, queued_behind. cbn [aborted_signals existsb].
  rewrite Nat.eqb_refl. reflexivity.
Qed.

(** The second command, submitted while the first waits between two
    attempts. *)
Lemma supersede_in_wait (c : Pair) (s0 : Shared) (i : nat) :
  starts c s0 ->
  where_ c = InWait i ->
  rejected_before (answers c) (S i) ->
  (i < retries (policy c))%nat ->
  0 < delayMs (policy c) ->
  supersede c s0
  = option_map
      (mkOutcome (controllers s0) (queued_behind c s0) ResolvedAborted
         (attempts_before (policy c) i
          ++ [Transmit; SleepCut (delayMs (policy c))])
         (submitted c))
      (fire (Some (mkPending (valueB c) (submitted c)))
            (submitted c + 50 + late_timer c)
            (mkRun (after_finally c s0) [] [])).
Proof.
  intros Hs Hw Hr Hi Hd. rewrite (supersede_aborts c s0 Hs). cbv zeta.
  destruct (Hr i ltac:(lia)) as (msg & Htx & Hmsg).
  rewrite (aborted_in_wait (outside_at (answers c) (where_ c) true)
             (policy c) i msg).
  - rewrite Hw.
    destruct (Z.ltb_spec (submitted c)
                         (submitted c + 100 + late_sleep c)) as [_|Hn].
    + f_equal. apply (first_ends_first c s0 (submitted c)). lia.
    + destruct Hs as (_ & _ & Hl & _). lia.
  - apply outside_at_undisturbed; [|left; exact Hw].
    intros j Hj. apply Hr. lia.
  - exact Hi.
  - exact Hd.
  - exact Htx.
  - exact Hmsg.
  - rewrite Hw. reflexivity.
  - rewrite Hw. cbn. rewrite Nat.eqb_refl. reflexivity.
Qed.








End CancellationFacts.
(* ===================================================================== *)
(** * Properties of the availability manager                              *)
(* ===================================================================== *)

Module AvailabilityFacts.
Import Js Availability.

(** ** Setters *)

Lemma set_available_same (v : bool) (d : Dev) :
  getAvailable d = v -> set_available v d = d.
Proof. destruct d; cbn; intros ->; reflexivity. Qed.

Lemma set_available_twice (v : bool) (d : Dev) :
  set_available v (set_available v d) = set_available v d.
Proof. reflexivity. Qed.

(** ** The places a filter keeps *)

Lemma elem_of_filter_from (p : Dev -> bool) (h : list Dev) :
  forall i k,
    k ∈ filter_from p h i
    <-> (i <= k)%nat /\ exists d, h !! (k - i)%nat = Some d /\ p d = true.
Proof.
  induction h as [|d h IH]; intros i k; cbn [filter_from].
  - rewrite elem_of_nil. split; [contradiction|].
    intros (_ & d & H & _). rewrite lookup_nil in H. discriminate.
  - assert (Hrest : k ∈ filter_from p h (S i)
                    <-> (i < k)%nat
                        /\ exists d', (d :: h) !! (k - i)%nat = Some d' /\ p d' = true).
    { rewrite IH. split.
      - intros (Hk & d' & Hl & Hp). split; [lia|]. exists d'. split; [|exact Hp].
        replace (k - i)%nat with (S (k - S i)) by lia. exact Hl.
      - intros (Hk & d' & Hl & Hp). split; [lia|]. exists d'. split; [|exact Hp].
        replace (k - i)%nat with (S (k - S i)) in Hl by lia. exact Hl. }
    destruct (p d) eqn:Hp.
    + rewrite elem_of_cons, Hrest. split.
      * intros [-> | (Hk & H)].
        -- split; [lia|]. exists d. rewrite Nat.sub_diag. split; [reflexivity | exact Hp].
        -- split; [lia | exact H].
      * intros (Hk & d' & Hl & Hp').
        destruct (decide (k = i)) as [->|Hne]; [left; reflexivity|].
        right. split; [lia|]. exists d'. split; assumption.
    + rewrite Hrest. split.
      * intros (Hk & H). split; [lia | exact H].
      * intros (Hk & d' & Hl & Hp').
        destruct (decide (k = i)) as [->|Hne].
        -- rewrite Nat.sub_diag in Hl. cbn in Hl. injection Hl as <-. congruence.
        -- split; [lia|]. exists d'. split; assumption.
Qed.

Lemma elem_of_filter_from_0 (p : Dev -> bool) (h : list Dev) (k : nat) :
  k ∈ filter_from p h 0 <-> exists d, h !! k = Some d /\ p d = true.
Proof.
  rewrite elem_of_filter_from, Nat.sub_0_r. split.
  - intros (_ & H). exact H.
  - intros H. split; [lia | exact H].
Qed.

(** A filter that only reads the data does not see the other fields. *)
Lemma filter_from_alter (p : Dev -> bool) (f : Dev -> Dev) (k : nat) :
  (forall d, p (f d) = p d) ->
  forall h i, filter_from p (alter f k h) i = filter_from p h i.
Proof.
  intros Hp h. revert k. induction h as [|d h IH]; intros k i; [reflexivity|].
  destruct k as [|k]; cbn [alter list_alter filter_from].
  - rewrite Hp. reflexivity.
  - change (list_alter f k h) with (alter f k h). rewrite IH. reflexivity.
Qed.

Lemma strict_eq_Some (a : option string) (s : string) :
  strict_eq a (Some s) = true <-> a = Some s.
Proof.
  destruct a as [x|]; cbn.
  - rewrite String.eqb_eq. split; congruence.
  - split; discriminate.
Qed.

Lemma truthy_string_Some (a : option string) :
  truthy_string a = true <-> exists s, a = Some s /\ s <> ""%string.
Proof.
  destruct a as [s|]; cbn.
  - rewrite negb_true_iff, String.eqb_neq. split.
    + intros H. exists s. split; [reflexivity | exact H].
    + intros (s' & E & H). injection E as ->. exact H.
  - split; [discriminate | intros (s & E & _); discriminate].
Qed.

(** The devices a filter of [_getSiblings] keeps are those that share the
    key of the device of the manager. *)
Lemma filter_shares (key : DeviceData -> option string) (m : Manager)
    (h : Host) (me : Dev) (myData : DeviceData) (i : nat) :
  h !! device m = Some me ->
  getData me = Some myData ->
  (i ∈ (if truthy_string (key myData)
        then filter_from (same_key key (key myData)) h 0 else [])
   <-> shares key m h i).
Proof.
  intros Hme Hdata. unfold shares.
  destruct (truthy_string (key myData)) eqn:Ht.
  - apply truthy_string_Some in Ht as (a & Ha & Hne).
    rewrite elem_of_filter_from_0. split.
    + intros (d & Hd & Hp). unfold same_key in Hp.
      destruct (getData d) as [dd|] eqn:Hdd; [|discriminate].
      rewrite Ha in Hp. apply strict_eq_Some in Hp.
      exists me, myData, d, dd, a. repeat split; assumption.
    + intros (me' & myData' & d & dd & a' & H1 & H2 & H3 & H4 & H5 & H6 & H7).
      rewrite Hme in H1. injection H1 as <-.
      rewrite Hdata in H2. injection H2 as <-.
      exists d. split; [exact H3|]. unfold same_key. rewrite H4, H5.
      apply strict_eq_Some. exact H6.
  - rewrite elem_of_nil. split; [contradiction|].
    intros (me' & myData' & d & dd & a' & H1 & H2 & H3 & H4 & H5 & H6 & H7).
    rewrite Hme in H1. injection H1 as <-.
    rewrite Hdata in H2. injection H2 as <-.
    assert (truthy_string (key myData) = true) as Hc.
    { apply truthy_string_Some. exists a'. split; assumption. }
    congruence.
Qed.

Lemma nonempty_elem {A} (l : list A) : (exists x, x ∈ l) <-> l <> [].
Proof.
  destruct l as [|a l]; split.
  - intros (x & H). apply elem_of_nil in H. contradiction.
  - congruence.
  - discriminate.
  - intros _. exists a. apply list_elem_of_here.
Qed.

(** The device of the manager shares its own key, when it has one. *)
Lemma shares_self (key : DeviceData -> option string) (m : Manager) (h : Host)
    (j : nat) :
  shares key m h j -> shares key m h (device m).
Proof.
  intros (me & myData & d & dd & a & H1 & H2 & H3 & H4 & H5 & H6 & H7).
  exists me, myData, me, myData, a. repeat split; assumption.
Qed.

(** The resolution of the siblings, in the order of the three strategies. *)
Lemma getSiblings_resolution (m : Manager) (h : Host) (me : Dev) :
  h !! device m = Some me ->
  ((exists j, shares ieeeAddress m h j) ->
   forall i, i ∈ _getSiblings m h <-> shares ieeeAddress m h i)
  /\ (~ (exists j, shares ieeeAddress m h j) ->
      (exists j, shares token m h j) ->
      forall i, i ∈ _getSiblings m h <-> shares token m h i)
  /\ (~ (exists j, shares ieeeAddress m h j) ->
      ~ (exists j, shares token m h j) ->
      _getSiblings m h = [device m]).
Proof.
  intros Hme. unfold _getSiblings. rewrite Hme.
  destruct (getData me) as [myData|] eqn:Hdata.
  2:{ assert (Hno : forall key j, ~ shares key m h j).
      { intros key j (me' & myData' & d & dd & a & H1 & H2 & _).
        rewrite Hme in H1. injection H1 as <-. congruence. }
      split; [intros (j & H); exfalso; exact (Hno _ _ H)|].
      split; [intros _ (j & H); exfalso; exact (Hno _ _ H)|].
      reflexivity. }
  cbv zeta.
  pose proof (fun i => filter_shares ieeeAddress m h me myData i Hme Hdata) as HI.
  pose proof (fun i => filter_shares token m h me myData i Hme Hdata) as HT.
  set (byIeee := if truthy_string (ieeeAddress myData)
                 then filter_from (same_key ieeeAddress (ieeeAddress myData)) h 0
                 else []) in *.
  set (byToken := if truthy_string (token myData)
                  then filter_from (same_key token (token myData)) h 0
                  else []) in *.
  assert (HIe : (exists j, shares ieeeAddress m h j) <-> byIeee <> []).
  { rewrite <- nonempty_elem. split; intros (j & H); exists j; apply HI; exact H. }
  assert (HTe : (exists j, shares token m h j) <-> byToken <> []).
  { rewrite <- nonempty_elem. split; intros (j & H); exists j; apply HT; exact H. }
  destruct byIeee as [|x xs] eqn:EI.
  - split; [intros H; apply HIe in H; congruence|].
    destruct byToken as [|y ys] eqn:ET.
    + split; [intros _ H; apply HTe in H; congruence|]. reflexivity.
    + split; [intros _ _ i; apply HT|].
      intros _ H. exfalso. apply H, HTe. discriminate.
  - split; [intros _ i; apply HI|].
    split; intros H; exfalso; apply H, HIe; discriminate.
Qed.

Lemma shares_decidable (key : DeviceData -> option string) (m : Manager)
    (h : Host) :
  (exists j, shares key m h j) \/ ~ (exists j, shares key m h j).
Proof.
  destruct (h !! device m) as [me|] eqn:Hme.
  2:{ right. intros (j & me' & myData' & d & dd & a & H1 & _). congruence. }
  destruct (getData me) as [myData|] eqn:Hdata.
  2:{ right. intros (j & me' & myData' & d & dd & a & H1 & H2 & _).
      rewrite Hme in H1. injection H1 as <-. congruence. }
  destruct (truthy_string (key myData)) eqn:Ht.
  - left. apply truthy_string_Some in Ht as (a & Ha & Hne).
    exists (device m), me, myData, me, myData, a. repeat split; assumption.
  - right. intros (j & me' & myData' & d & dd & a & H1 & H2 & H3 & H4 & H5 & H6 & H7).
    rewrite Hme in H1. injection H1 as <-.
    rewrite Hdata in H2. injection H2 as <-.
    assert (truthy_string (key myData) = true) as Hc.
    { apply truthy_string_Some. exists a. split; assumption. }
    congruence.
Qed.

(** The device of the manager is one of its siblings. *)
Lemma getSiblings_self (m : Manager) (h : Host) : device m ∈ _getSiblings m h.
Proof.
  destruct (h !! device m) as [me|] eqn:Hme.
  2:{ unfold _getSiblings. rewrite Hme. apply list_elem_of_here. }
  destruct (getSiblings_resolution m h me Hme) as (H1 & H2 & H3).
  destruct (shares_decidable ieeeAddress m h) as [HI|HI].
  - apply H1; [exact HI|]. destruct HI as (j & HI). exact (shares_self _ _ _ _ HI).
  - destruct (shares_decidable token m h) as [HT|HT].
    + apply H2; [exact HI | exact HT |].
      destruct HT as (j & HT). exact (shares_self _ _ _ _ HT).
    + rewrite H3 by assumption. apply list_elem_of_here.
Qed.

(** ** The two cascades *)

Lemma markUnavailable_loop_spec (idleMin : Z) (siblings : list nat) :
  forall h,
    (forall i, fst (markUnavailable_loop idleMin siblings h) !! i
               = cascaded false siblings h i)
    /\ Forall (fun e => tells_unavailable e = true)
              (snd (markUnavailable_loop idleMin siblings h)).
Proof.
  unfold cascaded.
  induction siblings as [|s rest IH]; intros h; cbn [markUnavailable_loop].
  - split; [|constructor]. intros i. cbn [fst].
    destruct (decide (i ∈ [])) as [H|_]; [apply elem_of_nil in H; contradiction|].
    destruct (h !! i); reflexivity.
  - destruct (h !! s) as [d|] eqn:Hs; [destruct (getAvailable d) eqn:Hav|].
    + destruct (IH (alter (set_available false) s h)) as [IH1 IH2].
      destruct (markUnavailable_loop idleMin rest (alter (set_available false) s h))
        as [h' ev].
      cbn [fst snd] in *. split; [|repeat constructor; exact IH2].
      intros i. rewrite IH1. clear IH1 IH2.
      destruct (decide (i = s)) as [->|Hne].
      * rewrite list_lookup_alter_eq, Hs. cbn.
        destruct (decide (s ∈ s :: rest)) as [_|H];
          [|exfalso; apply H, list_elem_of_here].
        destruct (decide (s ∈ rest)); reflexivity.
      * rewrite list_lookup_alter_ne by congruence.
        destruct (decide (i ∈ rest)) as [H|H];
          destruct (decide (i ∈ s :: rest)) as [H'|H']; try reflexivity.
        -- exfalso. apply H'. apply list_elem_of_further. exact H.
        -- exfalso. apply elem_of_cons in H' as [?|?]; [congruence | contradiction].
    + destruct (IH h) as [IH1 IH2]. split; [|exact IH2].
      intros i. rewrite IH1. clear IH1 IH2.
      destruct (decide (i = s)) as [->|Hne].
      * rewrite Hs. cbn.
        destruct (decide (s ∈ s :: rest)) as [_|H];
          [|exfalso; apply H, list_elem_of_here].
        destruct (decide (s ∈ rest)); cbn; [reflexivity|].
        rewrite set_available_same by exact Hav. reflexivity.
      * destruct (decide (i ∈ rest)) as [H|H];
          destruct (decide (i ∈ s :: rest)) as [H'|H']; try reflexivity.
        -- exfalso. apply H'. apply list_elem_of_further. exact H.
        -- exfalso. apply elem_of_cons in H' as [?|?]; [congruence | contradiction].
    + destruct (IH h) as [IH1 IH2]. split; [|exact IH2].
      intros i. rewrite IH1. clear IH1 IH2.
      destruct (decide (i = s)) as [->|Hne].
      * rewrite Hs. reflexivity.
      * destruct (decide (i ∈ rest)) as [H|H];
          destruct (decide (i ∈ s :: rest)) as [H'|H']; try reflexivity.
        -- exfalso. apply H'. apply list_elem_of_further. exact H.
        -- exfalso. apply elem_of_cons in H' as [?|?]; [congruence | contradiction].
Qed.

Lemma markAvailable_loop_spec (siblings : list nat) :
  forall h,
    (forall i, fst (markAvailable_loop siblings h) !! i
               = cascaded true siblings h i)
    /\ Forall (fun e => tells_unavailable e = false)
              (snd (markAvailable_loop siblings h)).
Proof.
  unfold cascaded.
  induction siblings as [|s rest IH]; intros h; cbn [markAvailable_loop].
  - split; [|constructor]. intros i. cbn [fst].
    destruct (decide (i ∈ [])) as [H|_]; [apply elem_of_nil in H; contradiction|].
    destruct (h !! i); reflexivity.
  - destruct (h !! s) as [d|] eqn:Hs; [destruct (getAvailable d) eqn:Hav|]; cbn [negb].
    + destruct (IH h) as [IH1 IH2]. split; [|exact IH2].
      intros i. rewrite IH1. clear IH1 IH2.
      destruct (decide (i = s)) as [->|Hne].
      * rewrite Hs. cbn.
        destruct (decide (s ∈ s :: rest)) as [_|H];
          [|exfalso; apply H, list_elem_of_here].
        destruct (decide (s ∈ rest)); cbn; [reflexivity|].
        rewrite set_available_same by exact Hav. reflexivity.
      * destruct (decide (i ∈ rest)) as [H|H];
          destruct (decide (i ∈ s :: rest)) as [H'|H']; try reflexivity.
        -- exfalso. apply H'. apply list_elem_of_further. exact H.
        -- exfalso. apply elem_of_cons in H' as [?|?]; [congruence | contradiction].
    + destruct (IH (alter (set_available true) s h)) as [IH1 IH2].
      destruct (markAvailable_loop rest (alter (set_available true) s h))
        as [h' ev].
      cbn [fst snd] in *. split; [|repeat constructor; exact IH2].
      intros i. rewrite IH1. clear IH1 IH2.
      destruct (decide (i = s)) as [->|Hne].
      * rewrite list_lookup_alter_eq, Hs. cbn.
        destruct (decide (s ∈ s :: rest)) as [_|H];
          [|exfalso; apply H, list_elem_of_here].
        destruct (decide (s ∈ rest)); reflexivity.
      * rewrite list_lookup_alter_ne by congruence.
        destruct (decide (i ∈ rest)) as [H|H];
          destruct (decide (i ∈ s :: rest)) as [H'|H']; try reflexivity.
        -- exfalso. apply H'. apply list_elem_of_further. exact H.
        -- exfalso. apply elem_of_cons in H' as [?|?]; [congruence | contradiction].
    + destruct (IH h) as [IH1 IH2]. split; [|exact IH2].
      intros i. rewrite IH1. clear IH1 IH2.
      destruct (decide (i = s)) as [->|Hne].
      * rewrite Hs. reflexivity.
      * destruct (decide (i ∈ rest)) as [H|H];
          destruct (decide (i ∈ s :: rest)) as [H'|H']; try reflexivity.
        -- exfalso. apply H'. apply list_elem_of_further. exact H.
        -- exfalso. apply elem_of_cons in H' as [?|?]; [congruence | contradiction].
Qed.

(** What a cascade leaves of a device. *)
Lemma cascaded_Some (v : bool) (siblings : list nat) (h : Host) (i : nat) (d : Dev) :
  h !! i = Some d ->
  exists d',
    cascaded v siblings h i = Some d'
    /\ getData d' = getData d
    /\ last_seen_ts d' = last_seen_ts d
    /\ health_monitoring_enabled d' = health_monitoring_enabled d
    /\ getAvailable d' = (if decide (i ∈ siblings) then v else getAvailable d).
Proof.
  intros Hd. unfold cascaded. rewrite Hd. cbn.
  destruct (decide (i ∈ siblings)); eexists; repeat split.
Qed.

Lemma cascaded_None (v : bool) (siblings : list nat) (h : Host) (i : nat) :
  h !! i = None -> cascaded v siblings h i = None.
Proof. intros Hd. unfold cascaded. rewrite Hd. reflexivity. Qed.

(** ** Storing the timestamp *)

Lemma stored_lookup (now : Z) (k : nat) (h : Host) (i : nat) :
  alter (set_last_seen now) k h !! i
  = (if decide (k = i) then set_last_seen now else id) <$> h !! i.
Proof.
  rewrite list_lookup_alter.
  destruct (decide (k = i)) as [->|]; [reflexivity|].
  destruct (h !! i); reflexivity.
Qed.

Lemma getSiblings_stored (m : Manager) (now : Z) (k : nat) (h : Host) :
  _getSiblings m (alter (set_last_seen now) k h) = _getSiblings m h.
Proof.
  unfold _getSiblings. rewrite stored_lookup.
  destruct (h !! device m) as [me|]; [|reflexivity]. cbn [fmap option_fmap option_map].
  assert (Hd : getData ((if decide (k = device m) then set_last_seen now else id) me)
               = getData me).
  { destruct (decide (k = device m)); reflexivity. }
  rewrite Hd. destruct (getData me) as [myData|]; [|reflexivity].
  cbv zeta. rewrite !filter_from_alter by reflexivity. reflexivity.
Qed.

Lemma isEnabled_lookup (m : Manager) (h h' : Host) :
  (health_monitoring_enabled <$> h' !! device m)
  = (health_monitoring_enabled <$> h !! device m) ->
  _isEnabled m h' = _isEnabled m h.
Proof.
  unfold _isEnabled. intros H.
  destruct (h' !! device m), (h !! device m); cbn in H; try discriminate;
    [injection H as ->|]; reflexivity.
Qed.

Lemma available_at_stored (now : Z) (k : nat) (h : Host) (i : nat) :
  available_at (alter (set_last_seen now) k h) i = available_at h i.
Proof.
  unfold available_at. rewrite stored_lookup.
  destruct (h !! i); [|reflexivity]. cbn.
  destruct (decide (k = i)); reflexivity.
Qed.

Lemma available_at_cascaded (v : bool) (siblings : list nat) (h h' : Host) :
  (forall i, h' !! i = cascaded v siblings h i) ->
  forall i,
    available_at h' i
    = (if decide (i ∈ siblings) then (fun _ => v) <$> h !! i
       else available_at h i).
Proof.
  intros H i. unfold available_at. rewrite H. unfold cascaded.
  destruct (h !! i); cbn; destruct (decide (i ∈ siblings)); reflexivity.
Qed.

(** ** One tick *)

Lemma times_out_iff (m : Manager) (now : Z) (h : Host) (me : Dev) :
  h !! device m = Some me ->
  (times_out m now h
   <-> _isEnabled m h = true
       /\ truthy_number (last_seen_ts me) = true
       /\ (getAvailable me && (timeout m <? now - default 0 (last_seen_ts me)))
          = true).
Proof.
  intros Hme. unfold times_out. split.
  - intros (Hen & me' & ts & H1 & Hts & Hnz & Hlt & Hav).
    rewrite Hme in H1. injection H1 as <-.
    split; [exact Hen|]. rewrite Hts. cbn. split.
    + apply negb_true_iff, Z.eqb_neq. exact Hnz.
    + rewrite Hav. cbn. apply Z.ltb_lt. exact Hlt.
  - intros (Hen & Htr & Hc). split; [exact Hen|].
    destruct (last_seen_ts me) as [ts|] eqn:Hts; [|discriminate].
    cbn in Htr, Hc. apply negb_true_iff, Z.eqb_neq in Htr.
    apply andb_true_iff in Hc as [Hav Hlt]. apply Z.ltb_lt in Hlt.
    exists me, ts. repeat split; assumption.
Qed.

Lemma idle_log_quiet (idleMin : Z) :
  Forall (fun e => tells_unavailable e = false)
    (if (Z.rem idleMin 5 =? 0) && (0 <? idleMin) then [LogIdle idleMin] else []).
Proof.
  destruct ((Z.rem idleMin 5 =? 0) && (0 <? idleMin)); repeat constructor.
Qed.

(** A tick either times out, and then it is the cascade to unavailable, or
    it changes at most the stored timestamp. *)
Lemma tick_cases (m : Manager) (now : Z) (h : Host) (me : Dev) :
  h !! device m = Some me ->
  (times_out m now h
   /\ forall i, fst (watchdog_tick m now h) !! i
                = cascaded false (_getSiblings m h) h i)
  \/ (~ times_out m now h
      /\ Forall (fun e => tells_unavailable e = false)
                (snd (watchdog_tick m now h))
      /\ ((_isEnabled m h = true
           /\ truthy_number (last_seen_ts me) = false
           /\ watchdog_tick m now h
              = (alter (set_last_seen now) (device m) h, []))
          \/ fst (watchdog_tick m now h) = h)).
Proof.
  intros Hme. pose proof (times_out_iff m now h me Hme) as Hiff.
  unfold watchdog_tick. rewrite Hme.
  destruct (_isEnabled m h) eqn:Hen; cbn [negb].
  2:{ right. split; [intros H; apply Hiff in H as (H & _); discriminate|].
      split; [constructor | right; reflexivity]. }
  destruct (truthy_number (last_seen_ts me)) eqn:Htr; cbn [negb].
  2:{ right. split; [intros H; apply Hiff in H as (_ & H & _); discriminate|].
      split; [constructor|]. left. repeat split. }
  destruct (getAvailable me && (timeout m <? now - default 0 (last_seen_ts me)))
    eqn:Hc.
  - left. split; [apply Hiff; repeat split|].
    unfold _markAllUnavailable.
    pose proof (markUnavailable_loop_spec
                  (idle_minutes (now - default 0 (last_seen_ts me)))
                  (_getSiblings m h) h) as [Hl _].
    destruct (markUnavailable_loop _ (_getSiblings m h) h) as [h' ev].
    exact Hl.
  - right. split; [intros H; apply Hiff in H as (_ & _ & H); discriminate|].
    split; [apply idle_log_quiet | right; reflexivity].
Qed.

(** ** One activity mark *)

Lemma markAlive_cases (m : Manager) (now : Z) (h : Host) (me : Dev) :
  h !! device m = Some me ->
  Forall (fun e => tells_unavailable e = false) (snd (_markAlive m now h))
  /\ ((getAvailable me = true
       /\ fst (_markAlive m now h) = alter (set_last_seen now) (device m) h)
      \/ (getAvailable me = false
          /\ forall i, fst (_markAlive m now h) !! i
                       = cascaded true (_getSiblings m h)
                           (alter (set_last_seen now) (device m) h) i)).
Proof.
  intros Hme. unfold _markAlive.
  rewrite stored_lookup, Hme. cbn [fmap option_fmap option_map].
  destruct (decide (device m = device m)) as [_|]; [|congruence].
  cbn [set_last_seen getAvailable].
  destruct (getAvailable me) eqn:Hav; cbn [negb].
  - split; [constructor|]. left. split; reflexivity.
  - unfold _markAllAvailable. rewrite getSiblings_stored.
    pose proof (markAvailable_loop_spec (_getSiblings m h)
                  (alter (set_last_seen now) (device m) h)) as [Hl He].
    destruct (markAvailable_loop (_getSiblings m h)
                (alter (set_last_seen now) (device m) h)) as [h' ev].
    cbn [fst snd] in *.
    split; [constructor; [reflexivity | exact He]|].
    right. split; [reflexivity | exact Hl].
Qed.

(** What an activity mark leaves of the device of the manager. *)
Lemma markAlive_self (m : Manager) (now : Z) (h : Host) (me : Dev) :
  h !! device m = Some me ->
  exists me',
    fst (_markAlive m now h) !! device m = Some me'
    /\ getAvailable me' = true
    /\ last_seen_ts me' = Some now
    /\ health_monitoring_enabled me' = health_monitoring_enabled me
    /\ getData me' = getData me.
Proof.
  intros Hme.
  assert (Hst : alter (set_last_seen now) (device m) h !! device m
                = Some (set_last_seen now me)).
  { rewrite list_lookup_alter_eq, Hme. reflexivity. }
  destruct (markAlive_cases m now h me Hme) as [_ [[Hav E] | [Hav E]]].
  - rewrite E, Hst. eexists. split; [reflexivity|]. repeat split. exact Hav.
  - rewrite E.
    destruct (cascaded_Some true (_getSiblings m h) _ _ _ Hst)
      as (d' & Hd' & H1 & H2 & H3 & H4).
    exists d'. split; [exact Hd'|].
    destruct (decide (device m ∈ _getSiblings m h)) as [_|Hn];
      [|exfalso; apply Hn, getSiblings_self].
    repeat split; assumption.
Qed.

(** ** A run of ticks and activity marks *)

Lemma step_within (m : Manager) (t1 : Z) (a : action) (h : Host) :
  seen_since m t1 h ->
  t1 <= action_time a <= t1 + timeout m ->
  seen_since m t1 (fst (step m a h))
  /\ (forall i, available_at h i = Some true ->
                available_at (fst (step m a h)) i = Some true)
  /\ Forall (fun e => tells_unavailable e = false) (snd (step m a h)).
Proof.
  intros (me & ts & Hme & Hts & Hle) Ht.
  destruct a as [t|t]; cbn [step action_time] in *.
  - destruct (tick_cases m t h me Hme) as [[Hout _] | (_ & Hq & Hcase)].
    { exfalso. destruct Hout as (_ & me' & ts' & H1 & H2 & _ & Hlt & _).
      rewrite Hme in H1. injection H1 as <-.
      rewrite Hts in H2. injection H2 as <-. lia. }
    split; [|split; [|exact Hq]].
    + destruct Hcase as [(_ & _ & E) | E]; rewrite E; cbn [fst].
      * exists (set_last_seen t me), t.
        rewrite list_lookup_alter_eq, Hme. repeat split. lia.
      * exists me, ts. repeat split; assumption.
    + intros i Hi.
      destruct Hcase as [(_ & _ & E) | E]; rewrite E; cbn [fst]; [|exact Hi].
      rewrite available_at_stored. exact Hi.
  - destruct (markAlive_cases m t h me Hme) as [Hq Hcase].
    split; [|split; [|exact Hq]].
    + destruct (markAlive_self m t h me Hme) as (me' & H1 & _ & H2 & _).
      exists me', t. repeat split; [exact H1 | exact H2 | lia].
    + intros i Hi.
      destruct Hcase as [[_ E] | [_ E]].
      * rewrite E, available_at_stored. exact Hi.
      * rewrite (available_at_cascaded true _ _ _ E i).
        rewrite available_at_stored.
        destruct (decide (i ∈ _getSiblings m h)); [|exact Hi].
        unfold available_at in Hi. rewrite stored_lookup.
        destruct (h !! i); [reflexivity | discriminate].
Qed.

Lemma run_within (m : Manager) (t1 : Z) (acts : list action) :
  forall h,
    seen_since m t1 h ->
    Forall (fun a => t1 <= action_time a <= t1 + timeout m) acts ->
    (forall i, available_at h i = Some true ->
               available_at (fst (run_actions m acts h)) i = Some true)
    /\ Forall (fun e => tells_unavailable e = false)
              (snd (run_actions m acts h)).
Proof.
  induction acts as [|a rest IH]; intros h Hs Hacts; cbn [run_actions].
  - split; [intros i Hi; exact Hi | constructor].
  - apply List.Forall_cons_iff in Hacts as [Ha Hrest].
    destruct (step_within m t1 a h Hs Ha) as (Hs1 & Hav1 & Hq1).
    destruct (step m a h) as [h1 ev1]. cbn [fst snd] in *.
    destruct (IH h1 Hs1 Hrest) as [Hav2 Hq2].
    destruct (run_actions m rest h1) as [h2 ev2]. cbn [fst snd] in *.
    split.
    + intros i Hi. apply Hav2, Hav1, Hi.
    + apply List.Forall_app. split; assumption.
Qed.

(** C5, as stated, fails: after an activity mark at time 0 the timestamp
    0 is stored, monitoring is on, the node is available and 600001 ms
    have passed, yet the tick at 600001 marks nothing unavailable: it
    takes the stored 0 for no timestamp and stores its own time.  And a
    tick on a node that is already unavailable still logs the idle time
    when it is a multiple of five minutes. *)
Lemma activity_at_time_zero_does_not_time_out :
  let h1 := fst (_markAlive ten_minutes 0 three_gangs) in
  _isEnabled ten_minutes h1 = true
  /\ (last_seen_ts <$> h1 !! 0%nat) = Some (Some 0)
  /\ available_at h1 0%nat = Some true
  /\ timeout ten_minutes < 600001 - 0
  /\ watchdog_tick ten_minutes 600001 h1
     = ([mkDev (getData (gang true)) true (Some 600001) None;
         gang true; gang true], [])
  /\ watchdog_tick ten_minutes 901000 [silent_gang]
     = ([silent_gang], [LogIdle 15]).
Proof.
  cbv zeta. repeat split.
Qed.

(** C5, amended. A tick turns the node from available to unavailable
    exactly when monitoring is enabled, a timestamp other than 0 is
    stored, it is older than the timeout and the node is available; it
    then sets every sibling, and no other device, unavailable.  Any other
    tick, and so every tick on a node that is already unavailable, changes
    no availability and logs neither a timeout nor a transition.  With a
    timeout of 600000 ms and a last activity at a time [t0] other than 0,
    the tick at [t0 + 600001] makes the node unavailable, and the activity
    mark after it makes it available again. *)
Theorem watchdog_spec (m : Manager) (now : Z) (h : Host) (me : Dev) :
  h !! device m = Some me ->
  let h' := fst (watchdog_tick m now h) in
  let ev := snd (watchdog_tick m now h) in
  ((getAvailable me = true /\ available_at h' (device m) = Some false)
   <-> times_out m now h)
  /\ (times_out m now h ->
      forall i, h' !! i = cascaded false (_getSiblings m h) h i)
  /\ (~ times_out m now h ->
      (forall i, available_at h' i = available_at h i)
      /\ Forall (fun e => tells_unavailable e = false) ev)
  /\ (getAvailable me = false ->
      (forall i, available_at h' i = available_at h i)
      /\ Forall (fun e => tells_unavailable e = false) ev)
  /\ (forall t0,
        t0 <> 0 ->
        timeout m = 600000 ->
        _isEnabled m h = true ->
        let h1 := fst (_markAlive m t0 h) in
        let h2 := fst (watchdog_tick m (t0 + 600001) h1) in
        let h3 := fst (_markAlive m (t0 + 600002) h2) in
        available_at h1 (device m) = Some true
        /\ available_at h2 (device m) = Some false
        /\ available_at h3 (device m) = Some true).
Proof.
  intros Hme h' ev.
  assert (Hquiet : ~ times_out m now h ->
                   (forall i, available_at h' i = available_at h i)
                   /\ Forall (fun e => tells_unavailable e = false) ev).
  { intros Hno.
    destruct (tick_cases m now h me Hme) as [[Hout _] | (_ & Hq & Hcase)];
      [contradiction|].
    split; [|exact Hq].
    intros i. subst h'.
    destruct Hcase as [(_ & _ & E) | E]; rewrite E; cbn [fst]; [|reflexivity].
    apply available_at_stored. }
  assert (Hfires : times_out m now h ->
                   forall i, h' !! i = cascaded false (_getSiblings m h) h i).
  { intros Hout.
    destruct (tick_cases m now h me Hme) as [[_ Hl] | (Hno & _)];
      [exact Hl | contradiction]. }
  split; [|split; [exact Hfires|split; [exact Hquiet|split]]].
  - split.
    + intros [Hav Hun].
      destruct (tick_cases m now h me Hme) as [[Hout _] | (Hno & _)];
        [exact Hout|].
      exfalso. destruct (Hquiet Hno) as [Hsame _].
      rewrite Hsame in Hun. unfold available_at in Hun.
      rewrite Hme in Hun. cbn in Hun. congruence.
    + intros Hout. split.
      * destruct Hout as (_ & me' & ts & H1 & _ & _ & _ & Hav).
        rewrite Hme in H1. injection H1 as <-. exact Hav.
      * unfold available_at. rewrite (Hfires Hout).
        destruct (cascaded_Some false (_getSiblings m h) h _ _ Hme)
          as (d' & -> & _ & _ & _ & Hav).
        cbn. rewrite Hav.
        destruct (decide (device m ∈ _getSiblings m h)) as [_|Hn];
          [reflexivity | exfalso; apply Hn, getSiblings_self].
  - intros Hav. apply Hquiet.
    intros (_ & me' & ts & H1 & _ & _ & _ & Hav').
    rewrite Hme in H1. injection H1 as <-. congruence.
  - intros t0 Ht0 Htimeout Hen h1 h2 h3.
    destruct (markAlive_self m t0 h me Hme) as (me1 & Hme1 & Hav1 & Hts1 & Hh1 & _).
    fold h1 in Hme1.
    assert (Hen1 : _isEnabled m h1 = true).
    { rewrite <- Hen. apply isEnabled_lookup. rewrite Hme1, Hme. cbn. congruence. }
    assert (Hout : times_out m (t0 + 600001) h1).
    { split; [exact Hen1|]. exists me1, t0.
      repeat split; try assumption. lia. }
    destruct (tick_cases m (t0 + 600001) h1 me1 Hme1) as [[_ Hl] | (Hno & _)];
      [|contradiction].
    fold h2 in Hl.
    destruct (cascaded_Some false (_getSiblings m h1) h1 _ _ Hme1)
      as (me2 & Hme2 & _ & _ & _ & Hav2).
    rewrite <- Hl in Hme2.
    destruct (decide (device m ∈ _getSiblings m h1)) as [_|Hn];
      [|exfalso; apply Hn, getSiblings_self].
    destruct (markAlive_self m (t0 + 600002) h2 me2 Hme2)
      as (me3 & Hme3 & Hav3 & _).
    fold h3 in Hme3.
    unfold available_at. rewrite Hme1, Hme2, Hme3. cbn.
    rewrite Hav1, Hav2, Hav3. repeat split.
Qed.

Lemma watchdog_spec_witness :
  available_at
    (fst (watchdog_tick ten_minutes (1000 + 600001)
            (fst (_markAlive ten_minutes 1000 switch_and_plug)))) 0%nat
  = Some false.
Proof.
  pose proof (watchdog_spec ten_minutes 0 switch_and_plug (gang true) eq_refl)
    as (_ & _ & _ & _ & H).
  destruct (H 1000) as (_ & H2 & _).
  - discriminate.
  - reflexivity.
  - reflexivity.
  - exact H2.
Defined.

(** C6. The siblings are resolved in the order of the three strategies:
    the devices that share the address of the device when there are any,
    else those that share its token when there are any, else the device
    alone; the device is always one of them.  Both cascades, and so the
    tick that times out and the activity mark on an unavailable node, set
    the availability of exactly these devices and leave every other device
    as it is.  For three gangs with one address and a plug with another,
    the timeout marks the three gangs and not the plug, and the activity
    mark restores the three. *)
Theorem cascade_spec (m : Manager) (h : Host) (me : Dev) :
  h !! device m = Some me ->
  let siblings := _getSiblings m h in
  ((exists j, shares ieeeAddress m h j) ->
   forall i, i ∈ siblings <-> shares ieeeAddress m h i)
  /\ (~ (exists j, shares ieeeAddress m h j) ->
      (exists j, shares token m h j) ->
      forall i, i ∈ siblings <-> shares token m h i)
  /\ (~ (exists j, shares ieeeAddress m h j) ->
      ~ (exists j, shares token m h j) ->
      siblings = [device m])
  /\ device m ∈ siblings
  /\ (forall idleMin i,
        fst (_markAllUnavailable m idleMin h) !! i = cascaded false siblings h i)
  /\ (forall i, fst (_markAllAvailable m h) !! i = cascaded true siblings h i)
  /\ (forall now i,
        times_out m now h ->
        fst (watchdog_tick m now h) !! i = cascaded false siblings h i)
  /\ (forall now i,
        getAvailable me = false ->
        fst (_markAlive m now h) !! i
        = cascaded true siblings (alter (set_last_seen now) (device m) h) i)
  /\ (let h1 := fst (_markAlive ten_minutes 1000 switch_and_plug) in
      let h2 := fst (watchdog_tick ten_minutes 601001 h1) in
      let h3 := fst (_markAlive ten_minutes 601002 h2) in
      _getSiblings ten_minutes switch_and_plug = [0; 1; 2]%nat
      /\ map (available_at h2) [0; 1; 2; 3]%nat
         = [Some false; Some false; Some false; Some true]
      /\ map (available_at h3) [0; 1; 2; 3]%nat
         = [Some true; Some true; Some true; Some true]).
Proof.
  intros Hme siblings.
  destruct (getSiblings_resolution m h me Hme) as (R1 & R2 & R3).
  split; [exact R1|]. split; [exact R2|]. split; [exact R3|].
  split; [apply getSiblings_self|].
  split; [intros idleMin i; apply markUnavailable_loop_spec|].
  split; [intros i; apply markAvailable_loop_spec|].
  split.
  { intros now i Hout.
    destruct (tick_cases m now h me Hme) as [[_ Hl] | (Hno & _)];
      [apply Hl | contradiction]. }
  split.
  { intros now i Hav.
    destruct (markAlive_cases m now h me Hme) as [_ [[Hav' _] | [_ E]]];
      [congruence | apply E]. }
  cbv zeta. repeat split.
Qed.

Lemma cascade_spec_witness :
  2%nat ∈ _getSiblings ten_minutes switch_and_plug
  <-> shares ieeeAddress ten_minutes switch_and_plug 2%nat.
Proof.
  pose proof (cascade_spec ten_minutes switch_and_plug (gang true) eq_refl)
    as (H & _).
  apply H. exists 0%nat.
  exists (gang true), (mkData (Some "a4:c1:38:00:00:00:00:01"%string) None),
    (gang true), (mkData (Some "a4:c1:38:00:00:00:00:01"%string) None),
    "a4:c1:38:00:00:00:00:01"%string.
  repeat split. discriminate.
Defined.

(** C10. A tick with monitoring enabled and no timestamp stored stores its
    own time, changes no availability and logs nothing; whatever ticks and
    activity marks follow within one timeout of that tick, no device that
    was available is made unavailable. *)
Theorem first_tick_spec (m : Manager) (now : Z) (h : Host) (me : Dev) :
  h !! device m = Some me ->
  _isEnabled m h = true ->
  truthy_number (last_seen_ts me) = false ->
  let h1 := fst (watchdog_tick m now h) in
  watchdog_tick m now h = (alter (set_last_seen now) (device m) h, [])
  /\ (last_seen_ts <$> h1 !! device m) = Some (Some now)
  /\ (forall i, available_at h1 i = available_at h i)
  /\ (forall acts,
        Forall (fun a => now <= action_time a <= now + timeout m) acts ->
        (forall i, available_at h i = Some true ->
                   available_at (fst (run_actions m acts h1)) i = Some true)
        /\ Forall (fun e => tells_unavailable e = false)
                  (snd (run_actions m acts h1))).
Proof.
  intros Hme Hen Hno h1.
  assert (E : watchdog_tick m now h
              = (alter (set_last_seen now) (device m) h, [])).
  { unfold watchdog_tick. rewrite Hen, Hme, Hno. reflexivity. }
  assert (Hh1 : h1 = alter (set_last_seen now) (device m) h).
  { unfold h1. rewrite E. reflexivity. }
  clearbody h1. subst h1.
  split; [exact E|]. split; [|split].
  - rewrite list_lookup_alter_eq, Hme. reflexivity.
  - intros i. apply available_at_stored.
  - intros acts Hacts.
    assert (Hs : seen_since m now (alter (set_last_seen now) (device m) h)).
    { exists (set_last_seen now me), now.
      rewrite list_lookup_alter_eq, Hme. repeat split. lia. }
    destruct (run_within m now acts _ Hs Hacts) as [Hav Hq].
    split; [|exact Hq].
    intros i Hi. apply Hav. rewrite available_at_stored. exact Hi.
Qed.

Lemma first_tick_spec_witness :
  watchdog_tick ten_minutes 5000 three_gangs
  = (alter (set_last_seen 5000) 0%nat three_gangs, []).
Proof.
  apply (first_tick_spec ten_minutes 5000 three_gangs (gang true));
    reflexivity.
Defined.

End AvailabilityFacts.
(* ===================================================================== *)
(** * Further properties of the codec                                     *)
(* ===================================================================== *)

Module DecodersFacts.
Import Js JsFacts Codec CodecFacts Decoders.

(** A shifted accumulator and an octet: [|] and [+] give the same. *)
Lemma bor_shl_add (a : Z) (b : byte) :
  bor (shl a 8) (byte_to_Z b) = shl a 8 + byte_to_Z b.
Proof.
  pose proof (byte_to_Z_range b) as Hb.
  unfold bor, shl.
  change (8 mod 32) with 8. rewrite Z.shiftl_mul_pow2 by lia.
  change (2 ^ 8) with 256.
  rewrite (to_int32_small (to_int32 _)) by apply to_int32_range.
  rewrite (to_int32_small (byte_to_Z b)) by lia.
  destruct (to_int32_decomp (to_int32 a * 256)) as [j Hj].
  assert (Hm : to_int32 (to_int32 a * 256) = (to_int32 a + j * 2 ^ 24) * 256).
  { rewrite Hj. change (2 ^ 32) with (2 ^ 24 * 256). ring. }
  rewrite Hm. apply lor_octet. lia.
Qed.

Lemma bufToUint32_convert (d : Buffer) :
  _bufToUint32 d = convertMultiByteNumberPayloadToSingleDecimalNumber d.
Proof.
  rewrite convert_fold. unfold _bufToUint32.
  generalize 0. induction d as [|b d IH]; intros a; cbn [fold_left].
  - reflexivity.
  - rewrite bor_shl_add. apply IH.
Qed.

Lemma reduce_convert (d : Buffer) :
  reduce_shift_or d = convertMultiByteNumberPayloadToSingleDecimalNumber d.
Proof. symmetry. apply convert_fold. Qed.

(** X1. On every frame the decoder of the 4-gang switch, which sums where
    the helper library ors, and the decoder the siren and the clock sensor
    carry inline give the value, or the error for an unsupported datatype,
    that the library's [getDataValue] gives. *)
Theorem decoders_agree (dt : Z) (d : Buffer) :
  _parseDataValue dt d = decode dt d
  /\ inline_getDataValue dt d = decode dt d.
Proof.
  unfold _parseDataValue, inline_getDataValue, decode, getDataValue,
    TUYA_raw, TUYA_bool, TUYA_value, TUYA_string, TUYA_enum, TUYA_bitmap.
  cbn [data datatype].
  rewrite bufToUint32_convert, reduce_convert. split; reflexivity.
Qed.

Lemma big_endian_acc (d : Buffer) :
  forall a,
    fold_left (fun acc b => acc * 256 + byte_to_Z b) d a
    = a * 256 ^ Z.of_nat (List.length d) + big_endian d.
Proof.
  unfold big_endian.
  induction d as [|b d IH]; intros a; cbn [fold_left List.length].
  - change (256 ^ Z.of_nat 0) with 1. lia.
  - rewrite IH, (IH (0 * 256 + byte_to_Z b)).
    rewrite Nat2Z.inj_succ, Z.pow_succ_r by lia. ring.
Qed.

Lemma big_endian_app (p d : Buffer) :
  big_endian (p ++ d)
  = big_endian p * 256 ^ Z.of_nat (List.length d) + big_endian d.
Proof.
  unfold big_endian at 1. rewrite fold_left_app.
  fold (big_endian p). apply big_endian_acc.
Qed.

(** X2. A value is decoded as a signed 32-bit number: the result lies
    between -2^31 and 2^31 - 1; of a buffer longer than four bytes only
    the last four count; and the four bytes of the two's complement of a
    number in that range decode to that number, negative ones included. *)
Theorem value_decoding_is_signed32 (d : Buffer) :
  - 2 ^ 31 <= convertMultiByteNumberPayloadToSingleDecimalNumber d < 2 ^ 31
  /\ (forall tail,
        List.length tail = 4%nat ->
        convertMultiByteNumberPayloadToSingleDecimalNumber (d ++ tail)
        = convertMultiByteNumberPayloadToSingleDecimalNumber tail)
  /\ (forall v,
        - 2 ^ 31 <= v < 2 ^ 31 ->
        decode TUYA_value (twos_complement32 v) = Ok (VNum v)).
Proof.
  split; [|split].
  - rewrite convert_big_endian. apply to_int32_range.
  - intros tail Hlen. rewrite !convert_big_endian, big_endian_app, Hlen.
    apply (to_int32_cong _ _ (big_endian d)).
    change (256 ^ Z.of_nat 4) with (2 ^ 32). ring.
  - intros v Hv. rewrite decode_value. do 2 f_equal.
    unfold twos_complement32.
    rewrite convert_big_endian, big_endian_be32
      by (apply Z.mod_pos_bound; lia).
    rewrite <- (to_int32_small v Hv) at 2.
    apply (to_int32_cong _ _ (- (v / 2 ^ 32))).
    pose proof (Z.div_mod v (2 ^ 32)). lia.
Qed.

Lemma value_decoding_is_signed32_witness :
  decode TUYA_value (twos_complement32 (-15)) = Ok (VNum (-15)).
Proof.
  apply (value_decoding_is_signed32 []). lia.
Defined.

(** X3. What a write method puts in the buffer reads back: a boolean as
    itself, an enum between 0 and 255 as itself, a buffer as itself, and a
    32-bit value [v] as [v] when it is below 2^31 and as [v - 2^32], a
    negative number, when it is not. *)
Theorem written_buffers_read_back :
  (forall b,
      exists buf, writeBool_buffer (VBool b) = Ok buf
                  /\ decode TUYA_bool buf = Ok (VBool b))
  /\ (forall v,
        0 <= v <= 255 ->
        exists buf, writeEnum_buffer (VNum v) = Ok buf
                    /\ decode TUYA_enum buf = Ok (VNum v))
  /\ (forall raw,
        exists buf, writeRaw_buffer (VBuf raw) = Ok buf
                    /\ decode TUYA_raw buf = Ok (VBuf raw))
  /\ (forall v,
        0 <= v <= 4294967295 ->
        exists buf,
          writeData32_buffer (VNum v) = Ok buf
          /\ List.length buf = 4%nat
          /\ decode TUYA_value buf
             = Ok (VNum (if v <? 2 ^ 31 then v else v - 2 ^ 32))).
Proof.
  split; [|split; [|split]].
  - intros b. eexists. split; [reflexivity|]. destruct b; reflexivity.
  - intros v Hv. exists [byte_of_Z v]. split.
    + cbn. destruct (Z.ltb_spec v 0); [lia|].
      destruct (Z.gtb_spec v 255); [lia|]. reflexivity.
    + unfold decode, getDataValue. cbn.
      rewrite byte_to_of_Z, Z.mod_small by lia. reflexivity.
  - intros raw. exists raw. split; reflexivity.
  - intros v Hv. exists (be32 v). split; [|split].
    + cbn. destruct (Z.ltb_spec v 0); [lia|].
      destruct (Z.gtb_spec v 4294967295); [lia|]. reflexivity.
    + reflexivity.
    + rewrite decode_value. do 2 f_equal.
      rewrite convert_big_endian, big_endian_be32 by lia.
      destruct (Z.ltb_spec v (2 ^ 31)).
      * apply to_int32_small. lia.
      * rewrite <- (to_int32_small (v - 2 ^ 32)) by lia.
        apply (to_int32_cong _ _ 1). ring.
Qed.

Lemma written_buffers_read_back_witness :
  exists buf,
    writeData32_buffer (VNum 4294967295) = Ok buf
    /\ List.length buf = 4%nat
    /\ decode TUYA_value buf = Ok (VNum (-1)).
Proof.
  destruct written_buffers_read_back as (_ & _ & _ & H).
  apply (H 4294967295). lia.
Defined.

(** X4. A string is written one octet per code unit, so it reads back
    with every code unit reduced modulo 256: unchanged exactly when all
    its code units are below 256. *)
Theorem written_string_reads_back_modulo_256 (s : jsstring) :
  decode TUYA_string (writeString_buffer s)
  = Ok (VStr (map (fun c => c mod 256) s))
  /\ (decode TUYA_string (writeString_buffer s) = Ok (VStr s)
      <-> Forall (fun c => 0 <= c < 256) s).
Proof.
  assert (E : decode TUYA_string (writeString_buffer s)
              = Ok (VStr (map (fun c => c mod 256) s))).
  { unfold decode, getDataValue. cbn.
    unfold fromCharCode, writeString_buffer, latin1. rewrite map_map.
    do 2 f_equal. apply map_ext. intros c. apply byte_to_of_Z. }
  split; [exact E|]. rewrite E. clear E. split.
  - intros H. injection H as H.
    induction s as [|c s IH]; [constructor|].
    cbn in H. injection H as Hc Hs. constructor; [|apply IH; exact Hs].
    rewrite <- Hc. apply Z.mod_pos_bound. lia.
  - intros H. do 2 f_equal.
    induction H as [|c s Hc _ IH]; [reflexivity|].
    cbn. rewrite IH, Z.mod_small by lia. reflexivity.
Qed.

End DecodersFacts.
(* ===================================================================== *)
(** * Further properties of the dispatcher                                *)
(* ===================================================================== *)

Module DispatcherMoreFacts.
Import Js Dispatcher DispatcherFacts DispatcherMore.

Lemma map_seq_from {A} (n : nat) :
  forall (f : nat -> A) s,
    map f (seq s n) = map (fun j => f (s + j)%nat) (seq 0 n).
Proof.
  induction n as [|n IH]; intros f s; [reflexivity|].
  cbn [seq map]. rewrite Nat.add_0_r. f_equal.
  rewrite (IH f (S s)), (IH (fun j => f (s + j)%nat) 1%nat).
  apply map_ext. intros j. f_equal. lia.
Qed.

(** Frames with consecutive transaction ids, one list after the other. *)
Lemma frames_app (tid dp dt : Z) (data : Buffer) (n1 n2 : nat) :
  map (frame_at tid dp dt data) (seq 0 n1)
  ++ map (frame_at (tid + Z.of_nat n1) dp dt data) (seq 0 n2)
  = map (frame_at tid dp dt data) (seq 0 (n1 + n2)).
Proof.
  rewrite seq_app, map_app. f_equal. cbn [Nat.add].
  rewrite (map_seq_from n2 _ n1). apply map_ext. intros j.
  unfold frame_at. do 2 f_equal. lia.
Qed.

Section WriteFacts.

Variable world : nat -> answer.

Lemma backoff_transmits_nothing (c : bool) (ms : Z) :
  transmissions (if c then [Timeout RetryBackoff ms] else []) = [].
Proof. destruct c; reflexivity. Qed.

Lemma retry_loop_frames (dp dt : Z) (data : Buffer) (maxRetries : nat)
    (baseDelay : Z) (left : nat) :
  forall (attempt : nat) (lastError : option error) (st : Device),
    let out := retry_loop world left attempt maxRetries baseDelay
                          dp dt data lastError st in
    let st' := snd (fst out) in
    let sent := transmissions (snd out) in
    sent = map (frame_at (_transactionID st) dp dt data)
               (seq 0 (List.length sent))
    /\ _transactionID st' = _transactionID st + Z.of_nat (List.length sent)
    /\ tuyaEndpoint st' = tuyaEndpoint st
    /\ getAvailable st' = getAvailable st
    /\ Forall (fun f => 0 <= transid f < 256) sent.
Proof.
  cbv zeta.
  induction left as [|left IH]; intros attempt lastError st.
  - cbn. rewrite Z.add_0_r. repeat split. constructor.
  - cbn [retry_loop]. unfold attempt_once.
    destruct (world (attempts_made st)).
    + match goal with
      | |- context [retry_loop world left ?a ?m ?b ?p ?t ?d ?l ?s] =>
          specialize (IH a l s);
          destruct (retry_loop world left a m b p t d l s) as [[r st2] ev2]
      end.
      cbn [fst snd _transactionID tuyaEndpoint getAvailable] in *.
      rewrite !transmissions_app, backoff_transmits_nothing.
      cbn [transmissions flat_map app]. exact IH.
    + match goal with
      | |- context [retry_loop world left ?a ?m ?b ?p ?t ?d ?l ?s] =>
          specialize (IH a l s);
          destruct (retry_loop world left a m b p t d l s) as [[r st2] ev2]
      end.
      cbn [fst snd _transactionID tuyaEndpoint getAvailable] in *.
      rewrite !transmissions_app, backoff_transmits_nothing.
      cbn [transmissions flat_map app List.length].
      destruct IH as (IH1 & IH2 & IH3 & IH4 & IH5).
      set (n := List.length (transmissions ev2)) in *.
      split; [|split; [|split; [|split]]].
      * rewrite IH1 at 1.
        change (S n) with (1 + n)%nat.
        rewrite <- (frames_app (_transactionID st) dp dt data 1 n).
        cbn [seq map app]. unfold frame_at.
        change (Z.of_nat 0) with 0. change (Z.of_nat 1) with 1.
        rewrite Z.add_0_r. reflexivity.
      * rewrite IH2. lia.
      * exact IH3.
      * exact IH4.
      * constructor; [|exact IH5]. cbn. apply Z.mod_pos_bound. lia.
    + cbn [fst snd transmissions flat_map app List.length seq map
           _transactionID tuyaEndpoint getAvailable].
      unfold frame_at. change (Z.of_nat 0) with 0. change (Z.of_nat 1) with 1.
      rewrite Z.add_0_r. repeat split.
      constructor; [|constructor]. cbn. apply Z.mod_pos_bound. lia.
Qed.

(** X5. The transmissions of one write carry status 0, the datapoint, the
    datatype, the data and its length, and transaction ids that follow one
    another modulo 256 from the counter of the device; the counter grows
    by the number of transmissions (an attempt that finds no cluster
    takes no id), and the write changes neither the endpoint nor the
    availability of the device. *)
Theorem write_frames_are_numbered (dp dt : Z) (data : Buffer)
    (maxRetries : nat) (baseDelay : Z) (st : Device) :
  let out := _sendTuyaDatapoint world dp dt data maxRetries baseDelay st in
  let st' := snd (fst out) in
  let sent := transmissions (snd out) in
  sent = map (frame_at (_transactionID st) dp dt data)
             (seq 0 (List.length sent))
  /\ _transactionID st' = _transactionID st + Z.of_nat (List.length sent)
  /\ tuyaEndpoint st' = tuyaEndpoint st
  /\ getAvailable st' = getAvailable st
  /\ Forall (fun f => 0 <= transid f < 256) sent.
Proof.
  apply retry_loop_frames.
Qed.

End WriteFacts.

Lemma ids_from_app (tid : Z) (n1 n2 : nat) :
  ids_from tid n1 ++ ids_from (tid + Z.of_nat n1) n2 = ids_from tid (n1 + n2).
Proof.
  unfold ids_from. rewrite seq_app, map_app. f_equal. cbn [Nat.add].
  rewrite (map_seq_from n2 _ n1). apply map_ext. intros j.
  f_equal. lia.
Qed.

Lemma ids_of_frames (tid dp dt : Z) (data : Buffer) (n : nat) :
  map transid (map (frame_at tid dp dt data) (seq 0 n)) = ids_from tid n.
Proof. rewrite map_map. reflexivity. Qed.

Section BulkMore.

Variable world : nat -> answer.
Variable js_String : value -> jsstring.

(** A bulk command is the write of what [encode_cmd] gives, with two
    retries from 200 ms; a command that does not encode throws at once. *)
Lemma run_cmd_encode (cmd : Cmd) (st : Device) :
  run_cmd world js_String cmd st
  = match encode_cmd js_String cmd with
    | Ok (dt, buf) => _sendTuyaDatapoint world (cmd_dp cmd) dt buf 2 200 st
    | Throw e => (Throw e, st, [])
    end.
Proof.
  unfold run_cmd, encode_cmd,
    writeBool, writeEnum, writeData32, writeString, writeRaw, write_with.
  repeat match goal with
         | |- context [String.eqb ?a ?b] => destruct (String.eqb a b)
         end;
    try reflexivity;
    match goal with
    | |- context [match ?b with Ok _ => _ | Throw _ => _ end] =>
        destruct b; reflexivity
    end.
Qed.

Lemma retry_loop_backoffs (dp dt : Z) (data : Buffer) (maxRetries : nat)
    (baseDelay : Z) (left : nat) :
  forall (attempt : nat) (lastError : option error) (st : Device),
    Forall (fun ms => exists j, (attempt <= j < maxRetries)%nat
                                /\ ms = baseDelay * 2 ^ Z.of_nat j)
      (delays RetryBackoff
         (snd (retry_loop world left attempt maxRetries baseDelay
                          dp dt data lastError st))).
Proof.
  induction left as [|left IH]; intros attempt lastError st.
  - constructor.
  - cbn [retry_loop].
    destruct (attempt_once world dp dt data st) as [[r st1] ev] eqn:E.
    assert (Hev : delays RetryBackoff ev = []).
    { unfold attempt_once in E.
      destruct (world (attempts_made st)); inversion E; reflexivity. }
    destruct r as [u|e]; [cbn [snd]; rewrite Hev; constructor|].
    specialize (IH (S attempt) (Some e) st1).
    destruct (retry_loop world left (S attempt) maxRetries baseDelay
                         dp dt data (Some e) st1) as [[r2 st2] ev2].
    cbn [snd] in *. rewrite !delays_app, Hev. cbn [app].
    apply List.Forall_app. split.
    + destruct (attempt <? maxRetries)%nat eqn:Hlt; [|constructor].
      apply Nat.ltb_lt in Hlt.
      constructor; [|constructor]. exists attempt. split; [lia|reflexivity].
    + eapply List.Forall_impl; [|exact IH].
      intros ms (j & Hj & ->). exists j. split; [lia|reflexivity].
Qed.

(** What one bulk command puts on the air. *)
Lemma run_cmd_trace (cmd : Cmd) (st : Device) :
  let out := run_cmd world js_String cmd st in
  let st' := snd (fst out) in
  let sent := transmissions (snd out) in
  map transid sent = ids_from (_transactionID st) (List.length sent)
  /\ _transactionID st' = _transactionID st + Z.of_nat (List.length sent)
  /\ tuyaEndpoint st' = tuyaEndpoint st
  /\ getAvailable st' = getAvailable st
  /\ Forall (fun f => dp f = cmd_dp cmd) sent
  /\ (List.length sent <= 3)%nat
  /\ Forall (fun ms => ms = 200 \/ ms = 400) (delays RetryBackoff (snd out)).
Proof.
  cbv zeta. rewrite run_cmd_encode.
  destruct (encode_cmd js_String cmd) as [[dt buf]|e].
  - unfold _sendTuyaDatapoint.
    pose proof (retry_loop_frames world (cmd_dp cmd) dt buf 2 200 3 0 None st)
      as (F1 & F2 & F3 & F4 & _).
    pose proof (retry_loop_transmissions world 2 200 (cmd_dp cmd) dt buf
                  3 0 None st) as Hle.
    pose proof (retry_loop_backoffs (cmd_dp cmd) dt buf 2 200 3 0 None st)
      as Hb.
    cbv zeta in F1, F2.
    set (out := retry_loop world 3 0 2 200 (cmd_dp cmd) dt buf None st) in *.
    split; [|split; [|split; [|split; [|split; [|split]]]]];
      try assumption.
    + rewrite F1 at 1. apply ids_of_frames.
    + rewrite F1. apply List.Forall_forall. intros f Hf.
      apply List.in_map_iff in Hf. destruct Hf as (j & <- & _). reflexivity.
    + eapply List.Forall_impl; [|exact Hb].
      intros ms (j & Hj & ->).
      assert (j = 0 \/ j = 1)%nat as [-> | ->] by lia;
        [left | right]; reflexivity.
  - cbn. rewrite Z.add_0_r. repeat split; try constructor. lia.
Qed.

Lemma bulk_loop_trace (delay : Z) (cmds : list Cmd) :
  forall (fails : nat) (st : Device),
    let x := bulk_loop world js_String delay cmds fails st in
    let sent := transmissions (bl_events x) in
    map transid sent = ids_from (_transactionID st) (List.length sent)
    /\ _transactionID (bl_device x)
       = _transactionID st + Z.of_nat (List.length sent)
    /\ tuyaEndpoint (bl_device x) = tuyaEndpoint st
    /\ getAvailable (bl_device x) = getAvailable st
    /\ Forall (fun f => In (dp f) (map cmd_dp cmds)) sent
    /\ (List.length sent <= 3 * List.length cmds)%nat
    /\ (List.length (delays BulkPacing (bl_events x))
        <= List.length cmds - 1)%nat
    /\ Forall (fun ms => ms = 200 \/ ms = 400)
              (delays RetryBackoff (bl_events x)).
Proof.
  cbv zeta.
  induction cmds as [|cmd rest IH]; intros fails st.
  - cbn. rewrite Z.add_0_r. repeat split; try constructor.
  - cbn [bulk_loop].
    destruct (2 <=? fails)%nat eqn:Hf.
    + apply Nat.leb_le in Hf. rewrite (bulk_loop_skip _ _ _ _ _ _ Hf).
      cbn. rewrite Z.add_0_r. repeat split; try constructor; lia.
    + pose proof (run_cmd_trace cmd st) as (R1 & R2 & R3 & R4 & R5 & R6 & R7).
      pose proof (run_cmd_unpaced world js_String cmd st) as [_ Hp].
      cbv zeta in Hp.
      destruct (run_cmd world js_String cmd st) as [[r st1] ev1].
      cbn [fst snd] in *.
      match goal with
      | |- context [bulk_loop world js_String delay rest ?f st1] =>
          specialize (IH f st1);
          destruct (bulk_loop world js_String delay rest f st1)
            as [[[rs fails'] st'] ev]
      end.
      unfold bl_device, bl_events in *. cbn [fst snd] in *.
      destruct IH as (I1 & I2 & I3 & I4 & I5 & I6 & I7 & I8).
      assert (Hpt : forall pause : list event,
                 pause = [] \/ pause = [Timeout BulkPacing delay] ->
                 transmissions pause = []
                 /\ delays RetryBackoff pause = []).
      { intros pause [-> | ->]; split; reflexivity. }
      set (pause := match rest with
                    | [] => []
                    | _ :: _ => [Timeout BulkPacing delay]
                    end).
      assert (Hpause : pause = [] \/ pause = [Timeout BulkPacing delay])
        by (subst pause; destruct rest; [left | right]; reflexivity).
      destruct (Hpt pause Hpause) as [Pt Pd].
      rewrite !transmissions_app, !delays_app, Pt, Pd, Hp. cbn [app].
      rewrite !length_app, !map_app.
      split; [|split; [|split; [|split; [|split; [|split; [|split]]]]]].
      * rewrite R1, I1, R2. apply ids_from_app.
      * rewrite I2, R2. lia.
      * congruence.
      * congruence.
      * apply List.Forall_app. split.
        -- eapply List.Forall_impl; [|exact R5].
           intros f ->. left. reflexivity.
        -- eapply List.Forall_impl; [|exact I5].
           intros f Hin. right. exact Hin.
      * cbn [List.length]. lia.
      * subst pause.
        destruct rest as [|c' rest'];
          cbn [List.length delays flat_map app] in *; lia.
      * apply List.Forall_app. split; assumption.
Qed.

Lemma sendBulkCommands_trace (cmds : list Cmd) (delayBetween : Z) (st : Device) :
  let out := sendBulkCommands world js_String cmds delayBetween st in
  let st' := snd (fst out) in
  let sent := transmissions (snd out) in
  map transid sent = ids_from (_transactionID st) (List.length sent)
  /\ _transactionID st' = _transactionID st + Z.of_nat (List.length sent)
  /\ tuyaEndpoint st' = tuyaEndpoint st
  /\ getAvailable st' = getAvailable st
  /\ Forall (fun f => In (dp f) (map cmd_dp cmds)) sent
  /\ (List.length sent <= 3 * List.length cmds)%nat
  /\ (List.length (delays BulkPacing (snd out)) <= List.length cmds - 1)%nat
  /\ Forall (fun ms => ms = 200 \/ ms = 400) (delays RetryBackoff (snd out)).
Proof.
  cbv zeta. unfold sendBulkCommands.
  destruct cmds as [|c rest].
  - cbn. rewrite Z.add_0_r. repeat split; try constructor.
  - destruct (negb (getAvailable st)).
    + cbn. rewrite Z.add_0_r. repeat split; try constructor; lia.
    + pose proof (bulk_loop_trace (Z.max 150 delayBetween) (c :: rest) 0 st)
        as H.
      cbv zeta in H. unfold bl_device, bl_events in H.
      destruct (bulk_loop world js_String (Z.max 150 delayBetween)
                          (c :: rest) 0 st) as [[[rs fails'] st'] ev].
      exact H.
Qed.

(** X6. Whatever the outside answers, a bulk send to an available device
    numbers its transmissions consecutively modulo 256 from the counter
    of the device, across all its commands, and advances the counter by
    their number; every frame carries the datapoint of one of the
    commands; there are at most three transmissions for each command and
    fewer pacing waits than commands; every backoff wait is 200 or
    400 ms; the endpoint and the availability of the device are
    unchanged. *)
Theorem bulk_trace_bounds (cmds : list Cmd) (delayBetween : Z) (st : Device) :
  let out := sendBulkCommands world js_String cmds delayBetween st in
  let st' := snd (fst out) in
  let sent := transmissions (snd out) in
  map transid sent = ids_from (_transactionID st) (List.length sent)
  /\ _transactionID st' = _transactionID st + Z.of_nat (List.length sent)
  /\ tuyaEndpoint st' = tuyaEndpoint st
  /\ getAvailable st' = getAvailable st
  /\ Forall (fun f => In (dp f) (map cmd_dp cmds)) sent
  /\ (List.length sent <= 3 * List.length cmds)%nat
  /\ (List.length (delays BulkPacing (snd out)) <= List.length cmds - 1)%nat
  /\ Forall (fun ms => ms = 200 \/ ms = 400) (delays RetryBackoff (snd out)).
Proof.
  apply sendBulkCommands_trace.
Qed.

(** X7. A command that its write method refuses (a value of the wrong
    kind or out of range, an unknown type) throws before anything is
    sent and leaves the device as it was; a batch that starts with two
    such commands transmits nothing at all: it reports the two errors,
    marks every later command as aborted, leaves the device unchanged and
    only awaits the pacing timers after the two commands it ran. *)
Theorem malformed_commands_transmit_nothing (c1 c2 : Cmd) (rest : list Cmd)
    (e1 e2 : error) (delayBetween : Z) (st : Device) :
  encode_cmd js_String c1 = Throw e1 ->
  encode_cmd js_String c2 = Throw e2 ->
  getAvailable st = true ->
  run_cmd world js_String c1 st = (Throw e1, st, [])
  /\ sendBulkCommands world js_String (c1 :: c2 :: rest) delayBetween st
     = (mkResult false (cmd_dp c1) (Some (Thrown e1))
        :: mkResult false (cmd_dp c2) (Some (Thrown e2))
        :: map (skipped AbortedConsecutiveFailures) rest,
        st,
        Timeout BulkPacing (Z.max 150 delayBetween)
        :: (if nonempty rest
            then [Timeout BulkPacing (Z.max 150 delayBetween)] else [])).
Proof.
  intros E1 E2 Hav.
  assert (R1 : run_cmd world js_String c1 st = (Throw e1, st, []))
    by (rewrite run_cmd_encode, E1; reflexivity).
  assert (R2 : run_cmd world js_String c2 st = (Throw e2, st, []))
    by (rewrite run_cmd_encode, E2; reflexivity).
  split; [exact R1|].
  unfold sendBulkCommands. rewrite Hav. cbn [negb bulk_loop Nat.leb].
  rewrite R1, R2.
  rewrite (bulk_loop_skip world js_String _ rest 2 st) by lia.
  destruct rest; reflexivity.
Qed.

End BulkMore.

Lemma malformed_commands_transmit_nothing_witness :
  sendBulkCommands fails_twice (fun _ => []) malformed_batch 100
                   (mkDevice 1 7 true 0)
  = ([mkResult false 1 (Some (Thrown (EInvalid Codec.ExpectedBoolean)));
      mkResult false 2 (Some (Thrown (EUnknownType "percent")));
      mkResult false 3 (Some AbortedConsecutiveFailures)],
     mkDevice 1 7 true 0,
     [Timeout BulkPacing 150; Timeout BulkPacing 150]).
Proof.
  exact (proj2 (malformed_commands_transmit_nothing
                  fails_twice (fun _ => [])
                  (mkCmd "bool" 1 (VNum 1)) (mkCmd "percent" 2 (VNum 50))
                  [mkCmd "bool" 3 (VBool true)]
                  (EInvalid Codec.ExpectedBoolean) (EUnknownType "percent")
                  100 (mkDevice 1 7 true 0)
                  eq_refl eq_refl eq_refl)).
Defined.

Section FirstTry.

Variable world : nat -> answer.
Variable js_String : value -> jsstring.

Lemma send_first_try (dp dt : Z) (data : Buffer) (maxRetries : nat)
    (baseDelay : Z) (st : Device) :
  world (attempts_made st) = Resolves ->
  _sendTuyaDatapoint world dp dt data maxRetries baseDelay st
  = (Ok tt, after_transmissions st 1,
     [Datapoint (frame_at (_transactionID st) dp dt data 0)]).
Proof.
  intros H. unfold _sendTuyaDatapoint. cbn [retry_loop].
  unfold attempt_once. rewrite H. unfold after_transmissions, frame_at.
  change (Z.of_nat 0) with 0. change (Z.of_nat 1) with 1.
  rewrite Z.add_0_r, Nat.add_1_r. reflexivity.
Qed.

Lemma bulk_loop_first_try (delay : Z) (cmds : list Cmd) :
  forall st : Device,
    (forall n, (attempts_made st <= n)%nat -> world n = Resolves) ->
    forallb (encodes js_String) cmds = true ->
    exists ev,
      bulk_loop world js_String delay cmds 0 st
      = (map (fun c => mkResult true (cmd_dp c) None) cmds, 0%nat,
         after_transmissions st (List.length cmds), ev)
      /\ transmissions ev
         = first_try_frames js_String (_transactionID st) cmds
      /\ List.length (transmissions ev) = List.length cmds
      /\ map shape_of ev
         = tl (flat_map (fun _ => [SWait delay; STransmit]) cmds)
      /\ delays BulkPacing ev = repeat delay (List.length cmds - 1)
      /\ delays RetryBackoff ev = [].
Proof.
  induction cmds as [|c rest IH]; intros st Hw Hen.
  - exists []. unfold after_transmissions. cbn.
    rewrite Z.add_0_r, Nat.add_0_r. destruct st; repeat split; reflexivity.
  - cbn [forallb] in Hen. apply andb_prop in Hen. destruct Hen as [Hc Hrest].
    unfold encodes in Hc.
    cbn [bulk_loop Nat.leb first_try_frames]. rewrite run_cmd_encode.
    destruct (encode_cmd js_String c) as [[dt buf]|e]; [|discriminate].
    rewrite send_first_try by (apply Hw; lia).
    destruct (IH (after_transmissions st 1)) as (ev & E & T & L & Sh & P & B);
      [intros n Hn; apply Hw; cbn in Hn; lia | exact Hrest |].
    rewrite E.
    assert (Hp : forall pause : list event,
               pause = match rest with
                       | [] => []
                       | _ :: _ => [Timeout BulkPacing delay]
                       end ->
               transmissions pause = [] /\ delays RetryBackoff pause = []).
    { intros pause ->. destruct rest; split; reflexivity. }
    destruct (Hp _ eq_refl) as [Hp1 Hp2].
    eexists. split; [|split; [|split; [|split; [|split]]]].
    + cbn [map List.length]. do 2 f_equal. unfold after_transmissions. cbn.
      f_equal; lia.
    + rewrite !transmissions_app, Hp1, T. reflexivity.
    + rewrite !transmissions_app, Hp1. cbn. rewrite L. reflexivity.
    + rewrite !map_app, Sh.
      destruct rest as [|c' rest']; reflexivity.
    + rewrite !delays_app, P.
      destruct rest as [|c' rest']; [reflexivity|].
      cbn [List.length Nat.sub]. rewrite Nat.sub_0_r.
      reflexivity.
    + rewrite !delays_app, Hp2, B. reflexivity.
Qed.

(** X8. When the outside answers every transmission and every command of
    a batch is accepted by its write method, a bulk send to an available
    device succeeds for every command, sends exactly one frame for each,
    in order and with consecutive transaction ids, alternates
    transmissions with pacing waits of max(150, delayBetween) ms (none
    after the last command, no backoff wait at all), and advances the
    counter of the device by the number of commands. *)
Theorem bulk_all_delivered (cmds : list Cmd) (delayBetween : Z) (st : Device) :
  (forall n, (attempts_made st <= n)%nat -> world n = Resolves) ->
  forallb (encodes js_String) cmds = true ->
  getAvailable st = true ->
  let out := sendBulkCommands world js_String cmds delayBetween st in
  let delay := Z.max 150 delayBetween in
  fst (fst out) = map (fun c => mkResult true (cmd_dp c) None) cmds
  /\ snd (fst out) = after_transmissions st (List.length cmds)
  /\ transmissions (snd out)
     = first_try_frames js_String (_transactionID st) cmds
  /\ List.length (transmissions (snd out)) = List.length cmds
  /\ map shape_of (snd out)
     = tl (flat_map (fun _ => [SWait delay; STransmit]) cmds)
  /\ delays BulkPacing (snd out) = repeat delay (List.length cmds - 1)
  /\ delays RetryBackoff (snd out) = [].
Proof.
  intros Hw Hen Hav. cbv zeta.
  destruct (bulk_loop_first_try (Z.max 150 delayBetween) cmds st Hw Hen)
    as (ev & E & T & L & Sh & P & B).
  assert (Hout : sendBulkCommands world js_String cmds delayBetween st
                 = (map (fun c => mkResult true (cmd_dp c) None) cmds,
                    after_transmissions st (List.length cmds), ev)).
  { unfold sendBulkCommands. destruct cmds as [|c rest].
    - cbn [bulk_loop] in E. injection E as Hst Hev.
      cbn [map List.length]. rewrite <- Hst, <- Hev. reflexivity.
    - rewrite Hav. cbn [negb]. rewrite E. reflexivity. }
  rewrite Hout. cbn [fst snd]. repeat split; assumption.
Qed.

End FirstTry.

Lemma bulk_all_delivered_witness :
  transmissions
    (snd (sendBulkCommands always_resolves (fun _ => [])
            [mkCmd "enum" 21 (VNum 3); mkCmd "data32" 7 (VNum 60)]
            200 (mkDevice 1 255 true 0)))
  = [mkFrame 0 255 21 4 1 [Byte.x03];
     mkFrame 0 0 7 2 4 [Byte.x00; Byte.x00; Byte.x00; Byte.x3c]].
Proof.
  exact (proj1 (proj2 (proj2
    (bulk_all_delivered always_resolves (fun _ => [])
       [mkCmd "enum" 21 (VNum 3); mkCmd "data32" 7 (VNum 60)]
       200 (mkDevice 1 255 true 0)
       (fun _ _ => eq_refl) eq_refl eq_refl)))).
Defined.

(** ** The time a write spends waiting *)

Lemma total_doubling (baseDelay : Z) (k : nat) :
  forall a : nat,
    total (map (fun j => baseDelay * 2 ^ Z.of_nat (a + j)) (seq 0 k))
    = baseDelay * 2 ^ Z.of_nat a * (2 ^ Z.of_nat k - 1).
Proof.
  induction k as [|k IH]; intros a.
  - cbn [seq map]. change (Z.of_nat 0) with 0. rewrite Z.pow_0_r.
    unfold total. cbn [fold_right]. ring.
  - rewrite map_seq_S.
    change (total (?x :: ?l)) with (x + total l).
    assert (E : map (fun j => baseDelay * 2 ^ Z.of_nat (a + S j)) (seq 0 k)
                = map (fun j => baseDelay * 2 ^ Z.of_nat (S a + j)) (seq 0 k)).
    { apply map_ext. intros j. do 2 f_equal. lia. }
    rewrite E, IH, Nat.add_0_r.
    rewrite !Nat2Z.inj_succ, !Z.pow_succ_r by lia. ring.
Qed.

Lemma retry_loop_waits (world : nat -> answer) (dp dt : Z) (data : Buffer)
    (maxRetries : nat) (baseDelay : Z) (left : nat) :
  forall (attempt : nat) (lastError : option error) (st : Device),
    exists k,
      (attempt + k <= Nat.max attempt maxRetries)%nat
      /\ (k <= left)%nat
      /\ delays RetryBackoff
           (snd (retry_loop world left attempt maxRetries baseDelay
                            dp dt data lastError st))
         = map (fun j => baseDelay * 2 ^ Z.of_nat (attempt + j)) (seq 0 k).
Proof.
  induction left as [|left IH]; intros attempt lastError st.
  - exists 0%nat. split; [lia|]. split; [lia | reflexivity].
  - cbn [retry_loop].
    destruct (attempt_once world dp dt data st) as [[r st1] ev] eqn:E.
    assert (Hev : delays RetryBackoff ev = []).
    { unfold attempt_once in E.
      destruct (world (attempts_made st)); inversion E; reflexivity. }
    destruct r as [u|e].
    + exists 0%nat. cbn [snd]. rewrite Hev.
      split; [lia|]. split; [lia | reflexivity].
    + destruct (IH (S attempt) (Some e) st1) as (k & Hk & Hl & Hd).
      destruct (retry_loop world left (S attempt) maxRetries baseDelay
                           dp dt data (Some e) st1) as [[r2 st2] ev2].
      cbn [snd] in *. rewrite !delays_app, Hev, Hd. cbn [app].
      destruct (attempt <? maxRetries)%nat eqn:Hlt.
      * apply Nat.ltb_lt in Hlt. exists (S k).
        split; [lia|]. split; [lia|].
        rewrite map_seq_S, Nat.add_0_r. cbn [delays flat_map app].
        f_equal. apply map_ext. intros j. do 2 f_equal. lia.
      * apply Nat.ltb_ge in Hlt.
        assert (k = 0%nat) as -> by lia.
        exists 0%nat. split; [lia|]. split; [lia | reflexivity].
Qed.

(** X28. The backoff waits of a write are the first k terms of
    baseDelay, 2 baseDelay, 4 baseDelay, ... for some k up to maxRetries,
    so the write waits baseDelay (2^k - 1) in all: with a base delay that
    is not negative never more than baseDelay (2^maxRetries - 1), which
    is 9300 ms for the five retries from 300 ms of a user command. *)
Theorem backoff_total (world : nat -> answer) (dp dt : Z) (data : Buffer)
    (maxRetries : nat) (baseDelay : Z) (st : Device) :
  let waits :=
    delays RetryBackoff
      (snd (_sendTuyaDatapoint world dp dt data maxRetries baseDelay st)) in
  (exists k,
      (k <= maxRetries)%nat
      /\ waits = map (fun j => baseDelay * 2 ^ Z.of_nat j) (seq 0 k)
      /\ total waits = baseDelay * (2 ^ Z.of_nat k - 1))
  /\ (0 <= baseDelay ->
      0 <= total waits <= baseDelay * (2 ^ Z.of_nat maxRetries - 1))
  /\ (maxRetries = 5%nat -> baseDelay = 300 -> total waits <= 9300).
Proof.
  cbv zeta. unfold _sendTuyaDatapoint.
  destruct (retry_loop_waits world dp dt data maxRetries baseDelay
              (S maxRetries) 0 None st) as (k & Hk & _ & Hd).
  rewrite Hd.
  pose proof (total_doubling baseDelay k 0) as Ht.
  change (2 ^ Z.of_nat 0) with 1 in Ht. rewrite Z.mul_1_r in Ht.
  rewrite Ht.
  assert (Hpow : 1 <= 2 ^ Z.of_nat k <= 2 ^ Z.of_nat maxRetries).
  { split.
    - pose proof (Z.pow_pos_nonneg 2 (Z.of_nat k)). lia.
    - apply Z.pow_le_mono_r; lia. }
  split; [|split].
  - exists k. split; [lia|]. split; reflexivity.
  - intros Hb. nia.
  - intros -> ->. change (2 ^ Z.of_nat 5) with 32 in Hpow. lia.
Qed.

(** ** [waitForDeviceReady] *)

Lemma ready_delay_next (j : nat) :
  Z.min (ready_delay j * 2) 1000 = ready_delay (S j).
Proof.
  unfold ready_delay. rewrite Nat2Z.inj_succ, Z.pow_succ_r by lia.
  assert (0 < 2 ^ Z.of_nat j) by (apply Z.pow_pos_nonneg; lia).
  lia.
Qed.

Lemma wait_loop_spec (env : ReadyEnv) (maxMs : Z) (n : nat) :
  forall (i fuel : nat),
    (forall j, (j < n)%nat -> stops env maxMs (i + j) = false) ->
    stops env maxMs (i + n) = true ->
    (n < fuel)%nat ->
    wait_loop env maxMs fuel i (ready_delay i)
    = Some (if isDeviceReady env (i + n) then Ready else NotReadyAfter maxMs,
            map ready_delay (seq i n)).
Proof.
  induction n as [|n IH]; intros i fuel Hbefore Hstop Hfuel.
  - destruct fuel as [|fuel]; [lia|].
    rewrite Nat.add_0_r in *. unfold stops in Hstop. cbn [wait_loop seq map].
    destruct (isDeviceReady env i); [reflexivity|].
    cbn [orb] in Hstop. rewrite Hstop. reflexivity.
  - destruct fuel as [|fuel]; [lia|].
    pose proof (Hbefore 0%nat ltac:(lia)) as H0.
    rewrite Nat.add_0_r in H0. unfold stops in H0.
    apply orb_false_elim in H0. destruct H0 as [Hr He].
    cbn [wait_loop seq map]. rewrite Hr, He, ready_delay_next.
    rewrite (IH (S i) fuel).
    + replace (S i + n)%nat with (i + S n)%nat by lia. reflexivity.
    + intros j Hj. replace (S i + j)%nat with (i + S j)%nat by lia.
      apply Hbefore. lia.
    + replace (S i + n)%nat with (i + S n)%nat by lia. exact Hstop.
    + lia.
Qed.

Lemma first_stop (env : ReadyEnv) (maxMs : Z) (K : nat) :
  stops env maxMs K = true ->
  exists k, (k <= K)%nat /\ stops env maxMs k = true
            /\ forall j, (j < k)%nat -> stops env maxMs j = false.
Proof.
  induction K as [K IH] using lt_wf_ind. intros HK.
  destruct (forallb (fun j => negb (stops env maxMs j)) (seq 0 K)) eqn:E.
  - exists K. split; [lia|]. split; [exact HK|].
    intros j Hj. rewrite forallb_forall in E.
    specialize (E j). rewrite in_seq in E.
    apply negb_true_iff. apply E. lia.
  - apply not_true_iff_false in E. rewrite forallb_forall in E.
    assert (exists j, (j < K)%nat /\ stops env maxMs j = true) as (j & Hj & Hs).
    { clear IH HK. induction K as [|K IHK].
      - exfalso. apply E. intros x Hx. destruct Hx.
      - destruct (stops env maxMs K) eqn:EK; [exists K; split; [lia|exact EK]|].
        destruct IHK as (j & Hj & Hs).
        + intros Hall. apply E. intros x Hx. apply in_seq in Hx.
          destruct (Nat.eq_dec x K) as [-> | Hne].
          * rewrite EK. reflexivity.
          * apply Hall. apply in_seq. lia.
        + exists j. split; [lia|exact Hs]. }
    destruct (IH j Hj Hs) as (k & Hk & Hks & Hkb).
    exists k. split; [lia|]. split; assumption.
Qed.

(** X9. [waitForDeviceReady] leaves at the first pass at which the cluster
    is there or more than maxMs have elapsed, as ready in the first case
    and with the error in the second (the cluster is looked up first, so
    a cluster that is there when the time is up counts as ready); before
    that pass it has awaited the delays 250, 500, 1000, 1000, ... ms, one
    for each earlier pass, and none when the cluster is there at once. *)
Theorem waitForDeviceReady_spec (env : ReadyEnv) (maxMs : Z) (k fuel : nat) :
  (forall j, (j < k)%nat -> stops env maxMs j = false) ->
  stops env maxMs k = true ->
  (k < fuel)%nat ->
  waitForDeviceReady env maxMs fuel
  = Some (if isDeviceReady env k then Ready else NotReadyAfter maxMs,
          map ready_delay (seq 0 k))
  /\ Forall (fun ms => 250 <= ms <= 1000) (map ready_delay (seq 0 k))
  /\ firstn 3 (map ready_delay (seq 0 k)) = firstn k [250; 500; 1000]
  /\ skipn 3 (map ready_delay (seq 0 k)) = repeat 1000 (k - 3).
Proof.
  intros Hbefore Hstop Hfuel.
  split; [|split; [|split]].
  - unfold waitForDeviceReady.
    change 250 with (ready_delay 0).
    apply (wait_loop_spec env maxMs k 0 fuel); assumption.
  - apply List.Forall_forall. intros ms Hin.
    apply List.in_map_iff in Hin. destruct Hin as (j & <- & _).
    unfold ready_delay.
    assert (0 < 2 ^ Z.of_nat j) by (apply Z.pow_pos_nonneg; lia).
    lia.
  - destruct k as [|[|[|k]]]; cbn [seq map firstn]; try reflexivity.
    rewrite firstn_nil. reflexivity.
  - assert (Hrep : forall n s, (3 <= s)%nat ->
               map ready_delay (seq s n) = repeat 1000 n).
    { induction n as [|n IHn]; intros s Hs; [reflexivity|].
      cbn [seq map repeat]. rewrite IHn by lia. f_equal.
      unfold ready_delay.
      assert (2 ^ 3 <= 2 ^ Z.of_nat s)
        by (apply Z.pow_le_mono_r; lia).
      lia. }
    destruct k as [|[|[|k]]]; try reflexivity.
    cbn [seq map skipn]. rewrite Hrep by lia.
    replace (S (S (S k)) - 3)%nat with k by lia. reflexivity.
Qed.

Lemma waitForDeviceReady_spec_witness :
  waitForDeviceReady ready_at_third 10000 10 = Some (Ready, [250; 500]).
Proof.
  exact (proj1 (waitForDeviceReady_spec ready_at_third 10000 2 10
    (fun j (Hj : (j < 2)%nat) =>
       match j as j0 return (j0 < 2)%nat -> stops ready_at_third 10000 j0 = false
       with
       | O => fun _ => eq_refl
       | S O => fun _ => eq_refl
       | S (S j') => fun H => ltac:(lia)
       end Hj)
    eq_refl ltac:(lia))).
Defined.

(** X10. On a clock that has advanced by at least 250 ms at each pass
    (every delay of the loop is at least that long), [waitForDeviceReady]
    returns, ready or not, after at most maxMs/250 + 1 waits. *)
Theorem waitForDeviceReady_terminates (env : ReadyEnv) (maxMs : Z)
    (fuel : nat) :
  (forall k, 250 * Z.of_nat k <= elapsed env k) ->
  0 <= maxMs ->
  (Z.to_nat (maxMs / 250) + 1 < fuel)%nat ->
  exists r waits,
    waitForDeviceReady env maxMs fuel = Some (r, waits)
    /\ (List.length waits <= Z.to_nat (maxMs / 250) + 1)%nat.
Proof.
  intros Hclock Hmax Hfuel.
  set (K := (Z.to_nat (maxMs / 250) + 1)%nat) in *.
  assert (HK : stops env maxMs K = true).
  { unfold stops. apply orb_true_iff. right. apply Z.ltb_lt.
    specialize (Hclock K).
    assert (maxMs < 250 * Z.of_nat K); [|lia].
    subst K. rewrite Nat2Z.inj_add, Z2Nat.id
      by (apply Z.div_pos; lia).
    change (Z.of_nat 1) with 1.
    pose proof (Z.mul_succ_div_gt maxMs 250 ltac:(lia)). lia. }
  destruct (first_stop env maxMs K HK) as (k & Hk & Hs & Hb).
  unfold waitForDeviceReady. change 250 with (ready_delay 0).
  rewrite (wait_loop_spec env maxMs k 0 fuel Hb Hs ltac:(lia)).
  eexists _, _. split; [reflexivity|].
  rewrite length_map, length_seq. exact Hk.
Qed.

Lemma waitForDeviceReady_terminates_witness :
  exists r waits,
    waitForDeviceReady ready_at_third 1000 6 = Some (r, waits)
    /\ (List.length waits <= 5)%nat.
Proof.
  exact (waitForDeviceReady_terminates ready_at_third 1000 6
           (fun k => Z.le_refl _) ltac:(lia) ltac:(vm_compute; lia)).
Defined.

(** ** The siren *)

Lemma encode_enum (js_String : value -> jsstring) (dp v : Z) :
  0 <= v <= 255 ->
  encode_cmd js_String (mkCmd "enum" dp (VNum v)) = Ok (4, [byte_of_Z v]).
Proof.
  intros Hv. unfold encode_cmd. cbn [cmd_type cmd_value String.eqb Ascii.eqb
    Bool.eqb Codec.writeEnum_buffer].
  cbn. replace (v <? 0) with false by (symmetry; apply Z.ltb_ge; lia).
  replace (v >? 255) with false
    by (symmetry; rewrite Z.gtb_ltb; apply Z.ltb_ge; lia).
  reflexivity.
Qed.

Lemma encode_data32 (js_String : value -> jsstring) (dp v : Z) :
  0 <= v <= 4294967295 ->
  encode_cmd js_String (mkCmd "data32" dp (VNum v)) = Ok (2, be32 v).
Proof.
  intros Hv. unfold encode_cmd. cbn.
  replace (v <? 0) with false by (symmetry; apply Z.ltb_ge; lia).
  replace (v >? 4294967295) with false
    by (symmetry; rewrite Z.gtb_ltb; apply Z.ltb_ge; lia).
  reflexivity.
Qed.

(** X11. When the outside answers every transmission and the melody, the
    volume and the duration are in range, [_playSiren] on an available
    siren sends exactly four frames with consecutive transaction ids:
    the melody (dp 21, enum), the volume (dp 5, enum) and the duration
    (dp 7, 4 bytes big-endian), 200 ms apart, and then the alarm
    (dp 13, bool 01) with no wait before it. *)
Theorem play_siren_delivers (world : nat -> answer)
    (js_String : value -> jsstring) (melody volume duration : Z)
    (st : Device) :
  (forall n, (attempts_made st <= n)%nat -> world n = Resolves) ->
  getAvailable st = true ->
  0 <= melody <= 255 ->
  0 <= volume <= 255 ->
  0 <= duration <= 4294967295 ->
  let tid := _transactionID st in
  _playSiren world js_String (VNum melody) (VNum volume) (VNum duration) st
  = (Ok tt, after_transmissions st 4,
     [ Datapoint (frame_at tid DP_MELODY 4 [byte_of_Z melody] 0);
       Timeout BulkPacing 200;
       Datapoint (frame_at tid DP_VOLUME 4 [byte_of_Z volume] 1);
       Timeout BulkPacing 200;
       Datapoint (frame_at tid DP_DURATION 2 (be32 duration) 2);
       Datapoint (frame_at tid DP_ALARM 1 [Byte.x01] 3) ]).
Proof.
  intros Hw Hav Hm Hv Hd. cbv zeta.
  unfold _playSiren, siren_settings, sendBulkCommands.
  rewrite Hav. cbn [negb bulk_loop Nat.leb].
  rewrite run_cmd_encode, (encode_enum js_String DP_MELODY melody Hm).
  rewrite (send_first_try world) by (apply Hw; lia).
  cbv beta iota. cbn [bulk_loop Nat.leb].
  rewrite run_cmd_encode, (encode_enum js_String DP_VOLUME volume Hv).
  rewrite (send_first_try world) by (apply Hw; cbn; lia).
  cbv beta iota. cbn [bulk_loop Nat.leb].
  rewrite run_cmd_encode, (encode_data32 js_String DP_DURATION duration Hd).
  rewrite (send_first_try world) by (apply Hw; cbn; lia).
  cbv beta iota. cbn [bulk_loop Nat.leb].
  unfold writeBool, write_with. cbn [Codec.writeBool_buffer].
  rewrite (send_first_try world) by (apply Hw; cbn; lia).
  unfold after_transmissions, frame_at.
  cbn [tuyaEndpoint _transactionID getAvailable attempts_made app cmd_dp].
  change (Z.max 150 200) with 200.
  change (byte_of_Z 1) with Byte.x01.
  set (tid := _transactionID st).
  change (Z.of_nat 0) with 0. change (Z.of_nat 1) with 1.
  change (Z.of_nat 2) with 2. change (Z.of_nat 3) with 3.
  change (Z.of_nat 4) with 4.
  replace (tid + 1 + 1 + 1 + 1) with (tid + 4) by lia.
  replace (tid + 1 + 1 + 1 + 0) with (tid + 3) by lia.
  replace (tid + 1 + 1 + 0) with (tid + 2) by lia.
  replace (tid + 1 + 0) with (tid + 1) by lia.
  replace (attempts_made st + 1 + 1 + 1 + 1)%nat
    with (attempts_made st + 4)%nat by lia.
  reflexivity.
Qed.

Lemma play_siren_delivers_witness :
  _playSiren always_resolves (fun _ => []) (VNum 3) (VNum 2) (VNum 60)
             (mkDevice 1 254 true 0)
  = (Ok tt, mkDevice 1 258 true 4,
     [ Datapoint (mkFrame 0 254 21 4 1 [Byte.x03]);
       Timeout BulkPacing 200;
       Datapoint (mkFrame 0 255 5 4 1 [Byte.x02]);
       Timeout BulkPacing 200;
       Datapoint (mkFrame 0 0 7 2 4 [Byte.x00; Byte.x00; Byte.x00; Byte.x3c]);
       Datapoint (mkFrame 0 1 13 1 1 [Byte.x01]) ]).
Proof.
  exact (play_siren_delivers always_resolves (fun _ => []) 3 2 60
           (mkDevice 1 254 true 0)
           (fun _ _ => eq_refl) eq_refl
           ltac:(lia) ltac:(lia) ltac:(lia)).
Defined.

(** X12. Whatever the outside answers and whatever the parameters are,
    [_playSiren] writes the alarm after the settings, however these went:
    it makes at most 15 transmissions, all to the datapoints 21, 5, 7
    and 13; its backoff waits are 200 or 400 ms (settings) or 300, 600,
    1200, 2400 or 4800 ms (alarm); and on a siren that is unavailable,
    where the bulk send of the settings is skipped, it is exactly the
    write of the alarm. *)
Theorem play_siren_always_writes_alarm (world : nat -> answer)
    (js_String : value -> jsstring) (melody volume duration : value)
    (st : Device) :
  let out := _playSiren world js_String melody volume duration st in
  (List.length (transmissions (snd out)) <= 15)%nat
  /\ Forall (fun f => In (dp f) [DP_MELODY; DP_VOLUME; DP_DURATION; DP_ALARM])
            (transmissions (snd out))
  /\ Forall (fun ms => In ms [200; 400; 300; 600; 1200; 2400; 4800])
            (delays RetryBackoff (snd out))
  /\ (List.length (delays BulkPacing (snd out)) <= 2)%nat
  /\ (getAvailable st = false ->
      out = writeBool world DP_ALARM (VBool true)
                      CRITICAL_retries CRITICAL_delay st).
Proof.
  cbv zeta. unfold _playSiren.
  pose proof (sendBulkCommands_trace world js_String
                (siren_settings melody volume duration) 200 st) as HB.
  cbv zeta in HB.
  destruct (sendBulkCommands world js_String
              (siren_settings melody volume duration) 200 st)
    as [[rs st1] ev1] eqn:EB.
  cbn [fst snd] in HB.
  destruct HB as (_ & _ & _ & _ & B5 & B6 & B7 & B8).
  unfold writeBool, write_with. cbn [Codec.writeBool_buffer].
  unfold _sendTuyaDatapoint.
  pose proof (retry_loop_frames world DP_ALARM 1 [byte_of_Z 1]
                CRITICAL_retries CRITICAL_delay (S CRITICAL_retries)
                0 None st1) as (F1 & _).
  pose proof (retry_loop_transmissions world CRITICAL_retries CRITICAL_delay
                DP_ALARM 1 [byte_of_Z 1] (S CRITICAL_retries) 0 None st1)
    as Hle.
  pose proof (retry_loop_backoffs world DP_ALARM 1 [byte_of_Z 1]
                CRITICAL_retries CRITICAL_delay (S CRITICAL_retries)
                0 None st1) as Hb.
  pose proof (retry_loop_unpaced world CRITICAL_retries CRITICAL_delay
                DP_ALARM 1 [byte_of_Z 1] (S CRITICAL_retries) 0 None st1)
    as [_ Hp].
  cbv zeta in F1, Hp.
  destruct (retry_loop world (S CRITICAL_retries) 0 CRITICAL_retries
              CRITICAL_delay DP_ALARM 1 [byte_of_Z 1] None st1)
    as [[r st2] ev2] eqn:ER.
  cbn [fst snd] in *.
  rewrite transmissions_app, !delays_app, length_app, length_app, Hp.
  split; [|split; [|split; [|split]]].
  - cbn [siren_settings List.length] in B6. unfold CRITICAL_retries in Hle.
    lia.
  - apply List.Forall_app. split.
    + eapply List.Forall_impl; [|exact B5].
      intros f Hin. cbn in Hin. cbn. tauto.
    + rewrite F1. apply List.Forall_forall. intros f Hf.
      apply List.in_map_iff in Hf. destruct Hf as (j & <- & _).
      cbn. tauto.
  - apply List.Forall_app. split.
    + eapply List.Forall_impl; [|exact B8].
      intros ms [-> | ->]; cbn; tauto.
    + eapply List.Forall_impl; [|exact Hb].
      intros ms (j & Hj & ->). unfold CRITICAL_retries in Hj.
      assert (j = 0 \/ j = 1 \/ j = 2 \/ j = 3 \/ j = 4)%nat
        as [-> | [-> | [-> | [-> | ->]]]] by lia;
        cbn; tauto.
  - cbn [siren_settings List.length] in B7. cbn [List.length]. lia.
  - intros Hun. unfold sendBulkCommands in EB.
    cbn [siren_settings] in EB. rewrite Hun in EB. cbn [negb] in EB.
    injection EB as _ Hst Hev. subst st1 ev1.
    rewrite ER. reflexivity.
Qed.

End DispatcherMoreFacts.
(* ===================================================================== *)
(** * The bulk send, command by command                                   *)
(* ===================================================================== *)

Module BulkSpec.
Import Js Dispatcher DispatcherFacts DispatcherMore DispatcherMoreFacts.

(** A test that fails somewhere below [n] fails at some index. *)
Lemma forallb_false_exists (f : nat -> bool) (n : nat) :
  forallb (fun j => negb (f j)) (seq 0 n) = false ->
  exists j, (j < n)%nat /\ f j = true.
Proof.
  induction n as [|n IHn]; [discriminate|]. intros E.
  rewrite seq_S, forallb_app in E. cbn in E.
  destruct (forallb (fun j => negb (f j)) (seq 0 n)) eqn:E'.
  - exists n. split; [lia|]. cbn in E. rewrite andb_true_r in E.
    apply negb_false_iff. exact E.
  - destruct (IHn eq_refl) as (j & Hj & Hf).
    exists j. split; [lia | exact Hf].
Qed.

(** The first index at which a test on the naturals succeeds. *)
Lemma first_true (f : nat -> bool) (n : nat) :
  f n = true ->
  exists k, (k <= n)%nat /\ f k = true
            /\ forall j, (j < k)%nat -> f j = false.
Proof.
  induction n as [n IH] using lt_wf_ind. intros Hn.
  destruct (forallb (fun j => negb (f j)) (seq 0 n)) eqn:E.
  - exists n. split; [lia|]. split; [exact Hn|].
    intros j Hj. rewrite forallb_forall in E.
    apply negb_true_iff. apply E. apply in_seq. lia.
  - destruct (forallb_false_exists f n E) as (j & Hj & Hf).
    destruct (IH j Hj Hf) as (k & Hk & Hfk & Hbefore).
    exists k. split; [lia|]. split; assumption.
Qed.

Section Writes.

Variable world : nat -> answer.

(** A write is delivered exactly when one of its attempts resolves. *)
Lemma send_resolves_iff (dp dt : Z) (data : Buffer) (maxRetries : nat)
    (baseDelay : Z) (st : Device) :
  fst (fst (_sendTuyaDatapoint world dp dt data maxRetries baseDelay st))
  = Ok tt
  <-> exists j, (j <= maxRetries)%nat
                /\ is_resolves (world (attempts_made st + j)) = true.
Proof.
  unfold _sendTuyaDatapoint. split.
  - intros Hok.
    destruct (forallb (fun j => negb (is_resolves
                                        (world (attempts_made st + j))))
                      (seq 0 (S maxRetries))) eqn:E.
    + rewrite forallb_forall in E.
      destruct (retry_loop_exhausted world maxRetries baseDelay dp dt data
                  maxRetries 0 None st) as (st' & ev & Er & _).
      * lia.
      * intros j Hj. apply negb_true_iff. apply E. apply in_seq. lia.
      * rewrite Er in Hok. discriminate.
    + destruct (forallb_false_exists _ _ E) as (j & Hj & Hr).
      exists j. split; [lia | exact Hr].
  - intros (j & Hj & Hr).
    destruct (first_true
                (fun j => is_resolves (world (attempts_made st + j))) j Hr)
      as (k & Hk & Hrk & Hbefore).
    destruct (retry_loop_first_success world maxRetries baseDelay dp dt data
                k (S maxRetries) 0 None st) as (st' & ev & Er & _);
      [lia | lia | exact Hbefore | exact Hrk |].
    rewrite Er. reflexivity.
Qed.

(** Every write makes an attempt. *)
Lemma send_attempts (dp dt : Z) (data : Buffer) (maxRetries : nat)
    (baseDelay : Z) (st : Device) :
  snd (_sendTuyaDatapoint world dp dt data maxRetries baseDelay st) <> [].
Proof.
  unfold _sendTuyaDatapoint. cbn [retry_loop]. unfold attempt_once.
  destruct (world (attempts_made st));
    try (match goal with
         | |- context [retry_loop world ?l ?a ?m ?b ?p ?t ?d ?e ?s] =>
             destruct (retry_loop world l a m b p t d e s) as [[r st2] ev2]
         end);
    cbn; discriminate.
Qed.

End Writes.

Section Batch.

Variable world : nat -> answer.
Variable js_String : value -> jsstring.

Lemma bulk_loop_length (delay : Z) (cmds : list Cmd) (fails : nat)
    (st : Device) :
  List.length (bl_results (bulk_loop world js_String delay cmds fails st))
  = List.length cmds.
Proof.
  rewrite <- (length_map r_dp), bulk_loop_dp. apply length_map.
Qed.

(** While fewer than two commands in a row have failed, the last entry
    stands for a command that was run as soon as there is an entry. *)
Lemma last_attempted_running (delay : Z) (pre : list Cmd) (st : Device) :
  let x := bulk_loop world js_String delay pre 0 st in
  (bl_fails x < 2)%nat ->
  last_attempted (bl_results x) = nonempty pre.
Proof.
  destruct pre as [|c0 pre0] using rev_ind; [reflexivity|].
  intros x Hf. unfold x.
  rewrite (bulk_loop_last_attempted world js_String delay pre0 c0 0 st Hf).
  destruct pre0; reflexivity.
Qed.

End Batch.

(** C8. A bulk send of a non-empty list to an available device runs the
    commands one after the other: between the end of a command and the
    start of the next one that is run it waits [max(150, delayBetween)],
    at least 150 ms; an entry is pushed without running its command
    exactly when two entries in a row before it are failures, so a success
    in between starts the count again; such a command adds nothing but
    pacing waits to what the batch cut before it does, and is marked
    failed; the result list has the [dp] of every command, in order; and
    every other command is run: its write method validates the value and
    sends the datapoint with 2 retries from 200 ms on the device as the
    commands before it left it, the effects of that write stand in the
    batch after those of the commands before and the pacing wait, the
    frames transmitted carry the command's [dp], datatype and payload
    under consecutive transaction ids, and the entry is the outcome of
    that write: a success exactly when the value is valid and one of the
    three attempts resolves, and otherwise a failure with the error
    thrown. *)
Theorem bulk_spec (world : nat -> answer) (js_String : value -> jsstring)
    (cmds : list Cmd) (delayBetween : Z) (st : Device) :
  cmds <> [] ->
  getAvailable st = true ->
  let out := sendBulkCommands world js_String cmds delayBetween st in
  let rs := fst (fst out) in
  let ev := snd out in
  let delay := Z.max 150 delayBetween in
  map r_dp rs = map cmd_dp cmds
  /\ Forall (fun ms => ms = delay /\ 150 <= ms) (delays BulkPacing ev)
  /\ (forall pre c c' post e,
        cmds = pre ++ c :: c' :: post ->
        rs !! S (List.length pre) = Some e ->
        is_aborted e = false ->
        let before :=
          sendBulkCommands world js_String (pre ++ [c]) delayBetween st in
        exists fails,
          ev = snd before
               ++ Timeout BulkPacing delay
               :: bl_events (bulk_loop world js_String delay (c' :: post)
                                       fails (snd (fst before))))
  /\ (forall k e,
        rs !! k = Some e ->
        (is_aborted e = true <->
         exists j ej ej',
           (S j < k)%nat /\ rs !! j = Some ej /\ rs !! S j = Some ej'
           /\ success ej = false /\ success ej' = false))
  /\ (forall k e,
        rs !! k = Some e ->
        is_aborted e = true ->
        success e = false
        /\ unpaced ev
           = unpaced (snd (sendBulkCommands world js_String (take k cmds)
                                            delayBetween st)))
  /\ (forall pre c post e,
        cmds = pre ++ c :: post ->
        rs !! List.length pre = Some e ->
        is_aborted e = false ->
        let x := bulk_loop world js_String delay pre 0 st in
        let st_c := bl_device x in
        let w :=
          match encode_cmd js_String c with
          | Ok (dt, buf) =>
              _sendTuyaDatapoint world (cmd_dp c) dt buf 2 200 st_c
          | Throw err => (Throw err, st_c, [])
          end in
        run_cmd world js_String c st_c = w
        /\ e = match fst (fst w) with
               | Ok _ => mkResult true (cmd_dp c) None
               | Throw err => mkResult false (cmd_dp c) (Some (Thrown err))
               end
        /\ (success e = true <->
            encodes js_String c = true
            /\ exists j, (j <= 2)%nat
                         /\ is_resolves
                              (world (attempts_made st_c + j)%nat)
                            = true)
        /\ (exists rest,
              ev = bl_events x
                   ++ (if nonempty pre then [Timeout BulkPacing delay]
                       else [])
                   ++ snd w ++ rest)
        /\ (forall dt buf,
              encode_cmd js_String c = Ok (dt, buf) ->
              snd w <> []
              /\ transmissions (snd w)
                 = map (frame_at (_transactionID st_c) (cmd_dp c) dt buf)
                       (seq 0 (List.length (transmissions (snd w)))))).
Proof.
  intros Hne Hav out rs ev delay.
  destruct (bulk_batch_structure world js_String cmds delayBetween st Hne Hav)
    as (H1 & H2 & H3 & H4 & H5).
  split; [exact H1|]. split; [exact H2|]. split; [exact H3|].
  split; [exact H4|]. split; [exact H5|].
  clear H1 H2 H3 H4 H5.
  intros pre c post e Hcut Hlook Hna x st_c w.
  assert (Hout : out = let y := bulk_loop world js_String delay cmds 0 st in
                       (bl_results y, bl_device y, bl_events y)).
  { apply sendBulkCommands_available; assumption. }
  cbv zeta in Hout.
  rewrite Hcut, bulk_loop_app in Hout. cbv zeta in Hout.
  fold x in Hout. fold st_c in Hout.
  assert (Hrs : rs = fst (fst out)) by reflexivity.
  assert (Hev : ev = snd out) by reflexivity.
  rewrite Hout in Hrs, Hev. cbn [fst snd bl_results bl_events] in Hrs, Hev.
  rewrite Hrs in Hlook.
  rewrite lookup_app_r in Hlook
    by (unfold x; rewrite bulk_loop_length; lia).
  unfold x in Hlook at 1. rewrite bulk_loop_length, Nat.sub_diag in Hlook.
  assert (Hw : run_cmd world js_String c st_c = w)
    by apply run_cmd_encode.
  revert Hlook Hev. cbn [bulk_loop].
  destruct (Nat.leb_spec 2 (bl_fails x)) as [Hf|Hf].
  { destruct (bulk_loop world js_String delay post (bl_fails x) st_c)
      as [[[rs2 f2] st2] ev2].
    cbn. intros [= <-]. discriminate. }
  rewrite Hw.
  destruct w as [[r st1] ev1] eqn:Ew.
  match goal with
  | |- context [bulk_loop world js_String delay post ?f ?s] =>
      destruct (bulk_loop world js_String delay post f s)
        as [[[rs2 f2] st2] ev2]
  end.
  cbn [fst snd bl_results bl_events lookup].
  intros Hlook Hev.
  assert (He : e = match r with
                   | Ok _ => mkResult true (cmd_dp c) None
                   | Throw err =>
                       mkResult false (cmd_dp c) (Some (Thrown err))
                   end).
  { cbn in Hlook. injection Hlook as <-. reflexivity. }
  split; [reflexivity|]. split; [exact He|].
  split.
  { unfold encodes. subst w.
    destruct (encode_cmd js_String c) as [[dt buf]|err] eqn:Ee.
    - pose proof (send_resolves_iff world (cmd_dp c) dt buf 2 200 st_c)
        as Hiff.
      rewrite Ew in Hiff. cbn [fst] in Hiff.
      rewrite He. destruct r as [[]|err]; cbn [success].
      + split; [intros _; split; [reflexivity|]; apply Hiff; reflexivity
               | reflexivity].
      + split; [discriminate|]. intros [_ Hj].
        apply Hiff in Hj. discriminate.
    - injection Ew as <- _ _. rewrite He. cbn [success].
      split; [discriminate | intros [? _]; discriminate]. }
  split.
  { rewrite Hev.
    pose proof (last_attempted_running world js_String delay pre st Hf)
      as Hla.
    fold x in Hla. rewrite Hla. cbn [nonempty]. rewrite andb_true_r.
    eexists. reflexivity. }
  intros dt buf Ee. subst w. rewrite Ee in Ew.
  pose proof (send_attempts world (cmd_dp c) dt buf 2 200 st_c) as Hatt.
  pose proof (retry_loop_frames world (cmd_dp c) dt buf 2 200 3 0 None st_c)
    as (Hfr & _).
  unfold _sendTuyaDatapoint in Ew, Hatt.
  rewrite Ew in Hatt, Hfr. cbn [snd] in Hatt, Hfr.
  split; [exact Hatt | exact Hfr].
Qed.

(** Against an outside that rejects the first two transmissions, the
    first command of a batch of two is delivered at its third attempt,
    after three frames with the transaction ids 0, 1 and 2. *)
Lemma bulk_spec_witness :
  map r_dp
    (fst (fst (sendBulkCommands fails_twice (fun _ => [])
                 [mkCmd "bool" 1 (VBool true); mkCmd "enum" 14 (VNum 2)]
                 100 (mkDevice 1 0 true 0))))
  = [1; 14]
  /\ (exists rest,
        snd (sendBulkCommands fails_twice (fun _ => [])
               [mkCmd "bool" 1 (VBool true); mkCmd "enum" 14 (VNum 2)]
               100 (mkDevice 1 0 true 0))
        = [Datapoint (mkFrame 0 0 1 1 1 [Byte.x01]);
           Timeout RetryBackoff 200;
           Datapoint (mkFrame 0 1 1 1 1 [Byte.x01]);
           Timeout RetryBackoff 400;
           Datapoint (mkFrame 0 2 1 1 1 [Byte.x01])] ++ rest)
  /\ exists j, (j <= 2)%nat /\ is_resolves (fails_twice (0 + j)%nat) = true.
Proof.
  pose proof (bulk_spec fails_twice (fun _ => [])
                [mkCmd "bool" 1 (VBool true); mkCmd "enum" 14 (VNum 2)]
                100 (mkDevice 1 0 true 0)
                ltac:(discriminate) eq_refl) as (H1 & _ & _ & _ & _ & H6).
  specialize (H6 [] (mkCmd "bool" 1 (VBool true))
                 [mkCmd "enum" 14 (VNum 2)] (mkResult true 1 None)
                 eq_refl eq_refl eq_refl)
    as (_ & _ & Hiff & Hrest & _).
  split; [exact H1|]. split; [exact Hrest|].
  exact (proj2 (proj1 Hiff eq_refl)).
Defined.

End BulkSpec.
(* ===================================================================== *)
(** * Further properties of the time response                             *)
(* ===================================================================== *)

Module TimeSyncMoreFacts.
Import Js TimeSync.

Lemma writeUInt32BE_ok (v : Z) :
  0 <= v < 2 ^ 32 -> writeUInt32BE v = Ok (be32 v).
Proof.
  intros H. unfold writeUInt32BE.
  destruct (Z.ltb_spec v 0); [lia|].
  destruct (Z.gtb_spec v 4294967295); [lia|]. reflexivity.
Qed.

Lemma writeUInt32BE_range (v : Z) :
  ~ 0 <= v < 2 ^ 32 -> writeUInt32BE v = Throw RangeError.
Proof.
  intros H. unfold writeUInt32BE.
  destruct (Z.ltb_spec v 0); [reflexivity|].
  destruct (Z.gtb_spec v 4294967295); [reflexivity|]. lia.
Qed.

Lemma if_Ok {E A} (c : bool) (a b : A) :
  (if c then @Ok E A a else Ok b) = Ok (if c then a else b).
Proof. destruct c; reflexivity. Qed.

Lemma in_range_dec (v : Z) : {0 <= v < 2 ^ 32} + {~ 0 <= v < 2 ^ 32}.
Proof.
  destruct (Z_le_dec 0 v); [|right; lia].
  destruct (Z_lt_dec v (2 ^ 32)); [left; lia | right; lia].
Qed.

(** The offset computed through the wall clock of the zone. *)
Lemma offsetSeconds_zone (env : TimeEnv) (zone : Z) :
  zone_offset env = Some zone ->
  offsetSeconds env
  = zone - getTimezoneOffset env * -60
    - (if now_ms env mod 1000 =? 0 then 0 else 1).
Proof.
  intros Hz. unfold offsetSeconds, new_Date, toLocaleString. rewrite Hz.
  cbv zeta.
  pose proof (Z.div_mod (now_ms env) 1000 ltac:(lia)) as Hdm.
  pose proof (Z.mod_pos_bound (now_ms env) 1000 ltac:(lia)) as Hr.
  set (q := now_ms env / 1000) in *. set (r := now_ms env mod 1000) in *.
  destruct (Z.eqb_spec r 0) as [E | E].
  - symmetry. apply (Z.div_unique _ _ _ 0); lia.
  - symmetry. apply (Z.div_unique _ _ _ (1000 - r)); lia.
Qed.

Ltac ts_cases :=
  repeat match goal with
         | |- _ /\ _ => split
         | |- _ <-> _ => split
         | |- _ <> _ => intro
         | |- forall _, _ => intro
         | H : _ /\ _ |- _ => destruct H
         | H : Some _ = Some _ |- _ => injection H as H; subst
         end;
  try discriminate; try congruence; try reflexivity.

Lemma sendTimeResponse_outcomes (env : TimeEnv) (request : option TimeRequest) :
  let utc := now_ms env / 1000 in
  let loc := utc + offsetSeconds env in
  let out := sendTimeResponse env request in
  (snd out <> None
   <-> (0 <= utc < 2 ^ 32 /\ 0 <= loc < 2 ^ 32)
       /\ has_endpoint env = true /\ has_cluster env = true)
  /\ (fst out = Ok tt <-> snd out <> None /\ setTime_rejects env = None)
  /\ (~ (0 <= utc < 2 ^ 32 /\ 0 <= loc < 2 ^ 32) ->
      fst out = Throw RangeError)
  /\ (0 <= utc < 2 ^ 32 /\ 0 <= loc < 2 ^ 32 ->
      has_endpoint env = false ->
      fst out = Throw EndpointNotAvailable)
  /\ (0 <= utc < 2 ^ 32 /\ 0 <= loc < 2 ^ 32 ->
      has_endpoint env = true -> has_cluster env = false ->
      fst out = Throw ClusterNotAvailable)
  /\ (forall msg p,
        setTime_rejects env = Some msg -> snd out = Some p ->
        fst out = Throw (SetTimeRejected msg))
  /\ (forall p,
        snd out = Some p ->
        (List.length p = 8%nat \/ List.length p = 10%nat)
        /\ skipn (List.length p - 8) p = be32 utc ++ be32 loc
        /\ Codec.big_endian (skipn (List.length p - 4) p)
           - Codec.big_endian (firstn 4 (skipn (List.length p - 8) p))
           = offsetSeconds env).
Proof.
  cbv zeta.
  unfold sendTimeResponse, time_payload.
  set (utc := now_ms env / 1000).
  set (loc := utc + offsetSeconds env).
  destruct (in_range_dec utc) as [Hu|Hu].
  - destruct (in_range_dec loc) as [Hl|Hl].
    + rewrite (writeUInt32BE_ok utc Hu), (writeUInt32BE_ok loc Hl).
      assert (Hpay : forall p,
                 p = (if use10Bytes request
                      then [Byte.x00; Byte.x08] ++ be32 utc ++ be32 loc
                      else be32 utc ++ be32 loc) ->
                 (List.length p = 8%nat \/ List.length p = 10%nat)
                 /\ skipn (List.length p - 8) p = be32 utc ++ be32 loc
                 /\ Codec.big_endian (skipn (List.length p - 4) p)
                    - Codec.big_endian
                        (firstn 4 (skipn (List.length p - 8) p))
                    = offsetSeconds env).
      { intros p ->.
        assert (E1 : Codec.big_endian (be32 utc) = utc)
          by (apply CodecFacts.big_endian_be32; lia).
        assert (E2 : Codec.big_endian (be32 loc) = loc)
          by (apply CodecFacts.big_endian_be32; lia).
        destruct (use10Bytes request).
        - split; [right; reflexivity|]. split; [reflexivity|].
          change (Codec.big_endian (be32 loc) - Codec.big_endian (be32 utc)
                  = offsetSeconds env).
          rewrite E1, E2. subst loc. lia.
        - split; [left; reflexivity|]. split; [reflexivity|].
          change (Codec.big_endian (be32 loc) - Codec.big_endian (be32 utc)
                  = offsetSeconds env).
          rewrite E1, E2. subst loc. lia. }
      set (pl := if use10Bytes request
                 then [Byte.x00; Byte.x08] ++ be32 utc ++ be32 loc
                 else be32 utc ++ be32 loc) in *.
      cbv beta iota. rewrite if_Ok. fold pl.
      specialize (Hpay pl eq_refl).
      destruct (has_endpoint env), (has_cluster env),
        (setTime_rejects env) as [m|]; cbn [negb fst snd];
        (split; [ts_cases; try tauto; try lia|]);
        (split; [ts_cases; try tauto; try lia|]);
        (split; [ts_cases; try tauto; try lia|]);
        (split; [ts_cases; try tauto; try lia|]);
        (split; [ts_cases; try tauto; try lia|]);
        (split; [ts_cases; try tauto; try lia|]);
        intros p Hp; try discriminate;
        injection Hp as <-; exact Hpay.
    + rewrite (writeUInt32BE_ok utc Hu), (writeUInt32BE_range loc Hl).
      cbn [fst snd]. ts_cases; try tauto; try lia.
  - rewrite (writeUInt32BE_range utc Hu). cbn [fst snd].
    ts_cases; try tauto; try lia.
Qed.

(** X13. [sendTimeResponse] hands a payload to [cluster.setTime] exactly
    when both timestamps fit in 32 unsigned bits and the endpoint and its
    cluster are there, and it succeeds exactly when, besides, [setTime]
    resolves.  A timestamp out of range throws while the payload is
    written, before the endpoint is looked up; a missing endpoint is
    reported before a missing cluster; a rejection of [setTime] is thrown
    on after the payload went out.  Whatever the request, a payload sent
    has 8 or 10 bytes and ends with the two timestamps.  The second is
    the first plus the offset the call computes from the wall clock of
    the zone, which is shown without milliseconds: the difference of the
    offsets of the zone and of the host when the clock is on a whole
    second, and one second less at any other time; when the zone cannot
    be used it is the offset of the host. *)
Theorem time_response_failures (env : TimeEnv) (request : option TimeRequest) :
  let utc := now_ms env / 1000 in
  let loc := utc + offsetSeconds env in
  let out := sendTimeResponse env request in
  (snd out <> None
   <-> (0 <= utc < 2 ^ 32 /\ 0 <= loc < 2 ^ 32)
       /\ has_endpoint env = true /\ has_cluster env = true)
  /\ (fst out = Ok tt <-> snd out <> None /\ setTime_rejects env = None)
  /\ (~ (0 <= utc < 2 ^ 32 /\ 0 <= loc < 2 ^ 32) ->
      fst out = Throw RangeError)
  /\ (0 <= utc < 2 ^ 32 /\ 0 <= loc < 2 ^ 32 ->
      has_endpoint env = false ->
      fst out = Throw EndpointNotAvailable)
  /\ (0 <= utc < 2 ^ 32 /\ 0 <= loc < 2 ^ 32 ->
      has_endpoint env = true -> has_cluster env = false ->
      fst out = Throw ClusterNotAvailable)
  /\ (forall msg p,
        setTime_rejects env = Some msg -> snd out = Some p ->
        fst out = Throw (SetTimeRejected msg))
  /\ (forall p,
        snd out = Some p ->
        (List.length p = 8%nat \/ List.length p = 10%nat)
        /\ skipn (List.length p - 8) p = be32 utc ++ be32 loc
        /\ Codec.big_endian (skipn (List.length p - 4) p)
           - Codec.big_endian (firstn 4 (skipn (List.length p - 8) p))
           = offsetSeconds env)
  /\ (forall zone,
        zone_offset env = Some zone ->
        offsetSeconds env
        = zone - getTimezoneOffset env * -60
          - (if now_ms env mod 1000 =? 0 then 0 else 1))
  /\ (zone_offset env = None ->
      offsetSeconds env = getTimezoneOffset env * -60).
Proof.
  cbv zeta.
  pose proof (sendTimeResponse_outcomes env request)
    as (H1 & H2 & H3 & H4 & H5 & H6 & H7).
  cbv zeta in H1, H2, H3, H4, H5, H6, H7.
  split; [exact H1|]. split; [exact H2|]. split; [exact H3|].
  split; [exact H4|]. split; [exact H5|]. split; [exact H6|].
  split; [exact H7|]. split.
  - intros zone Hz. apply offsetSeconds_zone. exact Hz.
  - intros Hz. unfold offsetSeconds. rewrite Hz. reflexivity.
Qed.

Lemma time_response_failures_witness :
  offsetSeconds between_seconds = 3599.
Proof.
  exact (proj1 (proj2 (proj2 (proj2 (proj2 (proj2 (proj2 (proj2
    (time_response_failures between_seconds None))))))))
    3600 eq_refl).
Defined.

(** X14. Which form is sent depends on the first two bytes of one buffer
    only: [request.payload] when it holds anything, else [request.data].
    A payload that is not a buffer, or a buffer shorter than two bytes,
    gives the 10-byte form even when [data] holds a buffer that starts
    with 00 06; the bytes after the second never matter; and a buffer in
    [data] counts as it would in [payload] when there is no payload. *)
Theorem time_request_reading :
  (forall r,
      payload r <> Missing ->
      use10Bytes (Some r) = use10Bytes (Some (mkRequest (payload r) Missing)))
  /\ (forall d, use10Bytes (Some (mkRequest Other d)) = true)
  /\ (forall b d,
        (List.length b < 2)%nat ->
        use10Bytes (Some (mkRequest (Buf b) d)) = true)
  /\ (forall b0 b1 rest d,
        use10Bytes (Some (mkRequest (Buf (b0 :: b1 :: rest)) d))
        = use10Bytes (Some (mkRequest (Buf [b0; b1]) Missing)))
  /\ (forall f,
        use10Bytes (Some (mkRequest Missing f))
        = use10Bytes (Some (mkRequest f Missing)))
  /\ (forall env r,
        payload r <> Missing ->
        sendTimeResponse env (Some r)
        = sendTimeResponse env (Some (mkRequest (payload r) Missing))).
Proof.
  assert (H1 : forall r,
             payload r <> Missing ->
             use10Bytes (Some r)
             = use10Bytes (Some (mkRequest (payload r) Missing))).
  { intros [p d] Hp. unfold use10Bytes, reqData. cbn [payload data] in *.
    destruct p; [contradiction | reflexivity | reflexivity]. }
  split; [exact H1|].
  split; [reflexivity|].
  split.
  { intros b d Hb. unfold use10Bytes, reqData. cbn [payload data].
    destruct b as [|b0 [|b1 rest]]; cbn in Hb; try reflexivity. lia. }
  split; [reflexivity|].
  split.
  { intros f. unfold use10Bytes, reqData. cbn [payload data].
    destruct f; reflexivity. }
  intros env r Hp. unfold sendTimeResponse, time_payload.
  rewrite (H1 r Hp). reflexivity.
Qed.

End TimeSyncMoreFacts.
(* ===================================================================== *)
(** * Further properties of retried commands                              *)
(* ===================================================================== *)

Module CancellationMoreFacts.
Import Js Cancellation CancellationFacts CancellationMore.

Lemma withRetry_loop_bounds (w : Outside) (p : Policy) :
  forall left i lastErr,
    (i + left = S (retries p))%nat ->
    let out := withRetry_loop w p left i false lastErr in
    let ev := snd out in
    (transmits ev <= left)%nat
    /\ (sleeps ev <= left - 1)%nat
    /\ Forall (fun e => e = Transmit \/ e = Sleep (delayMs p)
                        \/ e = SleepCut (delayMs p)) ev
    /\ ((0 < left)%nat -> hd_error ev = Some Transmit)
    /\ (forall msg,
          fst (fst out) = RetThrow msg ->
          transmits ev = left
          /\ ((0 < left)%nat -> tx w (retries p) = Some msg)
          /\ (left = 0%nat -> msg = lastErr)
          /\ Forall (fun e => e <> SleepCut (delayMs p)) ev)
    /\ (fst (fst out) = RetTrue -> last ev = Some Transmit).
Proof.
  cbv zeta. unfold transmits, sleeps.
  induction left as [|left IH]; intros i lastErr Hi.
  - cbn [withRetry_loop fst snd List.filter List.length].
    split; [lia|]. split; [lia|]. split; [constructor|].
    split; [lia|]. split; [|discriminate].
    intros msg Hm. injection Hm as <-.
    split; [reflexivity|]. split; [lia|]. split; [reflexivity | constructor].
  - cbn [withRetry_loop].
    destruct (tx w i) as [msg|] eqn:Htx.
    2:{ cbn. repeat split; try lia; try discriminate.
        constructor; [left; reflexivity | constructor]. }
    destruct (abort_in_tx w i || String.eqb msg "aborted") eqn:Hab.
    { cbn. repeat split; try lia; try discriminate.
      constructor; [left; reflexivity | constructor]. }
    destruct ((i <? retries p)%nat && (0 <? delayMs p)) eqn:Hsl.
    + apply andb_prop in Hsl. destruct Hsl as [Hlt _].
      apply Nat.ltb_lt in Hlt.
      destruct (abort_in_sleep w i).
      { cbn. repeat split; try lia; try discriminate.
        constructor; [left; reflexivity|].
        constructor; [right; right; reflexivity | constructor]. }
      specialize (IH (S i) msg ltac:(lia)).
      destruct (withRetry_loop w p left (S i) false msg) as [[r a] ev].
      cbn [fst snd] in *.
      destruct IH as (I1 & I2 & I3 & I4 & I5 & I6).
      cbn [List.filter is_transmit is_sleep List.length hd_error].
      split; [lia|]. split; [lia|].
      split; [constructor; [left; reflexivity|];
              constructor; [right; left; reflexivity | exact I3]|].
      split; [reflexivity|].
      split.
      * intros m Hm. destruct (I5 m Hm) as (J1 & J2 & J3 & J4).
        split; [lia|]. split; [intros _; apply J2; lia|].
        split; [lia|].
        constructor; [discriminate|]. constructor; [discriminate | exact J4].
      * intros Hr. specialize (I6 Hr).
        destruct ev as [|e ev]; [discriminate|].
        change (last (Transmit :: Sleep (delayMs p) :: e :: ev))
          with (last (e :: ev)). exact I6.
    + assert (Hle : left = 0%nat \/ ~ 0 < delayMs p).
      { apply andb_false_iff in Hsl. destruct Hsl as [H | H].
        - apply Nat.ltb_ge in H. left. lia.
        - apply Z.ltb_ge in H. right. lia. }
      specialize (IH (S i) msg ltac:(lia)).
      destruct (withRetry_loop w p left (S i) false msg) as [[r a] ev] eqn:E.
      cbn [fst snd] in *.
      destruct IH as (I1 & I2 & I3 & I4 & I5 & I6).
      cbn [List.filter is_transmit is_sleep List.length hd_error].
      split; [lia|]. split; [lia|].
      split; [constructor; [left; reflexivity | exact I3]|].
      split; [reflexivity|].
      split.
      * intros m Hm. destruct (I5 m Hm) as (J1 & J2 & J3 & J4).
        split; [lia|]. split.
        -- intros _. destruct left as [|left'].
           ++ rewrite (J3 eq_refl).
              replace (retries p) with i by lia. exact Htx.
           ++ apply J2. lia.
        -- split; [lia|]. constructor; [discriminate | exact J4].
      * intros Hr. specialize (I6 Hr).
        destruct ev as [|e ev]; [discriminate|].
        change (last (Transmit :: e :: ev)) with (last (e :: ev)). exact I6.
Qed.

(** X15. Whatever happens outside, [_withRetry] starts with a
    transmission, makes at most retries + 1 transmissions and at most
    retries waits, and every wait is the one delay of the policy, not a
    growing one.  It throws only after all retries + 1 transmissions, with
    the error of the last one and without a wait having been cut short;
    when it returns true its last act was a transmission. *)
Theorem withRetry_bounds (w : Outside) (p : Policy) :
  let out := _withRetry w p in
  let ev := snd out in
  hd_error ev = Some Transmit
  /\ (transmits ev <= S (retries p))%nat
  /\ (sleeps ev <= retries p)%nat
  /\ Forall (fun e => e = Transmit \/ e = Sleep (delayMs p)
                      \/ e = SleepCut (delayMs p)) ev
  /\ (forall msg,
        fst (fst out) = RetThrow msg ->
        transmits ev = S (retries p)
        /\ tx w (retries p) = Some msg
        /\ Forall (fun e => e <> SleepCut (delayMs p)) ev)
  /\ (fst (fst out) = RetTrue -> last ev = Some Transmit).
Proof.
  cbv zeta. unfold _withRetry.
  pose proof (withRetry_loop_bounds w p (S (retries p)) 0 "" ltac:(lia))
    as (H1 & H2 & H3 & H4 & H5 & H6).
  cbv zeta in H5.
  split; [apply H4; lia|]. split; [exact H1|].
  split; [lia|]. split; [exact H3|].
  split; [|exact H6].
  intros msg Hm. destruct (H5 msg Hm) as (J1 & J2 & _ & J4).
  split; [exact J1|]. split; [apply J2; lia | exact J4].
Qed.

(** X16. A command that nothing aborts: it is delivered at the first
    transmission that resolves, after one whole wait for each rejected
    one; when all retries + 1 transmissions are rejected it is rejected
    with the error of the last, with no wait after the last.  A rejection
    whose message is the word 'aborted' ends the command as aborted, with
    no retry and no error, though nothing aborted the signal. *)
Theorem command_without_abort (w : Outside) (p : Policy) (k : nat) :
  undisturbed w k ->
  (k <= retries p)%nat ->
  ((0 < k)%nat -> 0 < delayMs p) ->
  (tx w k = None ->
   _executeOnCapabilityOnoff w p
   = (Completed, attempts_before p k ++ [Transmit]))
  /\ (forall msg,
        tx w k = Some msg -> msg <> "aborted"%string ->
        abort_in_tx w k = false -> k = retries p ->
        _executeOnCapabilityOnoff w p
        = (Rejected msg, attempts_before p k ++ [Transmit]))
  /\ (tx w k = Some "aborted"%string ->
      _executeOnCapabilityOnoff w p
      = (ResolvedAborted, attempts_before p k ++ [Transmit])).
Proof.
  intros Hu Hk Hd.
  destruct (withRetry_reaches w p k Hu Hk Hd) as (l & E).
  unfold _executeOnCapabilityOnoff. rewrite E. cbn [withRetry_loop].
  split; [|split].
  - intros Htx. rewrite Htx. reflexivity.
  - intros msg Htx Hmsg Hat ->. rewrite Htx, Hat. cbn [orb].
    apply String.eqb_neq in Hmsg. rewrite Hmsg.
    rewrite Nat.ltb_irrefl. cbn [andb].
    rewrite Nat.sub_diag. cbn [withRetry_loop].
    cbn [orb]. rewrite Hmsg. reflexivity.
  - intros Htx. rewrite Htx. cbn [String.eqb].
    rewrite orb_true_r. reflexivity.
Qed.

Lemma command_without_abort_witness :
  policy_of None = Some (mkPolicy 2 350)
  /\ _executeOnCapabilityOnoff (rejects_first 2) (mkPolicy 2 350)
     = (Completed, [Transmit; Sleep 350; Transmit; Sleep 350; Transmit]).
Proof.
  split; [reflexivity|].
  refine (proj1 (command_without_abort (rejects_first 2) (mkPolicy 2 350)
                   2 _ _ _) eq_refl).
  - intros j Hj. split; [|split; reflexivity].
    exists "timeout"%string. split; [|discriminate].
    destruct j as [|[|j]]; [reflexivity | reflexivity | lia].
  - cbn. lia.
  - intros _. reflexivity.
Defined.

(** X17. The handler of the 4-gang switch, run without another call in
    between: it always leaves [_commandPending] false when it found it
    false, whether the write was delivered or failed after all its
    retries; it never changes the capability value or the datapoint of
    the gang; a command for the value the gang already has, or one that
    finds a command pending, resolves without a transmission and changes
    nothing; and every frame it sends is the boolean of the command to
    the datapoint of the gang, at most six of them, with backoff waits
    among 300, 600, 1200, 2400 and 4800 ms. *)
Theorem onoff_handler_releases (world : nat -> Dispatcher.answer)
    (value : bool) (g : Gang) (dev : Dispatcher.Device) :
  let out := _onCapabilityOnOff world value g dev in
  let r := fst (fst (fst out)) in
  let g' := snd (fst (fst out)) in
  let dev' := snd (fst out) in
  let ev := snd out in
  (_commandPending g = false -> _commandPending g' = false)
  /\ onoff g' = onoff g
  /\ _myDp g' = _myDp g
  /\ (onoff g = Some value \/ _commandPending g = true ->
      r = Ok tt /\ g' = g /\ dev' = dev /\ ev = [])
  /\ Forall (fun f => Dispatcher.dp f = _myDp g
                      /\ Dispatcher.datatype f = 1
                      /\ Dispatcher.data f
                         = [if value then Byte.x01 else Byte.x00])
            (Dispatcher.transmissions ev)
  /\ (List.length (Dispatcher.transmissions ev) <= 6)%nat
  /\ Forall (fun ms => In ms [300; 600; 1200; 2400; 4800])
            (Dispatcher.delays Dispatcher.RetryBackoff ev).
Proof.
  cbv zeta. unfold _onCapabilityOnOff, onoff_enter.
  assert (Hskip : forall e,
             let out := (@Ok Dispatcher.error unit tt, g, dev,
                         @nil Dispatcher.event) in
             e = out ->
             (_commandPending g = false ->
              _commandPending (snd (fst (fst e))) = false)
             /\ onoff (snd (fst (fst e))) = onoff g
             /\ _myDp (snd (fst (fst e))) = _myDp g
             /\ (onoff g = Some value \/ _commandPending g = true ->
                 fst (fst (fst e)) = Ok tt /\ snd (fst (fst e)) = g
                 /\ snd (fst e) = dev /\ snd e = [])
             /\ Forall (fun f => Dispatcher.dp f = _myDp g
                                 /\ Dispatcher.datatype f = 1
                                 /\ Dispatcher.data f
                                    = [if value then Byte.x01 else Byte.x00])
                       (Dispatcher.transmissions (snd e))
             /\ (List.length (Dispatcher.transmissions (snd e)) <= 6)%nat
             /\ Forall (fun ms => In ms [300; 600; 1200; 2400; 4800])
                  (Dispatcher.delays Dispatcher.RetryBackoff (snd e))).
  { intros e out ->. subst out. cbn. repeat split; auto; try lia; constructor. }
  assert (Hrun : forall e,
             onoff g <> Some value -> _commandPending g = false ->
             e = (let '(r, dev1, ev) :=
                    Dispatcher.writeBool world (_myDp g) (VBool value)
                      COMMANDS_retries COMMANDS_delay dev in
                  (r, onoff_settle (mkGang (onoff g) true (_myDp g)),
                   dev1, ev)) ->
             (_commandPending g = false ->
              _commandPending (snd (fst (fst e))) = false)
             /\ onoff (snd (fst (fst e))) = onoff g
             /\ _myDp (snd (fst (fst e))) = _myDp g
             /\ (onoff g = Some value \/ _commandPending g = true ->
                 fst (fst (fst e)) = Ok tt /\ snd (fst (fst e)) = g
                 /\ snd (fst e) = dev /\ snd e = [])
             /\ Forall (fun f => Dispatcher.dp f = _myDp g
                                 /\ Dispatcher.datatype f = 1
                                 /\ Dispatcher.data f
                                    = [if value then Byte.x01 else Byte.x00])
                       (Dispatcher.transmissions (snd e))
             /\ (List.length (Dispatcher.transmissions (snd e)) <= 6)%nat
             /\ Forall (fun ms => In ms [300; 600; 1200; 2400; 4800])
                  (Dispatcher.delays Dispatcher.RetryBackoff (snd e))).
  { intros e Hne Hp ->.
    unfold Dispatcher.writeBool, Dispatcher.write_with.
    cbn [Codec.writeBool_buffer]. unfold Dispatcher._sendTuyaDatapoint.
    pose proof (DispatcherMoreFacts.retry_loop_frames world (_myDp g) 1
                  [byte_of_Z (if value then 1 else 0)]
                  COMMANDS_retries COMMANDS_delay (S COMMANDS_retries)
                  0 None dev) as (F1 & _).
    pose proof (DispatcherFacts.retry_loop_transmissions world
                  COMMANDS_retries COMMANDS_delay (_myDp g) 1
                  [byte_of_Z (if value then 1 else 0)]
                  (S COMMANDS_retries) 0 None dev) as Hle.
    pose proof (DispatcherMoreFacts.retry_loop_backoffs world (_myDp g) 1
                  [byte_of_Z (if value then 1 else 0)]
                  COMMANDS_retries COMMANDS_delay (S COMMANDS_retries)
                  0 None dev) as Hb.
    cbv zeta in F1.
    destruct (Dispatcher.retry_loop world (S COMMANDS_retries) 0
                COMMANDS_retries COMMANDS_delay (_myDp g) 1
                [byte_of_Z (if value then 1 else 0)] None dev)
      as [[r dev1] ev].
    cbn [fst snd onoff_settle _commandPending onoff _myDp] in *.
    split; [reflexivity|]. split; [reflexivity|]. split; [reflexivity|].
    split; [intros [H | H]; [contradiction | congruence]|].
    split; [|split].
    - rewrite F1. apply List.Forall_forall. intros f Hf.
      apply List.in_map_iff in Hf. destruct Hf as (j & <- & _).
      cbn. destruct value; repeat split; reflexivity.
    - exact Hle.
    - eapply List.Forall_impl; [|exact Hb].
      intros ms (j & Hj & ->). unfold COMMANDS_retries in Hj.
      assert (j = 0 \/ j = 1 \/ j = 2 \/ j = 3 \/ j = 4)%nat
        as [-> | [-> | [-> | [-> | ->]]]] by lia;
        cbn; tauto. }
  destruct (onoff g) as [v|] eqn:Eo.
  - destruct (Bool.eqb v value) eqn:Ev.
    + apply Hskip. reflexivity.
    + destruct (_commandPending g) eqn:Ep.
      * apply Hskip. reflexivity.
      * apply Hrun; [|reflexivity|reflexivity].
        intros H. injection H as ->. rewrite Bool.eqb_reflx in Ev.
        discriminate.
  - destruct (_commandPending g) eqn:Ep.
    + apply Hskip. reflexivity.
    + apply Hrun; [discriminate | reflexivity | reflexivity].
Qed.

(** X29. On the 2-gang switch and the dimmer, a command B submitted
    while a command A waits between two attempts is taken from the queue
    by A's [finally] block and submitted again by the timer of 50 ms;
    when that timer runs sooner than 300 ms after A began, the new call
    ends as debounced: B is never entered, nothing is left in the queue,
    the lock is free, and A has ended as aborted. *)
Theorem queued_command_debounced (c : Pair) (s0 : Shared) (i : nat) :
  starts c s0 ->
  where_ c = InWait i ->
  rejected_before (answers c) (S i) ->
  (i < retries (policy c))%nat ->
  0 < delayMs (policy c) ->
  submitted c + 50 + late_timer c - begun c < 300 ->
  exists o,
    supersede c s0 = Some o
    /\ a_result o = ResolvedAborted
    /\ a_events o
       = attempts_before (policy c) i
         ++ [Transmit; SleepCut (delayMs (policy c))]
    /\ began (run o) = []
    /\ debounced (run o) = [(valueB c, submitted c + 50 + late_timer c)]
    /\ _commandLock (shared (run o)) = false
    /\ _pendingCommand (shared (run o)) = None
    /\ _commandAbort (shared (run o)) = None.
Proof.
  intros Hs Hw Hr Hi Hd Hsoon.
  rewrite (supersede_in_wait c s0 i Hs Hw Hr Hi Hd).
  rewrite (fire_soon c s0 _ Hsoon).
  eexists. split; [reflexivity|]. repeat split; reflexivity.
Qed.

Lemma queued_command_debounced_witness :
  exists o,
    supersede pressed_too_soon idle = Some o
    /\ began (run o) = []
    /\ debounced (run o) = [(false, 1700000000150)].
Proof.
  destruct (queued_command_debounced pressed_too_soon idle 0%nat)
    as (o & Ho & _ & _ & Hb & Hd & _).
  - split; [split; [reflexivity | split; [reflexivity | intros ac []]]|].
    cbn. lia.
  - reflexivity.
  - intros j _. exists "timeout"%string. split; [reflexivity | discriminate].
  - cbn. lia.
  - reflexivity.
  - cbn. lia.
  - exists o. split; [exact Ho|]. split; [exact Hb | exact Hd].
Defined.

End CancellationMoreFacts.
(* ===================================================================== *)
(** * Properties of the 4-gang switch                                     *)
(* ===================================================================== *)

Module GangsFacts.
Import Js Codec Decoders Gangs.

Lemma find_from_some (p : GangDev -> bool) (l : list GangDev) :
  forall i k,
    find_from p l i = Some k ->
    (i <= k)%nat
    /\ exists g, l !! (k - i)%nat = Some g /\ p g = true
                 /\ forall j g', (j < k - i)%nat -> l !! j = Some g' ->
                                 p g' = false.
Proof.
  induction l as [|d rest IH]; intros i k H; [discriminate|].
  cbn [find_from] in H. destruct (p d) eqn:Hp.
  - injection H as <-. split; [lia|]. rewrite Nat.sub_diag.
    exists d. split; [reflexivity|]. split; [exact Hp|]. intros j g' Hj. lia.
  - destruct (IH (S i) k H) as (Hle & g & Hg & Hpg & Hbefore).
    split; [lia|]. exists g.
    replace (k - i)%nat with (S (k - S i)) by lia.
    split; [exact Hg|]. split; [exact Hpg|].
    intros j g' Hj Hl. destruct j as [|j].
    + cbn in Hl. injection Hl as <-. exact Hp.
    + cbn in Hl. apply (Hbefore j g'); [lia | exact Hl].
Qed.

Lemma find_from_none (p : GangDev -> bool) (l : list GangDev) :
  forall i, find_from p l i = None -> forall g, In g l -> p g = false.
Proof.
  induction l as [|d rest IH]; intros i H g Hin; [destruct Hin|].
  cbn [find_from] in H. destruct (p d) eqn:Hp; [discriminate|].
  destruct Hin as [<- | Hin]; [exact Hp | exact (IH (S i) H g Hin)].
Qed.

(** The datapoints a gang takes. *)
Lemma isMyDp_cases (g : GangDev) (d : Z) :
  _isMyDp g d = true ->
  (_isMain g = true /\ (d = DP_GANG1 \/ d = DP_POWER_ON))
  \/ (_isMain g = false
      /\ ((d = DP_GANG2 /\ subDeviceId g = Some "secondGang"%string)
          \/ (d = DP_GANG3 /\ subDeviceId g = Some "thirdGang"%string)
          \/ (d = DP_GANG4 /\ subDeviceId g = Some "fourthGang"%string)
          \/ (d = DP_GANG1 /\ _getMyDp (subDeviceId g) = Number DP_GANG1))).
Proof.
  unfold _isMyDp. destruct (_isMain g) eqn:Hm.
  - intros H. left. split; [reflexivity|].
    apply orb_true_iff in H. destruct H as [H | H]; apply Z.eqb_eq in H; auto.
  - intros H. right. split; [reflexivity|].
    unfold _getMyDp in *. destruct (subDeviceId g) as [s|].
    + destruct (String.eqb s "secondGang") eqn:E2;
        [apply String.eqb_eq in E2; apply Z.eqb_eq in H; left;
         split; [exact H | rewrite E2; reflexivity]|].
      destruct (String.eqb s "thirdGang") eqn:E3;
        [apply String.eqb_eq in E3; apply Z.eqb_eq in H; right; left;
         split; [exact H | rewrite E3; reflexivity]|].
      destruct (String.eqb s "fourthGang") eqn:E4;
        [apply String.eqb_eq in E4; apply Z.eqb_eq in H; right; right; left;
         split; [exact H | rewrite E4; reflexivity]|].
      destruct (inherited s); [discriminate|].
      apply Z.eqb_eq in H. right; right; right. split; [exact H | reflexivity].
    + apply Z.eqb_eq in H. right; right; right. split; [exact H | reflexivity].
Qed.

Lemma processDatapoint_target (g : GangDev) (i : nat) (r : Report) :
  _isMyDp g (dp r) = true ->
  target (_processDatapoint g i r) = Some i
  /\ (forall j, _processDatapoint g i r <> Ignored j).
Proof.
  intros Hmy. unfold _processDatapoint. rewrite Hmy. cbn [negb].
  destruct (_parseDataValue (datatype r) (data r)) as [v|e];
    [|split; [reflexivity | discriminate]].
  destruct (isMyDp_cases g (dp r) Hmy)
    as [[_ [E | E]] | [_ [[E _] | [[E _] | [[E _] | [E _]]]]]];
    rewrite E; cbn; unfold _handleOnOff;
    try destruct (same_value (onoff g) v);
    (split; [reflexivity | discriminate]).
Qed.

(** X18. A report goes to the first device of the driver that has the
    address of the main gang and takes the datapoint, and to no device
    when there is none: datapoints 1 and 14 are taken by a main gang, 2, 3
    and 4 by the gangs named secondGang, thirdGang and fourthGang, and
    any other datapoint by nobody.  A sub-device with any other name also
    takes datapoint 1, as the main gang does.  The gang that is handed a
    report never ignores it. *)
Theorem report_routing (devs : list GangDev) (me : GangDev) (r : Report)
    (myIeee : option string) :
  ieeeAddress me = Some myIeee ->
  let o := handleTuya devs me r in
  (forall i,
      target o = Some i ->
      exists g,
        devs !! i = Some g
        /\ same_node myIeee g = true
        /\ _isMyDp g (dp r) = true
        /\ (forall j g', (j < i)%nat -> devs !! j = Some g' ->
                         same_node myIeee g' && _isMyDp g' (dp r) = false)
        /\ (dp r = DP_POWER_ON -> _isMain g = true)
        /\ (dp r = DP_GANG2 -> subDeviceId g = Some "secondGang"%string)
        /\ (dp r = DP_GANG3 -> subDeviceId g = Some "thirdGang"%string)
        /\ (dp r = DP_GANG4 -> subDeviceId g = Some "fourthGang"%string)
        /\ (dp r = DP_GANG1 ->
            _isMain g = true \/ _getMyDp (subDeviceId g) = Number DP_GANG1))
  /\ (target o = None ->
      o = Dropped
      /\ forall g, In g devs -> same_node myIeee g = true ->
                   _isMyDp g (dp r) = false)
  /\ (~ In (dp r) [DP_GANG1; DP_GANG2; DP_GANG3; DP_GANG4; DP_POWER_ON] ->
      o = Dropped)
  /\ (forall i, o <> Ignored i).
Proof.
  intros Hme. cbv zeta. unfold handleTuya. rewrite Hme.
  destruct (find_from (fun g => same_node myIeee g && _isMyDp g (dp r))
                      devs 0) as [k|] eqn:Hfind.
  - destruct (find_from_some _ _ _ _ Hfind) as (_ & g & Hg & Hp & Hbefore).
    rewrite Nat.sub_0_r in Hg, Hbefore. rewrite Hg.
    apply andb_prop in Hp. destruct Hp as [Hnode Hmy].
    destruct (processDatapoint_target g k r Hmy) as [Ht Hni].
    pose proof (isMyDp_cases g (dp r) Hmy) as Hcases.
    unfold DP_GANG1, DP_GANG2, DP_GANG3, DP_GANG4, DP_POWER_ON in *.
    split; [|split; [|split]].
    + intros i Hi. rewrite Ht in Hi. injection Hi as <-.
      exists g. split; [exact Hg|]. split; [exact Hnode|].
      split; [exact Hmy|]. split; [exact Hbefore|].
      destruct Hcases
        as [[Hm [E | E]] | [Hm [[E Hs] | [[E Hs] | [[E Hs] | [E Hs]]]]]];
        rewrite E; repeat split; intros H; try discriminate H; auto.
    + intros Hn. rewrite Ht in Hn. discriminate.
    + intros Hnot. exfalso. apply Hnot. cbn.
      destruct Hcases as [[_ [E | E]] | [_ [[E _] | [[E _] | [[E _] | [E _]]]]]];
        rewrite E; tauto.
    + exact Hni.
  - split; [intros i H; discriminate|].
    split; [|split; [reflexivity | discriminate]].
    intros _. split; [reflexivity|].
    intros g Hin Hnode.
    pose proof (find_from_none _ _ _ Hfind g Hin) as H.
    cbn beta in H. rewrite Hnode in H. exact H.
Qed.

Lemma report_routing_witness :
  exists g,
    four_gangs !! 3%nat = Some g
    /\ subDeviceId g = Some "thirdGang"%string.
Proof.
  destruct (report_routing four_gangs
              (mkGangDev (Some (Some "a1"%string)) None (Some false))
              (mkReport 3 1 [Byte.x00]) (Some "a1"%string) eq_refl)
    as (H & _).
  destruct (H 3%nat eq_refl) as (g & Hg & _ & _ & _ & _ & _ & H3 & _).
  exists g. split; [exact Hg | apply H3; reflexivity].
Defined.

Lemma find_from_alter (p : GangDev -> bool) (f : GangDev -> GangDev)
    (k : nat) (l : list GangDev) :
  (forall g, p (f g) = p g) ->
  forall i, find_from p (alter f k l) i = find_from p l i.
Proof.
  intros Hf. revert k.
  induction l as [|d rest IH]; intros k i; [reflexivity|].
  destruct k as [|k]; cbn [alter list_alter find_from].
  - rewrite Hf. reflexivity.
  - rewrite (IH k (S i)). reflexivity.
Qed.

Lemma parse_bool (d : Buffer) :
  _parseDataValue 1 d = Ok (VBool (first_byte_is_one d)).
Proof. reflexivity. Qed.

Lemma handleTuya_inv (devs : list GangDev) (me : GangDev) (r : Report)
    (o : outcome) :
  handleTuya devs me r = o ->
  forall i, target o = Some i ->
    exists myIeee g,
      ieeeAddress me = Some myIeee
      /\ find_from (fun g => same_node myIeee g && _isMyDp g (dp r)) devs 0
         = Some i
      /\ devs !! i = Some g
      /\ _isMyDp g (dp r) = true
      /\ o = _processDatapoint g i r.
Proof.
  intros <- i Hi. unfold handleTuya in *.
  destruct (ieeeAddress me) as [myIeee|]; [|discriminate].
  destruct (find_from (fun g => same_node myIeee g && _isMyDp g (dp r))
                      devs 0) as [k|] eqn:Hfind; [|discriminate].
  destruct (find_from_some _ _ _ _ Hfind) as (_ & g & Hg & Hp & _).
  rewrite Nat.sub_0_r in Hg. rewrite Hg in *.
  apply andb_prop in Hp. destruct Hp as [_ Hmy].
  destruct (processDatapoint_target g k r Hmy) as [Ht _].
  rewrite Ht in Hi. injection Hi as <-.
  exists myIeee, g. repeat split; assumption || reflexivity.
Qed.

(** X19. A boolean report is applied once: when it made the handler set
    the capability and the value was stored, the same report arriving
    again finds the value in place and changes nothing.  A report counts
    as unchanged only when it is a boolean that equals the stored value;
    and storing a value keeps the number of devices and touches no device
    but the one the report went to. *)
Theorem report_applied_once (devs : list GangDev) (me : GangDev) (r : Report) :
  let o := handleTuya devs me r in
  (forall i v,
      o = SetOnOff i v -> datatype r = 1 ->
      v = VBool (first_byte_is_one (data r))
      /\ handleTuya (stored devs o) me r = Unchanged i)
  /\ (forall i,
        o = Unchanged i ->
        exists g b,
          devs !! i = Some g /\ onoff g = Some b
          /\ _parseDataValue (datatype r) (data r) = Ok (VBool b))
  /\ List.length (stored devs o) = List.length devs
  /\ (forall j, target o <> Some j -> stored devs o !! j = devs !! j).
Proof.
  cbv zeta. split; [|split; [|split]].
  - intros i v Ho Hdt.
    destruct (handleTuya_inv devs me r _ Ho i eq_refl)
      as (myIeee & g & Hme & Hfind & Hg & Hmy & Hproc).
    assert (Hv : v = VBool (first_byte_is_one (data r))
                 /\ ((dp r =? DP_GANG1) || (dp r =? DP_GANG2)
                     || (dp r =? DP_GANG3) || (dp r =? DP_GANG4)) = true).
    { unfold _processDatapoint in Hproc.
      rewrite Hdt, parse_bool, Hmy in Hproc. cbn [negb] in Hproc.
      destruct ((dp r =? DP_GANG1) || (dp r =? DP_GANG2)
                || (dp r =? DP_GANG3) || (dp r =? DP_GANG4)).
      - unfold _handleOnOff in Hproc.
        destruct (same_value (onoff g) (VBool (first_byte_is_one (data r))));
          [discriminate|].
        injection Hproc as ->. split; reflexivity.
      - destruct (dp r =? DP_POWER_ON); discriminate. }
    destruct Hv as [-> Hdp]. split; [reflexivity|].
    rewrite Ho. cbn [stored]. unfold handleTuya. rewrite Hme.
    set (f := fun g0 : GangDev =>
                mkGangDev (ieeeAddress g0) (subDeviceId g0)
                          (Some (first_byte_is_one (data r)))).
    rewrite (find_from_alter _ f i devs) by reflexivity.
    rewrite Hfind, list_lookup_alter_eq, Hg. cbn [fmap option_fmap option_map].
    unfold _processDatapoint. rewrite Hdt, parse_bool.
    change (_isMyDp (f g) (dp r)) with (_isMyDp g (dp r)).
    rewrite Hmy, Hdp. cbn [negb]. unfold _handleOnOff. cbn [f onoff same_value].
    rewrite Bool.eqb_reflx. reflexivity.
  - intros i Ho.
    destruct (handleTuya_inv devs me r _ Ho i eq_refl)
      as (myIeee & g & Hme & Hfind & Hg & Hmy & Hproc).
    unfold _processDatapoint in Hproc. rewrite Hmy in Hproc.
    cbn [negb] in Hproc.
    destruct (_parseDataValue (datatype r) (data r)) as [v|e];
      [|discriminate].
    destruct ((dp r =? DP_GANG1) || (dp r =? DP_GANG2)
              || (dp r =? DP_GANG3) || (dp r =? DP_GANG4)).
    + unfold _handleOnOff in Hproc.
      destruct (same_value (onoff g) v) eqn:Hs; [|discriminate].
      unfold same_value in Hs.
      destruct (onoff g) as [b|] eqn:Hb; [|discriminate].
      destruct v as [|b'| | |]; try discriminate.
      apply Bool.eqb_prop in Hs. subst b'.
      exists g, b. repeat split; assumption || reflexivity.
    + destruct (dp r =? DP_POWER_ON); discriminate.
  - destruct (handleTuya devs me r) as [| | | | |i v|]; try reflexivity.
    destruct v; try reflexivity. cbn [stored]. apply length_alter.
  - intros j Hj.
    destruct (handleTuya devs me r) as [| | | | |i v|]; try reflexivity.
    destruct v; try reflexivity. cbn [stored target] in *.
    apply list_lookup_alter_ne. congruence.
Qed.

Lemma enum_of_mode_cases (mode : string) (n : Z) :
  enum_of_mode mode = Some n ->
  (mode = "off"%string /\ n = 0) \/ (mode = "on"%string /\ n = 1)
  \/ (mode = "memory"%string /\ n = 2).
Proof.
  unfold enum_of_mode.
  destruct (String.eqb mode "off") eqn:E0;
    [apply String.eqb_eq in E0; intros H; injection H as <-; auto|].
  destruct (String.eqb mode "on") eqn:E1;
    [apply String.eqb_eq in E1; intros H; injection H as <-; auto|].
  destruct (String.eqb mode "memory") eqn:E2;
    [apply String.eqb_eq in E2; intros H; injection H as <-; auto|].
  discriminate.
Qed.

(** X20. The power-on behaviour goes out and comes back as itself.  The
    table the setting is looked up in is the inverse of the table a
    report is read with.  A mode that is not in the table throws before
    anything is sent.  For a mode of the table, every frame sent (at most
    four) is an enum to datapoint 14 whose value, read as the switch
    reads a report, is the number of the mode; the main gang that is
    handed this number finds the setting in place and updates the label
    only, and with any other setting stored it syncs the setting to the
    mode; a gang that is not the main one does nothing. *)
Theorem power_on_round_trip (world : nat -> Dispatcher.answer) (mode : string)
    (st : Dispatcher.Device) :
  let out := _handlePowerOnBehaviorSetting world mode st in
  (forall n, enum_of_mode mode = Some n <-> POWER_ON_MODE n = Some mode)
  /\ (enum_of_mode mode = None ->
      out = (Throw (InvalidPowerOnBehavior mode), st, []))
  /\ (forall n,
        enum_of_mode mode = Some n ->
        Forall (fun f =>
                  Dispatcher.dp f = DP_POWER_ON
                  /\ Dispatcher.datatype f = 4
                  /\ _parseDataValue (Dispatcher.datatype f)
                                     (Dispatcher.data f) = Ok (VNum n))
               (Dispatcher.transmissions (snd out))
        /\ (List.length (Dispatcher.transmissions (snd out)) <= 4)%nat
        /\ (exists label, POWER_ON_LABELS mode = Some label)
        /\ (forall g current,
              _handlePowerOn g current n
              = if negb (_isMain g) then NotMain
                else if decide (current = Some mode)
                     then LabelOnly (POWER_ON_LABELS mode)
                     else SyncSetting mode (POWER_ON_LABELS mode))).
Proof.
  cbv zeta. split; [|split].
  - intros n. split.
    + intros H. destruct (enum_of_mode_cases mode n H)
        as [[-> ->] | [[-> ->] | [-> ->]]]; reflexivity.
    + unfold POWER_ON_MODE.
      destruct (n =? 0) eqn:E0;
        [apply Z.eqb_eq in E0; subst n; intros H; injection H as <-;
         reflexivity|].
      destruct (n =? 1) eqn:E1;
        [apply Z.eqb_eq in E1; subst n; intros H; injection H as <-;
         reflexivity|].
      destruct (n =? 2) eqn:E2;
        [apply Z.eqb_eq in E2; subst n; intros H; injection H as <-;
         reflexivity|].
      discriminate.
  - intros H. unfold _handlePowerOnBehaviorSetting. rewrite H. reflexivity.
  - intros n Hn. unfold _handlePowerOnBehaviorSetting. rewrite Hn.
    assert (Hrange : 0 <= n <= 2 /\ POWER_ON_MODE n = Some mode
                     /\ exists label, POWER_ON_LABELS mode = Some label).
    { destruct (enum_of_mode_cases mode n Hn)
        as [[-> ->] | [[-> ->] | [-> ->]]];
        (split; [lia|]); (split; [reflexivity|]); eexists; reflexivity. }
    destruct Hrange as (Hr & Hmode & Hlabel).
    unfold Dispatcher.writeEnum, Dispatcher.write_with.
    assert (Hbuf : writeEnum_buffer (VNum n) = Ok [byte_of_Z n]).
    { cbn. destruct (Z.ltb_spec n 0); [lia|].
      destruct (Z.gtb_spec n 255); [lia|]. reflexivity. }
    rewrite Hbuf. unfold Dispatcher._sendTuyaDatapoint.
    pose proof (DispatcherMoreFacts.retry_loop_frames world DP_POWER_ON 4
                  [byte_of_Z n] SETTINGS_retries SETTINGS_delay
                  (S SETTINGS_retries) 0 None st) as (F1 & _).
    pose proof (DispatcherFacts.retry_loop_transmissions world
                  SETTINGS_retries SETTINGS_delay DP_POWER_ON 4
                  [byte_of_Z n] (S SETTINGS_retries) 0 None st) as Hle.
    cbv zeta in F1.
    destruct (Dispatcher.retry_loop world (S SETTINGS_retries) 0
                SETTINGS_retries SETTINGS_delay DP_POWER_ON 4
                [byte_of_Z n] None st) as [[r st'] ev].
    cbn [fst snd] in *.
    assert (Hev : forall x : res setting_error unit * Dispatcher.Device
                             * list Dispatcher.event,
               x = match r with
                   | Ok _ => (Ok tt, st', ev)
                   | Throw e => (Throw (WriteFailed e), st', ev)
                   end -> snd x = ev)
      by (intros x ->; destruct r; reflexivity).
    rewrite (Hev _ eq_refl).
    split; [|split; [exact Hle | split; [exact Hlabel|]]].
    + rewrite F1. apply List.Forall_forall. intros f Hf.
      apply List.in_map_iff in Hf. destruct Hf as (j & <- & _).
      cbn [DispatcherMore.frame_at Dispatcher.dp Dispatcher.datatype
           Dispatcher.data].
      split; [reflexivity|]. split; [reflexivity|].
      unfold _parseDataValue. cbn [Z.eqb first_byte].
      cbn. rewrite JsFacts.byte_to_of_Z, Z.mod_small by lia. reflexivity.
    + intros g current. unfold _handlePowerOn. rewrite Hmode.
      destruct (negb (_isMain g)); [reflexivity|].
      destruct current as [c|].
      * destruct (String.eqb_spec c mode) as [-> | Hne].
        -- rewrite decide_True by reflexivity. reflexivity.
        -- rewrite decide_False by congruence. reflexivity.
      * rewrite decide_False by discriminate. reflexivity.
Qed.

End GangsFacts.
(* ===================================================================== *)
(** * Further properties of the availability manager                      *)
(* ===================================================================== *)

Module AvailabilityMoreFacts.
Import Js Availability AvailabilityFacts AvailabilityMore.

Lemma filter_from_bounds (p : Dev -> bool) (h : list Dev) (i k : nat) :
  k ∈ filter_from p h i -> (i <= k < i + List.length h)%nat.
Proof.
  intros H. apply elem_of_filter_from in H as (Hle & d & Hd & _).
  apply lookup_lt_Some in Hd. lia.
Qed.

Lemma filter_from_NoDup (p : Dev -> bool) (h : list Dev) :
  forall i, NoDup (filter_from p h i).
Proof.
  induction h as [|d rest IH]; intros i; cbn [filter_from]; [constructor|].
  destruct (p d); [|apply IH].
  constructor; [|apply IH].
  intros H. apply filter_from_bounds in H. lia.
Qed.

Lemma getSiblings_cases (m : Manager) (h : Host) :
  _getSiblings m h = [device m]
  \/ exists key a,
       _getSiblings m h = filter_from (same_key key (Some a)) h 0
       /\ a <> ""%string.
Proof.
  unfold _getSiblings.
  destruct (h !! device m) as [me|]; [|left; reflexivity].
  destruct (getData me) as [myData|]; [|left; reflexivity].
  cbv zeta.
  destruct (truthy_string (ieeeAddress myData)) eqn:Hi.
  - apply truthy_string_Some in Hi as (a & Ha & Hne). rewrite Ha.
    destruct (filter_from (same_key ieeeAddress (Some a)) h 0) eqn:E.
    + destruct (truthy_string (token myData)) eqn:Ht; [|left; reflexivity].
      apply truthy_string_Some in Ht as (b & Hb & Hnb). rewrite Hb.
      destruct (filter_from (same_key token (Some b)) h 0) eqn:E';
        [left; reflexivity|].
      right. exists token, b. split; [symmetry; exact E' | exact Hnb].
    + right. exists ieeeAddress, a. split; [symmetry; exact E | exact Hne].
  - destruct (truthy_string (token myData)) eqn:Ht; [|left; reflexivity].
    apply truthy_string_Some in Ht as (b & Hb & Hnb). rewrite Hb.
    destruct (filter_from (same_key token (Some b)) h 0) eqn:E';
      [left; reflexivity|].
    right. exists token, b. split; [symmetry; exact E' | exact Hnb].
Qed.

Lemma getSiblings_NoDup (m : Manager) (h : Host) : NoDup (_getSiblings m h).
Proof.
  destruct (getSiblings_cases m h) as [-> | (key & a & -> & _)].
  - apply NoDup_singleton.
  - apply filter_from_NoDup.
Qed.

(** The siblings of a device that shares the address of the manager's. *)
Lemma getSiblings_by_address (m : Manager) (h : Host) (j : nat) :
  shares ieeeAddress m h j ->
  exists a,
    a <> ""%string
    /\ _getSiblings m h = filter_from (same_key ieeeAddress (Some a)) h 0
    /\ forall t,
         _getSiblings (mkManager j t) h
         = filter_from (same_key ieeeAddress (Some a)) h 0.
Proof.
  intros (me & myData & d & dd & a & Hme & Hdata & Hd & Hdd & Hk & Hk' & Hne).
  assert (Hin : forall k dk ddk,
             h !! k = Some dk -> getData dk = Some ddk ->
             ieeeAddress ddk = Some a ->
             k ∈ filter_from (same_key ieeeAddress (Some a)) h 0).
  { intros k dk ddk H1 H2 H3. apply elem_of_filter_from_0.
    exists dk. split; [exact H1|]. unfold same_key. rewrite H2, H3.
    apply strict_eq_Some. reflexivity. }
  assert (Hta : truthy_string (Some a) = true)
    by (apply truthy_string_Some; exists a; split; [reflexivity | exact Hne]).
  exists a. split; [exact Hne|]. split.
  - unfold _getSiblings. rewrite Hme, Hdata. cbv zeta. rewrite Hk, Hta.
    pose proof (Hin _ _ _ Hme Hdata Hk) as H.
    destruct (filter_from (same_key ieeeAddress (Some a)) h 0);
      [apply elem_of_nil in H; contradiction | reflexivity].
  - intros t. unfold _getSiblings. cbn [device]. rewrite Hd, Hdd. cbv zeta.
    rewrite Hk', Hta.
    pose proof (Hin _ _ _ Hd Hdd Hk') as H.
    destruct (filter_from (same_key ieeeAddress (Some a)) h 0);
      [apply elem_of_nil in H; contradiction | reflexivity].
Qed.

Lemma getSiblings_set_available (m : Manager) (v : bool) (k : nat) (h : Host) :
  _getSiblings m (alter (set_available v) k h) = _getSiblings m h.
Proof.
  unfold _getSiblings.
  assert (Hl : getData <$> alter (set_available v) k h !! device m
               = getData <$> h !! device m).
  { destruct (decide (k = device m)) as [-> | Hne].
    - rewrite list_lookup_alter_eq. destruct (h !! device m); reflexivity.
    - rewrite list_lookup_alter_ne by exact Hne. reflexivity. }
  destruct (alter (set_available v) k h !! device m) as [me'|] eqn:E';
    destruct (h !! device m) as [me|] eqn:E; cbn in Hl; try discriminate;
    [|reflexivity].
  injection Hl as Hl. rewrite Hl.
  destruct (getData me) as [myData|]; [|reflexivity].
  cbv zeta. rewrite !filter_from_alter by reflexivity. reflexivity.
Qed.

Lemma markUnavailable_loop_siblings (m : Manager) (idleMin : Z)
    (siblings : list nat) :
  forall h,
    _getSiblings m (fst (markUnavailable_loop idleMin siblings h))
    = _getSiblings m h.
Proof.
  induction siblings as [|s rest IH]; intros h; [reflexivity|].
  cbn [markUnavailable_loop].
  destruct (h !! s) as [d|]; [|apply IH].
  destruct (getAvailable d); [|apply IH].
  specialize (IH (alter (set_available false) s h)).
  destruct (markUnavailable_loop idleMin rest (alter (set_available false) s h))
    as [h' ev].
  cbn [fst] in *. rewrite IH. apply getSiblings_set_available.
Qed.

Lemma markAvailable_loop_siblings (m : Manager) (siblings : list nat) :
  forall h,
    _getSiblings m (fst (markAvailable_loop siblings h)) = _getSiblings m h.
Proof.
  induction siblings as [|s rest IH]; intros h; [reflexivity|].
  cbn [markAvailable_loop].
  destruct (h !! s) as [d|]; [|apply IH].
  destruct (negb (getAvailable d)); [|apply IH].
  specialize (IH (alter (set_available true) s h)).
  destruct (markAvailable_loop rest (alter (set_available true) s h))
    as [h' ev].
  cbn [fst] in *. rewrite IH. apply getSiblings_set_available.
Qed.

(** X21. The siblings the manager resolves are each listed once and,
    when the manager's device is one of the driver's, are all devices of
    the driver.  Devices that share an address resolve the same siblings
    from either side, but membership is not symmetric in general: a
    sub-device that carries only the token counts the main device among
    its siblings, while the main device, resolving by its address, does
    not count the sub-device.  A cascade does not change who the
    siblings are. *)
Theorem siblings_structure (m : Manager) (h : Host) :
  NoDup (_getSiblings m h)
  /\ (forall me i, h !! device m = Some me -> i ∈ _getSiblings m h ->
                   (i < List.length h)%nat)
  /\ (forall j t,
        shares ieeeAddress m h j ->
        _getSiblings (mkManager j t) h = _getSiblings m h)
  /\ (forall idleMin,
        _getSiblings m (fst (_markAllUnavailable m idleMin h))
        = _getSiblings m h)
  /\ _getSiblings m (fst (_markAllAvailable m h)) = _getSiblings m h
  /\ (0%nat ∈ _getSiblings (mkManager 1 (timeout m)) mixed_pair
      /\ ~ 1%nat ∈ _getSiblings (mkManager 0 (timeout m)) mixed_pair).
Proof.
  split; [apply getSiblings_NoDup|].
  split.
  { intros me i Hme Hi.
    destruct (getSiblings_cases m h) as [E | (key & a & E & _)];
      rewrite E in Hi.
    - apply list_elem_of_singleton in Hi. subst i.
      apply lookup_lt_Some in Hme. exact Hme.
    - apply filter_from_bounds in Hi. lia. }
  split.
  { intros j t Hj.
    destruct (getSiblings_by_address m h j Hj) as (a & _ & E1 & E2).
    rewrite E1. apply E2. }
  split; [intros idleMin; apply markUnavailable_loop_siblings|].
  split; [apply markAvailable_loop_siblings|].
  split.
  - vm_compute. apply list_elem_of_here.
  - vm_compute. intros H. apply list_elem_of_singleton in H. discriminate.
Qed.

Lemma markAlive_keeps_available (m : Manager) (now : Z) (h : Host) (i : nat) :
  available_at h i = Some true ->
  available_at (fst (_markAlive m now h)) i = Some true.
Proof.
  intros Hi.
  destruct (h !! device m) as [me|] eqn:Hme.
  - destruct (markAlive_cases m now h me Hme) as [_ [[_ E] | [_ E]]].
    + rewrite E, available_at_stored. exact Hi.
    + rewrite (available_at_cascaded true _ _ _ E i).
      rewrite available_at_stored.
      destruct (decide (i ∈ _getSiblings m h)); [|exact Hi].
      unfold available_at in Hi. rewrite stored_lookup.
      destruct (h !! i); [reflexivity | discriminate].
  - unfold _markAlive.
    assert (E : alter (set_last_seen now) (device m) h !! device m = None)
      by (rewrite list_lookup_alter_eq, Hme; reflexivity).
    rewrite E. cbn [fst]. rewrite available_at_stored. exact Hi.
Qed.

Lemma markAlive_quiet (m : Manager) (now : Z) (h : Host) :
  Forall (fun e => tells_unavailable e = false) (snd (_markAlive m now h)).
Proof.
  destruct (h !! device m) as [me|] eqn:Hme.
  - apply (markAlive_cases m now h me Hme).
  - unfold _markAlive.
    assert (E : alter (set_last_seen now) (device m) h !! device m = None)
      by (rewrite list_lookup_alter_eq, Hme; reflexivity).
    rewrite E. constructor.
Qed.

Lemma markAlive_isEnabled (m : Manager) (now : Z) (h : Host) :
  _isEnabled m (fst (_markAlive m now h)) = _isEnabled m h.
Proof.
  apply isEnabled_lookup.
  destruct (h !! device m) as [me|] eqn:Hme.
  - destruct (markAlive_self m now h me Hme) as (me' & H1 & _ & _ & H2 & _).
    rewrite H1. cbn. rewrite H2. reflexivity.
  - unfold _markAlive.
    assert (E : alter (set_last_seen now) (device m) h !! device m = None)
      by (rewrite list_lookup_alter_eq, Hme; reflexivity).
    rewrite E. cbn [fst]. rewrite E. reflexivity.
Qed.

Lemma tick_disabled (m : Manager) (now : Z) (h : Host) :
  _isEnabled m h = false -> watchdog_tick m now h = (h, []).
Proof. intros H. unfold watchdog_tick. rewrite H. reflexivity. Qed.

(** X22. While the setting switches the monitoring off, the watchdog does
    nothing at all: a tick stores no timestamp, logs nothing and marks
    nothing, however long the device has been silent.  Activity marks go
    on as before (they do not read the setting), so over any sequence of
    ticks and marks no available device becomes unavailable and the
    monitoring stays off. *)
Theorem disabled_monitoring (m : Manager) (h : Host) (acts : list action) :
  _isEnabled m h = false ->
  let out := run_actions m acts h in
  _isEnabled m (fst out) = false
  /\ Forall (fun e => tells_unavailable e = false) (snd out)
  /\ (forall i, available_at h i = Some true ->
                available_at (fst out) i = Some true)
  /\ (forallb is_tick acts = true -> out = (h, [])).
Proof.
  cbv zeta. revert h.
  induction acts as [|a rest IH]; intros h Hoff.
  - cbn [run_actions fst snd]. split; [exact Hoff|].
    split; [constructor|]. split; [intros i Hi; exact Hi | reflexivity].
  - cbn [run_actions forallb].
    assert (Hstep : _isEnabled m (fst (step m a h)) = false
                    /\ Forall (fun e => tells_unavailable e = false)
                              (snd (step m a h))
                    /\ (forall i, available_at h i = Some true ->
                                  available_at (fst (step m a h)) i = Some true)
                    /\ (is_tick a = true -> step m a h = (h, []))).
    { destruct a as [t|t]; cbn [step is_tick].
      - rewrite (tick_disabled m t h Hoff). cbn [fst snd].
        split; [exact Hoff|]. split; [constructor|].
        split; [intros i Hi; exact Hi | reflexivity].
      - split; [rewrite markAlive_isEnabled; exact Hoff|].
        split; [apply markAlive_quiet|].
        split; [intros i; apply markAlive_keeps_available | discriminate]. }
    destruct Hstep as (S1 & S2 & S3 & S4).
    destruct (step m a h) as [h1 ev1] eqn:Es. cbn [fst snd] in *.
    destruct (IH h1 S1) as (I1 & I2 & I3 & I4).
    destruct (run_actions m rest h1) as [h2 ev2] eqn:Er. cbn [fst snd] in *.
    split; [exact I1|]. split; [apply List.Forall_app; split; assumption|].
    split; [intros i Hi; apply I3, S3, Hi|].
    intros Hall. apply andb_prop in Hall. destruct Hall as [Ha Hr].
    specialize (S4 Ha). injection S4 as -> ->.
    specialize (I4 Hr). injection I4 as -> ->. reflexivity.
Qed.

Lemma disabled_monitoring_witness :
  run_actions (mkManager 0 600000) [Tick 2000; Tick 9000000] unmonitored
  = (unmonitored, []).
Proof.
  exact (proj2 (proj2 (proj2
    (disabled_monitoring (mkManager 0 600000) unmonitored
       [Tick 2000; Tick 9000000] eq_refl))) eq_refl).
Defined.

Lemma flat_map_ext_In {A B} (f g : A -> list B) (l : list A) :
  (forall a, In a l -> f a = g a) -> flat_map f l = flat_map g l.
Proof.
  induction l as [|a l IH]; intros H; [reflexivity|].
  cbn [flat_map]. rewrite (H a (or_introl eq_refl)), IH; [reflexivity|].
  intros b Hb. apply H. right. exact Hb.
Qed.

Lemma cascade_events_alter (v w : bool) (idleMin : Z) (h : Host) (s s' : nat) :
  s' <> s ->
  cascade_events v idleMin (alter (set_available w) s h) s'
  = cascade_events v idleMin h s'.
Proof.
  intros Hne. unfold cascade_events.
  rewrite list_lookup_alter_ne by congruence. reflexivity.
Qed.

Lemma markUnavailable_loop_events (idleMin : Z) (siblings : list nat) :
  forall h,
    List.NoDup siblings ->
    snd (markUnavailable_loop idleMin siblings h)
    = flat_map (cascade_events false idleMin h) siblings.
Proof.
  induction siblings as [|s rest IH]; intros h Hnd; [reflexivity|].
  inversion Hnd as [|? ? Hnotin Hrest]; subst.
  cbn [markUnavailable_loop flat_map]. unfold cascade_events at 1.
  destruct (h !! s) as [d|] eqn:Hs; [|apply IH; exact Hrest].
  destruct (getAvailable d) eqn:Hav; cbn [Bool.eqb app];
    [|apply IH; exact Hrest].
  specialize (IH (alter (set_available false) s h) Hrest).
  destruct (markUnavailable_loop idleMin rest (alter (set_available false) s h))
    as [h' ev].
  cbn [snd] in *. rewrite IH. do 2 f_equal.
  apply flat_map_ext_In. intros s' Hin.
  apply cascade_events_alter. intros ->. contradiction.
Qed.

Lemma markAvailable_loop_events (siblings : list nat) :
  forall h,
    List.NoDup siblings ->
    snd (markAvailable_loop siblings h)
    = flat_map (cascade_events true 0 h) siblings.
Proof.
  induction siblings as [|s rest IH]; intros h Hnd; [reflexivity|].
  inversion Hnd as [|? ? Hnotin Hrest]; subst.
  cbn [markAvailable_loop flat_map]. unfold cascade_events at 1.
  destruct (h !! s) as [d|] eqn:Hs; [|apply IH; exact Hrest].
  destruct (getAvailable d) eqn:Hav; cbn [Bool.eqb negb app];
    [apply IH; exact Hrest|].
  specialize (IH (alter (set_available true) s h) Hrest).
  destruct (markAvailable_loop rest (alter (set_available true) s h))
    as [h' ev].
  cbn [snd] in *. rewrite IH. do 2 f_equal.
  apply flat_map_ext_In. intros s' Hin.
  apply cascade_events_alter. intros ->. contradiction.
Qed.

Lemma markUnavailable_loop_noop (idleMin : Z) (siblings : list nat) (h : Host) :
  (forall s d, In s siblings -> h !! s = Some d -> getAvailable d = false) ->
  markUnavailable_loop idleMin siblings h = (h, []).
Proof.
  induction siblings as [|s rest IH]; intros H; [reflexivity|].
  cbn [markUnavailable_loop].
  destruct (h !! s) as [d|] eqn:Hs.
  - rewrite (H s d (or_introl eq_refl) Hs).
    apply IH. intros s' d' Hin. apply H. right. exact Hin.
  - apply IH. intros s' d' Hin. apply H. right. exact Hin.
Qed.

Lemma markAvailable_loop_noop (siblings : list nat) (h : Host) :
  (forall s d, In s siblings -> h !! s = Some d -> getAvailable d = true) ->
  markAvailable_loop siblings h = (h, []).
Proof.
  induction siblings as [|s rest IH]; intros H; [reflexivity|].
  cbn [markAvailable_loop].
  destruct (h !! s) as [d|] eqn:Hs.
  - rewrite (H s d (or_introl eq_refl) Hs). cbn [negb].
    apply IH. intros s' d' Hin. apply H. right. exact Hin.
  - apply IH. intros s' d' Hin. apply H. right. exact Hin.
Qed.

Lemma NoDup_stdlib {A} (l : list A) : NoDup l -> List.NoDup l.
Proof. intros H. apply NoDup_ListNoDup. exact H. Qed.

(** X23. A cascade logs and sets exactly the siblings whose availability
    it changes, each once and in the order of the driver's devices, and
    a second cascade of the same kind right after it does nothing.  A
    restore after a timeout does not bring back the state before the
    timeout: it makes every sibling available, also one that was
    unavailable before the timeout. *)
Theorem cascade_exact (m : Manager) (h : Host) (idleMin : Z) :
  let siblings := _getSiblings m h in
  let down := _markAllUnavailable m idleMin h in
  let up := _markAllAvailable m (fst down) in
  snd down = flat_map (cascade_events false idleMin h) siblings
  /\ snd (_markAllAvailable m h)
     = flat_map (cascade_events true idleMin h) siblings
  /\ _markAllUnavailable m idleMin (fst down) = (fst down, [])
  /\ (forall i, fst up !! i = cascaded true siblings h i)
  /\ snd up
     = flat_map (fun s => match h !! s with
                          | Some _ => [LogAvailable s; SetAvailable s]
                          | None => []
                          end) siblings
  /\ _markAllAvailable m (fst up) = (fst up, []).
Proof.
  cbv zeta. unfold _markAllUnavailable, _markAllAvailable.
  pose proof (NoDup_stdlib _ (getSiblings_NoDup m h)) as Hnd.
  pose proof (markUnavailable_loop_siblings m idleMin (_getSiblings m h) h)
    as Hsib.
  destruct (markUnavailable_loop_spec idleMin (_getSiblings m h) h)
    as [Hdown _].
  set (sib := _getSiblings m h) in *.
  set (h1 := fst (markUnavailable_loop idleMin sib h)) in *.
  rewrite Hsib.
  pose proof (markAvailable_loop_siblings m sib h1) as Hsib2.
  rewrite Hsib in Hsib2.
  destruct (markAvailable_loop_spec sib h1) as [Hup _].
  set (h2 := fst (markAvailable_loop sib h1)) in *.
  rewrite Hsib2.
  assert (Hin : forall s, In s sib <-> s ∈ sib)
    by (intros s; symmetry; apply list_elem_of_In).
  split; [apply markUnavailable_loop_events; exact Hnd|].
  split.
  { rewrite (markAvailable_loop_events sib h Hnd).
    apply flat_map_ext_In. intros s _. unfold cascade_events.
    destruct (h !! s) as [d|]; [|reflexivity].
    destruct (Bool.eqb (getAvailable d) true); reflexivity. }
  split.
  { apply markUnavailable_loop_noop. intros s d Hs Hd.
    rewrite Hdown in Hd. unfold cascaded in Hd.
    rewrite decide_True in Hd by (apply Hin; exact Hs).
    destruct (h !! s); [|discriminate]. injection Hd as <-. reflexivity. }
  split.
  { intros i. rewrite Hup. unfold cascaded. rewrite Hdown. unfold cascaded.
    destruct (decide (i ∈ sib)); destruct (h !! i); reflexivity. }
  split.
  { rewrite (markAvailable_loop_events sib h1 Hnd).
    apply flat_map_ext_In. intros s Hs. unfold cascade_events.
    rewrite Hdown. unfold cascaded.
    rewrite decide_True by (apply Hin; exact Hs).
    destruct (h !! s); reflexivity. }
  apply markAvailable_loop_noop. intros s d Hs Hd.
  rewrite Hup in Hd. unfold cascaded in Hd.
  rewrite decide_True in Hd by (apply Hin; exact Hs).
  destruct (h1 !! s); [|discriminate]. injection Hd as <-. reflexivity.
Qed.

(** ** The life cycle *)

Lemma alter_fixed {A} (f : A -> A) (i : nat) (l : list A) :
  (forall x, l !! i = Some x -> f x = x) -> alter f i l = l.
Proof.
  intros H. apply list_eq. intros j.
  destruct (decide (i = j)) as [<- | Hne].
  - rewrite list_lookup_alter_eq.
    destruct (l !! i) as [x|] eqn:E; [|reflexivity].
    cbn. rewrite (H x eq_refl). reflexivity.
  - apply list_lookup_alter_ne. exact Hne.
Qed.

(** A second mark at the same time changes nothing and logs nothing. *)
Lemma markAlive_again (m : Manager) (now : Z) (h : Host) :
  _markAlive m now (fst (_markAlive m now h))
  = (fst (_markAlive m now h), []).
Proof.
  destruct (h !! device m) as [me|] eqn:Hme.
  - destruct (markAlive_self m now h me Hme) as (me' & H1 & H2 & H3 & _).
    set (h1 := fst (_markAlive m now h)) in *.
    unfold _markAlive.
    assert (E : alter (set_last_seen now) (device m) h1 = h1).
    { apply alter_fixed. intros x Hx. rewrite H1 in Hx. injection Hx as <-.
      destruct me' as [d a l e]. cbn in H3. subst l. reflexivity. }
    rewrite E, H1, H2. reflexivity.
  - assert (E : alter (set_last_seen now) (device m) h = h)
      by (apply alter_fixed; intros x Hx; congruence).
    unfold _markAlive. rewrite E, Hme. cbn [fst]. rewrite E, Hme.
    reflexivity.
Qed.

Lemma markAlive_times_once (m : Manager) (now : Z) (n : nat) (h : Host) :
  markAlive_times m now (S n) h = _markAlive m now h.
Proof.
  cbn [markAlive_times].
  destruct (_markAlive m now h) as [h1 ev1] eqn:E1.
  assert (Hagain : _markAlive m now h1 = (h1, []))
    by (pose proof (markAlive_again m now h) as H; rewrite E1 in H; exact H).
  assert (Hn : markAlive_times m now n h1 = (h1, [])).
  { clear E1. induction n as [|n IH]; [reflexivity|].
    cbn [markAlive_times]. rewrite Hagain, IH. reflexivity. }
  rewrite Hn, app_nil_r. reflexivity.
Qed.

Lemma install_consistent (k : strategy) (enabled node : bool) (s : Life) :
  consistent k s = true ->
  let out := install k enabled node s in
  consistent k (snd (fst out)) = true
  /\ (hooks s <= hooks (snd (fst out)))%nat
  /\ ~ In ErrWatchdogRunning (snd out)
  /\ (fst (fst out) = Throw tt -> snd (fst out) = s)
  /\ (_installed s = true -> snd (fst out) = s).
Proof.
  cbv zeta. destruct s as [i w hk hp], k, enabled, node, i, w, hp;
    cbn; try discriminate; intros Hc;
    repeat split; try lia; try reflexivity; try discriminate;
    try exact Hc; try (intuition discriminate).
Qed.

Lemma uninstall_consistent (k : strategy) (s : Life) :
  consistent k s = true ->
  let out := uninstall k s in
  consistent k (fst out) = true
  /\ hooks (fst out) = hooks s
  /\ _installed (fst out) = false
  /\ ~ In ErrWatchdogRunning (snd out).
Proof.
  cbv zeta. destruct s as [i w hk hp], k, i, w, hp;
    cbn; try discriminate; intros Hc;
    repeat split; try lia; try reflexivity; try discriminate;
    try exact Hc; try (intuition discriminate).
Qed.

Lemma life_step_consistent (k : strategy) (m : Manager) (o : op)
    (s : Life) (h : Host) :
  consistent k s = true ->
  let out := life_step k m o (s, h) in
  consistent k (fst (fst out)) = true
  /\ (hooks s <= hooks (fst (fst out)))%nat
  /\ ~ In (OfManager ErrWatchdogRunning) (snd out).
Proof.
  intros Hc. cbv zeta. destruct o as [node| |v|now|now|now];
    cbn [life_step].
  - pose proof (install_consistent k (_isEnabled m h) node s Hc)
      as (I1 & I2 & I3 & _).
    destruct (install k (_isEnabled m h) node s) as [[r s'] ev].
    cbn [fst snd] in *. split; [exact I1|]. split; [exact I2|].
    intros H. apply List.in_map_iff in H. destruct H as (e & He & Hin).
    injection He as ->. contradiction.
  - pose proof (uninstall_consistent k s Hc) as (U1 & U2 & _ & U4).
    destruct (uninstall k s) as [s' ev]. cbn [fst snd] in *.
    split; [exact U1|]. split; [lia|].
    intros H. apply List.in_map_iff in H. destruct H as (e & He & Hin).
    injection He as ->. contradiction.
  - cbn. split; [exact Hc|]. split; [lia | tauto].
  - destruct (markAlive_times m now (hooks s) h) as [h' ev]. cbn [fst snd].
    split; [exact Hc|]. split; [lia|].
    intros H. apply List.in_map_iff in H. destruct H as (e & He & _).
    discriminate.
  - destruct (helper s); [destruct (_markAlive m now h) as [h' ev]|];
      cbn [fst snd]; (split; [exact Hc|]); (split; [lia|]);
      [|tauto].
    intros H. apply List.in_map_iff in H. destruct H as (e & He & _).
    discriminate.
  - destruct (_watchdogInterval s);
      [destruct (watchdog_tick m now h) as [h' ev]|];
      cbn [fst snd]; (split; [exact Hc|]); (split; [lia|]);
      [|tauto].
    intros H. apply List.in_map_iff in H. destruct H as (e & He & _).
    discriminate.
Qed.

Lemma life_run_consistent (k : strategy) (m : Manager) (ops : list op) :
  forall s h,
    consistent k s = true ->
    let out := life_run k m ops (s, h) in
    consistent k (fst (fst out)) = true
    /\ (hooks s <= hooks (fst (fst out)))%nat
    /\ ~ In (OfManager ErrWatchdogRunning) (snd out).
Proof.
  cbv zeta. induction ops as [|o rest IH]; intros s h Hc.
  - cbn. split; [exact Hc|]. split; [lia | tauto].
  - cbn [life_run].
    pose proof (life_step_consistent k m o s h Hc) as (S1 & S2 & S3).
    destruct (life_step k m o (s, h)) as [[s1 h1] ev1]. cbn [fst snd] in *.
    pose proof (IH s1 h1 S1) as (I1 & I2 & I3).
    destruct (life_run k m rest (s1, h1)) as [[s2 h2] ev2].
    cbn [fst snd] in *. split; [exact I1|]. split; [lia|].
    intros H. apply in_app_or in H. tauto.
Qed.

(** X24. From a fresh manager, whatever is installed, uninstalled, set,
    received and ticked, in any order: the watchdog runs exactly while
    the manager is installed, and it is never started twice ('Watchdog
    already running' is never logged); under Cluster6 the device has the
    helper exactly while the manager is installed, and the node is never
    hooked; under Cluster0 the hooks on the node are never taken off
    again, so their number only grows, and an installed manager has at
    least one. *)
Theorem life_cycle_invariant (k : strategy) (m : Manager) (ops : list op)
    (h : Host) :
  let out := life_run k m ops (fresh, h) in
  let s := fst (fst out) in
  _installed s = _watchdogInterval s
  /\ ~ In (OfManager ErrWatchdogRunning) (snd out)
  /\ (k = Cluster6 -> helper s = _installed s /\ hooks s = 0%nat)
  /\ (k = Cluster0 ->
      helper s = false /\ (_installed s = true -> (1 <= hooks s)%nat))
  /\ (forall more,
        (hooks s
         <= hooks (fst (fst (life_run k m more (fst out)))))%nat).
Proof.
  cbv zeta.
  assert (Hfresh : consistent k fresh = true) by (destruct k; reflexivity).
  pose proof (life_run_consistent k m ops fresh h Hfresh) as (H1 & _ & H3).
  destruct (life_run k m ops (fresh, h)) as [[s h'] ev]. cbn [fst snd] in *.
  split; [|split; [exact H3|split; [|split]]].
  - destruct s as [i w hk hp], k, i, w; cbn in H1; try discriminate;
      reflexivity.
  - intros ->. destruct s as [i w hk hp], i, w, hp, hk; cbn in H1;
      try discriminate; split; reflexivity.
  - intros ->. destruct s as [i w hk hp], i, w, hp; cbn in H1;
      try discriminate; (split; [reflexivity|]); cbn; intros Ht;
      try discriminate; apply Nat.leb_le; exact H1.
  - intros more.
    apply (life_run_consistent k m more s h' H1).
Qed.

Lemma available_at_set_setting (v : bool) (k : nat) (h : Host) (i : nat) :
  available_at (alter (set_setting v) k h) i = available_at h i.
Proof.
  unfold available_at. destruct (decide (k = i)) as [<- | Hne].
  - rewrite list_lookup_alter_eq. destruct (h !! k); reflexivity.
  - rewrite list_lookup_alter_ne by exact Hne. reflexivity.
Qed.

Lemma quiet_observed (ev : list aevent) :
  Forall (fun e => tells_unavailable e = false) ev ->
  Forall (fun e => made_unavailable e = false) (map OfDevices ev).
Proof.
  intros H. induction H as [|e ev He _ IH]; constructor; assumption.
Qed.

Lemma quiet_manager (ev : list levent) :
  Forall (fun e => made_unavailable e = false) (map OfManager ev).
Proof. induction ev; constructor; [reflexivity | assumption]. Qed.

Lemma uninstalled_step (k : strategy) (m : Manager) (o : op) (s : Life)
    (h : Host) :
  consistent k s = true ->
  _installed s = false ->
  is_install o = false ->
  let out := life_step k m o (s, h) in
  fst (fst out) = s
  /\ Forall (fun e => made_unavailable e = false) (snd out)
  /\ (forall i, available_at h i = Some true ->
                available_at (snd (fst out)) i = Some true).
Proof.
  intros Hc Hi Ho. cbv zeta.
  assert (Hw : _watchdogInterval s = false).
  { destruct s as [i w hk hp]. cbn in Hi. subst i.
    destruct w; [|reflexivity]. destruct k; discriminate. }
  destruct o as [node| |v|now|now|now]; cbn [life_step]; [discriminate|..].
  - unfold uninstall. rewrite Hi. cbn. repeat split; auto.
  - cbn [fst snd]. split; [reflexivity|]. split; [constructor|].
    intros i. rewrite available_at_set_setting. auto.
  - destruct (hooks s) as [|n].
    + cbn. repeat split; auto.
    + rewrite markAlive_times_once.
      pose proof (markAlive_quiet m now h) as Hq.
      pose proof (fun i => markAlive_keeps_available m now h i) as Hk.
      destruct (_markAlive m now h) as [h' ev]. cbn [fst snd] in *.
      split; [reflexivity|]. split; [apply quiet_observed; exact Hq|].
      exact Hk.
  - destruct (helper s).
    + pose proof (markAlive_quiet m now h) as Hq.
      pose proof (fun i => markAlive_keeps_available m now h i) as Hk.
      destruct (_markAlive m now h) as [h' ev]. cbn [fst snd] in *.
      split; [reflexivity|]. split; [apply quiet_observed; exact Hq|].
      exact Hk.
    + cbn. repeat split; auto.
  - rewrite Hw. cbn. repeat split; auto.
Qed.

(** X25. What an uninstalled manager still does.  After [uninstall] the
    watchdog is gone, so nothing is ever marked unavailable and every
    available device stays available, until the next [install].  Under
    Cluster0 the hooks stay on the node: a frame still stores the time
    and restores an unavailable node, and any number of hooks acts as one
    (each of them marks the device alive, the first does it all).  Under
    Cluster6 the helper is gone with the manager: reports and frames
    change nothing. *)
Theorem uninstalled_manager (k : strategy) (m : Manager) (s : Life)
    (h : Host) (ops : list op) :
  consistent k s = true ->
  _installed s = false ->
  forallb (fun o => negb (is_install o)) ops = true ->
  let out := life_run k m ops (s, h) in
  fst (fst out) = s
  /\ Forall (fun e => made_unavailable e = false) (snd out)
  /\ (forall i, available_at h i = Some true ->
                available_at (snd (fst out)) i = Some true)
  /\ (forall now n,
        hooks s = S n ->
        life_step k m (Frame now) (s, h)
        = (s, fst (_markAlive m now h),
           map OfDevices (snd (_markAlive m now h)))
        /\ (forall me, h !! device m = Some me ->
              available_at (fst (_markAlive m now h)) (device m) = Some true))
  /\ (k = Cluster6 ->
      forall now,
        life_step k m (Frame now) (s, h) = (s, h, [])
        /\ life_step k m (Report now) (s, h) = (s, h, []))
  /\ (forall now, life_step k m (Period now) (s, h) = (s, h, [])).
Proof.
  intros Hc Hi Hops. cbv zeta.
  assert (Hrun : forall ops h,
             forallb (fun o => negb (is_install o)) ops = true ->
             fst (fst (life_run k m ops (s, h))) = s
             /\ Forall (fun e => made_unavailable e = false)
                       (snd (life_run k m ops (s, h)))
             /\ (forall i, available_at h i = Some true ->
                   available_at (snd (fst (life_run k m ops (s, h)))) i
                   = Some true)).
  { clear ops h Hops. induction ops as [|o rest IH]; intros h Hops.
    - cbn. repeat split; auto.
    - cbn [forallb] in Hops. apply andb_prop in Hops.
      destruct Hops as [Ho Hrest]. apply negb_true_iff in Ho.
      cbn [life_run].
      pose proof (uninstalled_step k m o s h Hc Hi Ho) as (S1 & S2 & S3).
      destruct (life_step k m o (s, h)) as [[s1 h1] ev1].
      cbn [fst snd] in *. subst s1.
      pose proof (IH h1 Hrest) as (I1 & I2 & I3).
      destruct (life_run k m rest (s, h1)) as [[s2 h2] ev2].
      cbn [fst snd] in *.
      split; [exact I1|]. split; [apply List.Forall_app; split; assumption|].
      intros i Hav. apply I3, S3, Hav. }
  destruct (Hrun ops h Hops) as (R1 & R2 & R3).
  split; [exact R1|]. split; [exact R2|]. split; [exact R3|].
  split; [|split].
  - intros now n Hn. split.
    + cbn [life_step]. rewrite Hn, markAlive_times_once.
      destruct (_markAlive m now h) as [h' ev]. reflexivity.
    + intros me Hme.
      destruct (markAlive_self m now h me Hme) as (me' & H1 & H2 & _).
      unfold available_at. rewrite H1. cbn. rewrite H2. reflexivity.
  - intros -> now. destruct s as [i w hk hp]. cbn in Hi. subst i.
    destruct w, hp, hk; cbn in Hc; try discriminate. split; reflexivity.
  - intros now. cbn [life_step].
    destruct s as [i w hk hp]. cbn in Hi. subst i.
    destruct w; [destruct k; discriminate | reflexivity].
Qed.

Lemma uninstalled_manager_witness :
  fst (fst (life_run Cluster0 ten_minutes [Period 9000000; Frame 9000001]
              (mkLife false false 1 false, [silent_gang])))
  = mkLife false false 1 false.
Proof.
  exact (proj1 (uninstalled_manager Cluster0 ten_minutes
                  (mkLife false false 1 false) [silent_gang]
                  [Period 9000000; Frame 9000001]
                  eq_refl eq_refl eq_refl)).
Defined.

End AvailabilityMoreFacts.
(* ===================================================================== *)
(** * Properties of the temperature and humidity clock                    *)
(* ===================================================================== *)

Module ClockFacts.
Import Js Codec Decoders Clock.

Lemma requestDatapoints_cases (answer : query_answer) (now last : Z) :
  (now - last < QUERY_THROTTLE
   /\ _requestDatapoints answer now last = (last, []))
  \/ (QUERY_THROTTLE <= now - last
      /\ fst (_requestDatapoints answer now last) = now
      /\ snd (_requestDatapoints answer now last) <> []).
Proof.
  unfold _requestDatapoints.
  destruct (Z.ltb_spec (now - last) QUERY_THROTTLE) as [H | H].
  - left. split; [exact H | reflexivity].
  - right. split; [exact H|]. split; [reflexivity|].
    destruct answer; discriminate.
Qed.

Lemma last_cons_default {A} (l : list A) (a d d' : A) :
  List.last (a :: l) d = List.last (a :: l) d'.
Proof.
  revert a. induction l as [|b l IH]; intros a; [reflexivity|].
  change (List.last (b :: l) d = List.last (b :: l) d'). apply IH.
Qed.

Lemma requests_spaced (calls : list (Z * query_answer)) :
  forall last,
    spaced last (passed (snd (requests calls last)))
    /\ fst (requests calls last)
       = List.last (passed (snd (requests calls last))) last.
Proof.
  induction calls as [|[now answer] rest IH]; intros last.
  - cbn. split; [exact I | reflexivity].
  - cbn [requests].
    destruct (requestDatapoints_cases answer now last)
      as [[Hlt E] | (Hge & E1 & E2)].
    + rewrite E. destruct (IH last) as [I1 I2].
      destruct (requests rest last) as [last2 trace]. cbn [fst snd] in *.
      unfold passed in *. cbn [flat_map snd app]. split; assumption.
    + destruct (_requestDatapoints answer now last) as [last1 ev].
      cbn [fst snd] in *. subst last1.
      destruct (IH now) as [I1 I2].
      destruct (requests rest now) as [last2 trace]. cbn [fst snd] in *.
      unfold passed in *. cbn [flat_map snd fst].
      destruct ev as [|e ev]; [contradiction|]. cbn [app spaced].
      split; [split; assumption|].
      rewrite I2.
      destruct (flat_map
                  (fun c : Z * list qevent =>
                     match snd c with [] => [] | _ :: _ => [fst c] end)
                  trace) as [|z l]; [reflexivity|].
      change (List.last (now :: z :: l) last) with (List.last (z :: l) last).
      apply last_cons_default.
Qed.

(** X26. However often and whenever [_requestDatapoints] is called, two
    queries that get past the throttle are at least 60 s apart, and the
    first is at least 60 s after the stored time; the stored time ends as
    the time of the last call that got past.  A call closer than 60 s to
    the stored time does nothing, also when the clock has gone back; any
    other call stores its time before it queries, so a query that is
    rejected, or that finds no cluster, still starts a new 60 s of
    silence. *)
Theorem query_throttle (calls : list (Z * query_answer)) (last : Z) :
  let out := requests calls last in
  spaced last (passed (snd out))
  /\ fst out = List.last (passed (snd out)) last
  /\ (forall answer now,
        now - last < QUERY_THROTTLE ->
        _requestDatapoints answer now last = (last, []))
  /\ (forall answer now,
        QUERY_THROTTLE <= now - last ->
        fst (_requestDatapoints answer now last) = now
        /\ (In DataQuery (snd (_requestDatapoints answer now last))
            <-> answer <> QNoCluster)
        /\ forall answer' now',
             now' - now < QUERY_THROTTLE ->
             _requestDatapoints answer' now'
               (fst (_requestDatapoints answer now last))
             = (now, [])).
Proof.
  cbv zeta. destruct (requests_spaced calls last) as [H1 H2].
  split; [exact H1|]. split; [exact H2|]. split.
  - intros answer now Hlt. unfold _requestDatapoints.
    destruct (Z.ltb_spec (now - last) QUERY_THROTTLE); [reflexivity | lia].
  - intros answer now Hge.
    assert (E : _requestDatapoints answer now last
                = (now, match answer with
                        | QNoCluster => [LogQueryFailed]
                        | QRejects _ => [DataQuery; LogQueryFailed]
                        | QResolves => [DataQuery; LogRequested]
                        end)).
    { unfold _requestDatapoints.
      destruct (Z.ltb_spec (now - last) QUERY_THROTTLE); [lia | reflexivity]. }
    rewrite E. cbn [fst snd]. split; [reflexivity|]. split.
    + destruct answer; cbn; split; intros H; try discriminate;
        try tauto; try (exfalso; apply H; reflexivity);
        try (destruct H as [H | []]; discriminate).
    + intros answer' now' Hlt. unfold _requestDatapoints.
      destruct (Z.ltb_spec (now' - now) QUERY_THROTTLE); [reflexivity | lia].
Qed.

Lemma inline_twos_complement (t : Z) :
  - 2 ^ 31 <= t < 2 ^ 31 ->
  inline_getDataValue 2 (twos_complement32 t) = Ok (VNum t).
Proof.
  intros Ht. unfold inline_getDataValue. cbn [Z.eqb].
  rewrite DecodersFacts.reduce_convert. do 2 f_equal.
  unfold twos_complement32.
  rewrite CodecFacts.convert_big_endian, CodecFacts.big_endian_be32
    by (apply Z.mod_pos_bound; lia).
  rewrite <- (JsFacts.to_int32_small t Ht) at 2.
  apply (JsFacts.to_int32_cong _ _ (- (t / 2 ^ 32))).
  pose proof (Z.div_mod t (2 ^ 32)). lia.
Qed.

(** X27. The clock drops a report for datapoint 0 without looking at it,
    and reports a parse error, and nothing else, for a datatype outside
    0..5 on any other datapoint.  A temperature sent as the four bytes of
    a two's complement is handed on with its sign, so temperatures below
    zero arrive as negative tenths of a degree.  A battery report of one
    byte hands that byte to [_handleBattery], which knows the values 0, 1
    and 2 only, as 33, 66 and 100 percent, and raises the battery alarm
    exactly for 0. *)
Theorem clock_reports :
  (forall frame, dp frame = 0 -> _processDatapoint frame = Dropped)
  /\ (forall frame,
        dp frame <> 0 -> ~ 0 <= datatype frame <= 5 ->
        _processDatapoint frame
        = ParseError (UnsupportedDatatype (datatype frame)))
  /\ (forall frame,
        dp frame <> 0 -> 0 <= datatype frame <= 5 ->
        exists v,
          decode (datatype frame) (data frame) = Ok v
          /\ _processDatapoint frame
             = if dp frame =? DP_temperature then Temperature v
               else if dp frame =? DP_humidity then Humidity v
               else if dp frame =? DP_battery then Battery v
               else if dp frame =? DP_tempUnit then UnitLogged v
               else UnknownDp (dp frame) v)
  /\ (forall t,
        - 2 ^ 31 <= t < 2 ^ 31 ->
        _processDatapoint (mkReport DP_temperature 2 (twos_complement32 t))
        = Temperature (VNum t))
  /\ (forall b,
        _processDatapoint (mkReport DP_battery 4 [b])
        = Battery (VNum (byte_to_Z b)))
  /\ (forall n,
        (_handleBattery n = UnknownEnum <-> ~ 0 <= n <= 2)
        /\ forall pct alarm,
             _handleBattery n = SetBattery pct alarm ->
             In (n, pct) [(0, 33); (1, 66); (2, 100)]
             /\ (alarm = true <-> n = 0)).
Proof.
  split; [|split; [|split; [|split; [|split]]]].
  - intros frame H. unfold _processDatapoint. rewrite H. reflexivity.
  - intros frame Hdp Hdt. unfold _processDatapoint.
    destruct (Z.eqb_spec (dp frame) 0); [contradiction|].
    unfold inline_getDataValue.
    destruct (Z.eqb_spec (datatype frame) 0); [lia|].
    destruct (Z.eqb_spec (datatype frame) 1); [lia|].
    destruct (Z.eqb_spec (datatype frame) 2); [lia|].
    destruct (Z.eqb_spec (datatype frame) 3); [lia|].
    destruct (Z.eqb_spec (datatype frame) 4); [lia|].
    destruct (Z.eqb_spec (datatype frame) 5); [lia|].
    reflexivity.
  - intros frame Hdp Hdt. unfold _processDatapoint.
    destruct (Z.eqb_spec (dp frame) 0); [contradiction|].
    assert (E : inline_getDataValue (datatype frame) (data frame)
                = decode (datatype frame) (data frame)).
    { unfold inline_getDataValue, decode, getDataValue,
        TUYA_raw, TUYA_bool, TUYA_value, TUYA_string, TUYA_enum, TUYA_bitmap.
      cbn [Codec.data Codec.datatype].
      rewrite DecodersFacts.reduce_convert. reflexivity. }
    rewrite E.
    assert (Hok : exists v, decode (datatype frame) (data frame) = Ok v).
    { unfold decode, getDataValue,
        TUYA_raw, TUYA_bool, TUYA_value, TUYA_string, TUYA_enum, TUYA_bitmap.
      cbn [Codec.data Codec.datatype].
      destruct (Z.eqb_spec (datatype frame) 0); [eexists; reflexivity|].
      destruct (Z.eqb_spec (datatype frame) 1); [eexists; reflexivity|].
      destruct (Z.eqb_spec (datatype frame) 2); [eexists; reflexivity|].
      destruct (Z.eqb_spec (datatype frame) 3); [eexists; reflexivity|].
      destruct (Z.eqb_spec (datatype frame) 4); [eexists; reflexivity|].
      destruct (Z.eqb_spec (datatype frame) 5); [eexists; reflexivity|].
      lia. }
    destruct Hok as (v & Hv). exists v. rewrite Hv.
    split; reflexivity.
  - intros t Ht. unfold _processDatapoint.
    cbn [dp datatype data]. rewrite (inline_twos_complement t Ht).
    reflexivity.
  - intros b. reflexivity.
  - intros n. unfold _handleBattery, BATTERY_PCT.
    destruct (Z.eqb_spec n 0) as [-> |];
      [split; [split; [discriminate | lia]|];
       intros pct alarm H; injection H as <- <-; cbn; split; [tauto|];
       split; reflexivity|].
    destruct (Z.eqb_spec n 1) as [-> |];
      [split; [split; [discriminate | lia]|];
       intros pct alarm H; injection H as <- <-; cbn; split; [tauto|];
       split; [discriminate | lia]|].
    destruct (Z.eqb_spec n 2) as [-> |];
      [split; [split; [discriminate | lia]|];
       intros pct alarm H; injection H as <- <-; cbn; split; [tauto|];
       split; [discriminate | lia]|].
    split; [split; [lia | reflexivity]|]. intros pct alarm H. discriminate.
Qed.

End ClockFacts.
